(** * LSTM music-genre classifier: the training script

    A shallow embedding of [lstm_genre_classifier_pytorch.py]: the cache
    check at start-up, the [LSTM] class ([init_hidden], [forward],
    [get_accuracy]) and the epoch / minibatch training loop.

    Conventions of the model.
    - Python exceptions are values of [Py.exn]; a computation that may raise
      returns a [Py.result].
    - A Python [float] (and a 0-dim float tensor read with [.item()]) is a
      [Py.pyfloat]: the rational number it stands for, or one of the IEEE
      specials.  Every arithmetic operation rounds to nearest, ties to even:
      to binary64 for a Python [float], to binary32 for a [FloatTensor].
      The sign of a zero is not kept.
    - Tensors and numpy arrays are nested lists, outermost axis first.
    - What the script prints and which loader it calls are recorded as an
      ordered log of [event]s; the log also records, as ghost events, the
      index range of every minibatch slice the loop takes and the loss and
      accuracy it adds to the running sums for that minibatch.
    - The numeric kernels of [torch] (the layers, the loss, differentiation,
      the optimiser) and the feature loader are parameters; a layer or a
      loss may raise, as the library does on a tensor of the wrong shape. *)

From Stdlib Require Import String Ascii DecimalString.
From Stdlib Require Import List ZArith QArith Qround Qabs Qpower Bool Arith Lia.
From Stdlib Require Import Reals Lra.
From Stdlib Require Lqa Qcanon.
Import ListNotations.

Set Implicit Arguments.
Close Scope Q_scope.
Close Scope R_scope.

(** ** Python values and primitives *)

Module Py.

Inductive exn : Type :=
| ZeroDivisionError
| IndexError
| RuntimeError
| ValueError
| OverflowError.

Inductive result (A : Type) : Type :=
| Ok (a : A)
| Raise (e : exn).
Arguments Ok {A} a.
Arguments Raise {A} e.

Definition bind {A B} (r : result A) (k : A -> result B) : result B :=
  match r with
  | Ok a => k a
  | Raise e => Raise e
  end.

Definition is_ok {A} (r : result A) : bool :=
  match r with
  | Ok _ => true
  | Raise _ => false
  end.

(** A float: the rational it stands for, or [inf], [-inf], [nan]. *)
Inductive pyfloat : Type :=
| Fin (q : Q)
| Inf (negative : bool)
| NaN.

(** Nearest integer, ties to even. *)
Definition round_half_even (q : Q) : Z :=
  let f := Qfloor q in
  match Qcompare (q - inject_Z f)%Q (1 # 2)%Q with
  | Lt => f
  | Gt => (f + 1)%Z
  | Eq => if Z.even f then f else (f + 1)%Z
  end.

(** *** IEEE 754 binary formats

    A format has [prec] significant bits and the exponent bound [emax]:
    its finite numbers are the [m * 2^e] with [|m| < 2^prec] and
    [3 - emax - prec <= e], below [2^emax] in magnitude. *)
Record float_format : Type := { prec : Z; emax : Z }.

Definition binary32 : float_format := {| prec := 24; emax := 128 |}.
Definition binary64 : float_format := {| prec := 53; emax := 1024 |}.

Definition pow2 (e : Z) : Q := ((2 # 1) ^ e)%Q.

(** For [x > 0], the [k] with [2^k <= x < 2^(k+1)]. *)
Definition binade (x : Q) : Z :=
  let k := (Z.log2 (Qnum x) - Z.log2 (Zpos (Qden x)))%Z in
  if Qle_bool (pow2 k) x then k else (k - 1)%Z.

(** The exponent of the last place of the format at [x > 0]; the lower
    bound is that of the subnormal numbers. *)
Definition exponent (f : float_format) (x : Q) : Z :=
  Z.max (binade x - (prec f - 1)) (3 - emax f - prec f).

(** The multiple of [2^exponent] nearest to [x > 0], ties to even. *)
Definition nearest (f : float_format) (x : Q) : Q :=
  let e := exponent f x in
  (inject_Z (round_half_even (x / pow2 e)) * pow2 e)%Q.

(** Rounding of [x > 0]: [None] on overflow. *)
Definition round_pos (f : float_format) (x : Q) : option Q :=
  let r := nearest f x in
  if Qle_bool (pow2 (emax f)) r then None else Some (Qred r).

(** The float of the format that an exact result [x] is rounded to. *)
Definition round (f : float_format) (x : Q) : pyfloat :=
  match Qcompare x 0%Q with
  | Eq => Fin 0%Q
  | Gt => match round_pos f (Qred x) with
          | Some r => Fin r
          | None => Inf false
          end
  | Lt => match round_pos f (Qred (- x)) with
          | Some r => Fin (- r)%Q
          | None => Inf true
          end
  end.

Definition is_negative (x : Q) : bool :=
  match Qcompare x 0%Q with Lt => true | _ => false end.

Definition is_zero (x : Q) : bool :=
  match Qcompare x 0%Q with Eq => true | _ => false end.

(** Addition, multiplication and division of the format. *)
Definition ieee_add (f : float_format) (a b : pyfloat) : pyfloat :=
  match a, b with
  | Fin x, Fin y => round f (x + y)%Q
  | NaN, _ | _, NaN => NaN
  | Inf s, Fin _ | Fin _, Inf s => Inf s
  | Inf s, Inf t => if Bool.eqb s t then Inf s else NaN
  end.

Definition ieee_mul (f : float_format) (a b : pyfloat) : pyfloat :=
  match a, b with
  | Fin x, Fin y => round f (x * y)%Q
  | NaN, _ | _, NaN => NaN
  | Inf s, Fin y | Fin y, Inf s =>
      if is_zero y then NaN else Inf (xorb s (is_negative y))
  | Inf s, Inf t => Inf (xorb s t)
  end.

Definition ieee_div (f : float_format) (a b : pyfloat) : pyfloat :=
  match a, b with
  | NaN, _ | _, NaN => NaN
  | Fin x, Fin y =>
      if is_zero y then
        (if is_zero x then NaN else Inf (is_negative x))
      else round f (x / y)%Q
  | Fin _, Inf _ => Fin 0%Q
  | Inf s, Fin y => Inf (xorb s (is_negative y))
  | Inf _, Inf _ => NaN
  end.

(** *** Python [float] and [int] *)

(** [a + b] on floats. *)
Definition float_add (a b : pyfloat) : pyfloat := ieee_add binary64 a b.

(** [float(n)] for an int: raises when [n] is too large. *)
Definition float_of_int (n : Z) : result pyfloat :=
  match round binary64 (inject_Z n) with
  | Fin d => Ok (Fin d)
  | _ => Raise OverflowError
  end.

(** [a / b] on floats: Python raises on a zero divisor. *)
Definition float_truediv (a b : pyfloat) : result pyfloat :=
  match b with
  | Fin y => if is_zero y then Raise ZeroDivisionError
             else Ok (ieee_div binary64 a b)
  | _ => Ok (ieee_div binary64 a b)
  end.

(** [a / n] for a float [a] and an int [n]: the int is converted first. *)
Definition float_div_int (a : pyfloat) (n : Z) : result pyfloat :=
  bind (float_of_int n) (fun d => float_truediv a d).

(** [a / b] for two ints (true division): the correctly rounded
    quotient. *)
Definition int_truediv (a b : Z) : result pyfloat :=
  if (b =? 0)%Z then Raise ZeroDivisionError
  else match round binary64 (inject_Z a / inject_Z b)%Q with
       | Fin q => Ok (Fin q)
       | _ => Raise OverflowError
       end.

(** [int(x)]: truncation toward zero. *)
Definition int_of_float (x : pyfloat) : result Z :=
  match x with
  | Fin q => Ok (if Qle_bool 0%Q q then Qfloor q else Qceiling q)
  | Inf _ => Raise OverflowError
  | NaN => Raise ValueError
  end.

(** [range(n)]. *)
Definition range (n : nat) : list nat := seq 0 n.

(** [l[lo:hi]] for [0 <= lo <= hi]: out-of-range bounds are clamped. *)
Definition slice {A} (l : list A) (lo hi : nat) : list A :=
  firstn (hi - lo) (skipn lo l).

(** [l[-1]]. *)
Definition last_item {A} (l : list A) : result A :=
  match rev l with
  | [] => Raise IndexError
  | x :: _ => Ok x
  end.

(** *** [%]-formatting *)

(** ["%d" % n]. *)
Definition format_d (n : Z) : string :=
  NilZero.string_of_int (Z.to_int n).

Definition digit (d : Z) : ascii :=
  ascii_of_nat (48 + Z.to_nat d).

(** The [k] low decimal digits of [a], zero padded. *)
Fixpoint fixed_digits (k : nat) (a : Z) : string :=
  match k with
  | O => EmptyString
  | S k' => fixed_digits k' (a / 10) ++ String (digit (a mod 10)) EmptyString
  end.

(** ["%.<prec>f" % x]. *)
Definition format_f (prec : nat) (x : pyfloat) : string :=
  match x with
  | Fin q =>
      let scale := (10 ^ Z.of_nat prec)%Z in
      let m := round_half_even (Qabs q * inject_Z scale)%Q in
      (if Qlt_le_dec q 0%Q then "-" else "")
        ++ format_d (m / scale)
        ++ (match prec with O => "" | _ => "." end)
        ++ fixed_digits prec (m mod scale)
  | Inf false => "inf"
  | Inf true => "-inf"
  | NaN => "nan"
  end%string.

(** [str(t)] for a tuple of ints, as numpy prints a shape. *)
Fixpoint join_comma (l : list string) : string :=
  match l with
  | [] => ""
  | [x] => x
  | x :: l' => x ++ ", " ++ join_comma l'
  end%string.

Definition str_tuple (t : list nat) : string :=
  match t with
  | [n] => "(" ++ format_d (Z.of_nat n) ++ ",)"
  | _ => "(" ++ join_comma (map (fun n => format_d (Z.of_nat n)) t) ++ ")"
  end%string.

End Py.

Import Py.

Notation "x <- e ;; k" := (Py.bind e (fun x => k))
  (at level 61, e at next level, right associativity).

(** ** The part of [torch] the script uses *)

Module Torch.

Definition tensor2 (A : Type) := list (list A).
Definition tensor3 (A : Type) := list (list (list A)).

Section Generic.
Context {A : Type}.

(** [torch.zeros(d0, d1, d2)], [zero] being the entry [0.]. *)
Definition zeros (zero : A) (d0 d1 d2 : nat) : tensor3 A :=
  repeat (repeat (repeat zero d2) d1) d0.

(** A 3-D tensor has exactly the extents [d0, d1, d2]. *)
Definition has_shape3 (t : tensor3 A) (d0 d1 d2 : nat) : Prop :=
  length t = d0 /\
  Forall (fun m => length m = d1 /\ Forall (fun r => length r = d2) m) t.

Definition has_shape2 (t : tensor2 A) (d0 d1 : nat) : Prop :=
  length t = d0 /\ Forall (fun r => length r = d1) t.

(** [t.permute(1, 0, 2)]: exchange the two outer axes.  A nested list
    does not record the inner sizes of an empty tensor: of a minibatch
    of no example the result here is the empty tensor, where the
    library keeps the number of time steps.  The loop only permutes
    slices of [batch_size] = 35 examples below [num_batches * 35], never
    an empty one, and the statements about the permuted tensor are
    about a non-empty minibatch. *)
Definition permute_1_0_2 {B} (t : list (list B)) : list (list B) :=
  match t with
  | [] => []
  | first :: _ =>
      map (fun k =>
             flat_map (fun e => match nth_error e k with
                                | Some r => [r]
                                | None => []
                                end) t)
          (seq 0 (length first))
  end.

Variable ltb : A -> A -> bool.

(** Scan of one row for its maximum: the first maximal entry wins. *)
Fixpoint max_from (best : A) (besti i : nat) (l : list A) : A * nat :=
  match l with
  | [] => (best, besti)
  | x :: l' =>
      if ltb best x then max_from x i (S i) l'
      else max_from best besti (S i) l'
  end.

Definition max_row (row : list A) : result (A * Z) :=
  match row with
  | [] => Raise IndexError
  | x :: l => let '(v, i) := max_from x 0 1 l in Ok (v, Z.of_nat i)
  end.

Fixpoint mapM {B C} (f : B -> result C) (l : list B) : result (list C) :=
  match l with
  | [] => Ok []
  | x :: l' => y <- f x ;; ys <- mapM f l' ;; Ok (y :: ys)
  end.

(** [torch.max(t, 1)]: the pair (values, indices) over axis 1. *)
Definition max_dim1 (t : tensor2 A) : result (list A * list Z) :=
  rows <- mapM max_row t ;;
  Ok (map fst rows, map snd rows).

(** [t.view(size)] for a 1-D tensor [t] and a 1-D size. *)
Definition view {B} (t : list B) (size : nat) : result (list B) :=
  if length t =? size then Ok t else Raise RuntimeError.

End Generic.

(** [(a == b).sum()] for two int64 tensors of one shape. *)
Definition eq_sum (a b : list Z) : Z :=
  fold_left Z.add
    (map (fun p => if (fst p =? snd p)%Z then 1 else 0)%Z (combine a b)) 0%Z.

(** Arithmetic of a 0-dim [FloatTensor] with a scalar: the scalar is
    converted to binary32 and the result is rounded to binary32; a tensor
    division never raises, a zero divisor gives [nan] or an infinity. *)
Definition of_int (n : Z) : pyfloat := round binary32 (inject_Z n).
Definition mul (a b : pyfloat) : pyfloat := ieee_mul binary32 a b.
Definition div (a b : pyfloat) : pyfloat := ieee_div binary32 a b.

(** What the script takes from the library as given: the float32 entries
    and their order, the two layers with their parameters (weights and
    accumulated gradients) and their sizes, the loss, automatic
    differentiation and the Adam optimiser.  A call of a layer or of the
    loss may raise. *)
Class Backend : Type := {
  scalar : Type;
  zero : scalar;
  ltb : scalar -> scalar -> bool;
  lstm_module : Type;
  linear_module : Type;
  adam : Type;
  (** [nn.LSTM(input_dim, hidden_dim, num_layers)] and its attributes
      [input_size], [hidden_size] *)
  nn_LSTM : nat -> nat -> nat -> lstm_module;
  lstm_input_size : lstm_module -> nat;
  lstm_hidden_size : lstm_module -> nat;
  (** [nn.Linear(hidden_dim, output_dim)] and its attributes
      [in_features], [out_features] *)
  nn_Linear : nat -> nat -> linear_module;
  linear_in_features : linear_module -> nat;
  linear_out_features : linear_module -> nat;
  (** [lstm(input, hx)]: the outputs of the last layer at every time step
      and the final (hidden, cell) state; [hx = None] is the call with no
      initial state, which starts from zeros. *)
  lstm_call : lstm_module -> option (tensor3 scalar * tensor3 scalar) ->
              tensor3 scalar ->
              result (tensor3 scalar * (tensor3 scalar * tensor3 scalar));
  linear_call : linear_module -> tensor2 scalar -> result (tensor2 scalar);
  (** [nn.NLLLoss()(y_pred, target)], read with [.item()] *)
  nll_loss : tensor2 scalar -> list Z -> result pyfloat;
  (** [model.zero_grad()], [loss.backward()] for the loss of a minibatch,
      and [optimizer.step()], on the registered parameters *)
  zero_grad : lstm_module * linear_module -> lstm_module * linear_module;
  backward : lstm_module * linear_module -> tensor3 scalar -> list Z ->
             lstm_module * linear_module;
  Adam : lstm_module * linear_module -> Q -> adam;
  step : adam -> lstm_module * linear_module ->
         adam * (lstm_module * linear_module);
  (** [F.log_softmax(t, dim=1)] *)
  log_softmax : tensor2 scalar -> tensor2 scalar
}.

End Torch.

Import Torch.

(** ** The class [LSTM] *)

Module LSTM.
Section Class.
Context {T : Backend}.

(** The attributes of an instance.  [hidden] is no registered parameter:
    it does not exist until the training loop assigns it. *)
Record t : Type := {
  input_dim : nat;
  hidden_dim : nat;
  batch_size : nat;
  num_layers : nat;
  lstm : lstm_module;
  linear : linear_module;
  hidden : option (tensor3 scalar * tensor3 scalar)
}.

Definition __init__ (input_dim hidden_dim batch_size output_dim num_layers : nat)
  : t :=
  {| input_dim := input_dim;
     hidden_dim := hidden_dim;
     batch_size := batch_size;
     num_layers := num_layers;
     lstm := nn_LSTM input_dim hidden_dim num_layers;
     linear := nn_Linear hidden_dim output_dim;
     hidden := None |}.

(** [model.hidden = h] *)
Definition set_hidden (self : t) (h : tensor3 scalar * tensor3 scalar) : t :=
  {| input_dim := input_dim self;
     hidden_dim := hidden_dim self;
     batch_size := batch_size self;
     num_layers := num_layers self;
     lstm := lstm self;
     linear := linear self;
     hidden := Some h |}.

(** [model.parameters()], and the model after an in-place update of them. *)
Definition parameters (self : t) : lstm_module * linear_module :=
  (lstm self, linear self).

Definition with_parameters (self : t) (p : lstm_module * linear_module) : t :=
  {| input_dim := input_dim self;
     hidden_dim := hidden_dim self;
     batch_size := batch_size self;
     num_layers := num_layers self;
     lstm := fst p;
     linear := snd p;
     hidden := hidden self |}.

(** [init_hidden], in state-passing style: the value returned and the
    object after the call. *)
Definition init_hidden (self : t)
  : (tensor3 scalar * tensor3 scalar) * t :=
  ((zeros zero (num_layers self) (batch_size self) (hidden_dim self),
    zeros zero (num_layers self) (batch_size self) (hidden_dim self)),
   self).

Definition forward (self : t) (input : tensor3 scalar)
  : result (tensor2 scalar) :=
  out <- lstm_call (lstm self) None input ;;
  let '(lstm_out, hidden) := out in
  input_to_linear <- last_item lstm_out ;;
  y_pred <- linear_call (linear self) input_to_linear ;;
  let genre_scores := log_softmax y_pred in
  Ok genre_scores.

Definition get_accuracy (self : t) (logits : tensor2 scalar) (target : list Z)
  : result pyfloat :=
  m <- max_dim1 ltb logits ;;
  pred <- view (snd m) (length target) ;;
  let corrects := eq_sum pred target in
  let accuracy :=
    div (mul (Fin 100%Q) (of_int corrects))
        (of_int (Z.of_nat (batch_size self))) in
  Ok accuracy.

End Class.
End LSTM.

(** ** Observable behaviour *)

Inductive event : Type :=
| Print (line : string)
| Call_load_deserialize_data
| Call_load_preprocess_data
| Slice (lo hi : nat)          (* ghost: [train_X[lo:hi]], [train_Y[lo:hi]] taken *)
| Step (loss acc : pyfloat).   (* ghost: the two values added to the accumulators *)

(** A script fragment: the events it logs, in order, and how it ends.  The
    events logged before an exception stay logged. *)
Definition W (A : Type) : Type := list event * result A.

Module W.
Definition ret {A} (a : A) : W A := ([], Ok a).
Definition emit (e : event) : W unit := ([e], Ok tt).
Definition lift {A} (r : result A) : W A := ([], r).
Definition bind {A B} (m : W A) (k : A -> W B) : W B :=
  match m with
  | (log, Ok a) => let '(log', r) := k a in (log ++ log', r)
  | (log, Raise e) => (log, Raise e)
  end.

(** [for x in l: s = body(x, s)] *)
Fixpoint for_each {A S} (body : A -> S -> W S) (l : list A) (s : S) : W S :=
  match l with
  | [] => ret s
  | x :: l' => bind (body x s) (for_each body l')
  end.
End W.

Declare Scope script_scope.
Delimit Scope script_scope with script.
Notation "x <~ e ;; k" := (W.bind e (fun x => k))
  (at level 61, e at next level, right associativity) : script_scope.
Notation "e ;;; k" := (W.bind e (fun _ => k))
  (at level 61, right associativity) : script_scope.

(** The lines printed, and the minibatch slices taken, in a log. *)
Definition printed (log : list event) : list string :=
  flat_map (fun e => match e with Print s => [s] | _ => [] end) log.

Definition slices (log : list event) : list (nat * nat) :=
  flat_map (fun e => match e with Slice lo hi => [(lo, hi)] | _ => [] end) log.

(** ** The environment of the script *)

(** A numpy array: its items along axis 0 and the extents of one item. *)
Record ndarray (A : Type) : Type := {
  items : list A;
  item_shape : list nat
}.

Definition shape {A} (a : ndarray A) : list nat :=
  length (items a) :: item_shape a.

(** The file system and the feature loader [GenreFeatureData], which is no
    part of this script: its two loading methods are taken as they come. *)
Module Env.

Class Environment {T : Backend} : Type := {
world : Type;
(** [os.path.isfile] *)
isfile : world -> string -> bool;
GenreFeatureData : Type;
(** [GenreFeatureData()] *)
GenreFeatureData_new : GenreFeatureData;
train_X_preprocessed_data : GenreFeatureData -> string;
train_Y_preprocessed_data : GenreFeatureData -> string;
dev_X_preprocessed_data : GenreFeatureData -> string;
dev_Y_preprocessed_data : GenreFeatureData -> string;
test_X_preprocessed_data : GenreFeatureData -> string;
test_Y_preprocessed_data : GenreFeatureData -> string;
load_deserialize_data :
  GenreFeatureData -> world -> result (GenreFeatureData * world);
load_preprocess_data :
  GenreFeatureData -> world -> result (GenreFeatureData * world);
train_X : GenreFeatureData -> ndarray (tensor2 scalar);
train_Y : GenreFeatureData -> ndarray (list Z);
test_X : GenreFeatureData -> ndarray (tensor2 scalar);
test_Y : GenreFeatureData -> ndarray (list Z)
}.

End Env.

(** ** The script *)

Definition batch_size : nat := 35.
Definition num_epochs : nat := 400.

Section Script.
Context {T : Backend} {E : Env.Environment}.
Open Scope script_scope.

(** [torch.from_numpy(a).type(...)]: the same entries as a tensor. *)
Definition from_numpy {A} (a : ndarray A) : list A := items a.

(** Lines 27-42: the cache check and the loading of the data.  The tests
    of [os.path.isfile] have no effect, so the short-circuit [and] is the
    conjunction of the six. *)
Definition load_data (w : Env.world) : W (Env.GenreFeatureData * Env.world) :=
  let genre_features := Env.GenreFeatureData_new in
  if Env.isfile w (Env.train_X_preprocessed_data genre_features)
     && Env.isfile w (Env.train_Y_preprocessed_data genre_features)
     && Env.isfile w (Env.dev_X_preprocessed_data genre_features)
     && Env.isfile w (Env.dev_Y_preprocessed_data genre_features)
     && Env.isfile w (Env.test_X_preprocessed_data genre_features)
     && Env.isfile w (Env.test_Y_preprocessed_data genre_features)
  then
    W.emit (Print "Preprocessed files exist, deserializing npy files") ;;;
    W.emit Call_load_deserialize_data ;;;
    W.lift (Env.load_deserialize_data genre_features w)
  else
    W.emit (Print "Preprocessing raw audio files") ;;;
    W.emit Call_load_preprocess_data ;;;
    W.lift (Env.load_preprocess_data genre_features w).

(** Line 113. *)
Definition num_batches (train_X : list (tensor2 scalar)) : result Z :=
  q <- int_truediv (Z.of_nat (length train_X)) (Z.of_nat batch_size) ;;
  int_of_float q.

(** What the loop carries from one minibatch to the next. *)
Record train_state : Type := {
  model : LSTM.t;
  optimizer : adam;
  train_running_loss : pyfloat;
  train_acc : pyfloat
}.

Section Loop.
Variable train_X : list (tensor2 scalar).
Variable train_Y : list (list Z).
Variable num_batches : Z.

(** Lines 121-148: the body of the inner loop. *)
Definition train_batch (i : nat) (st : train_state) : W train_state :=
  let model :=
    LSTM.with_parameters (model st)
      (zero_grad (LSTM.parameters (model st))) in
  let X_local_minibatch :=
    slice train_X (i * batch_size) ((i + 1) * batch_size) in
  let y_local_minibatch :=
    slice train_Y (i * batch_size) ((i + 1) * batch_size) in
  W.emit (Slice (i * batch_size) ((i + 1) * batch_size)) ;;;
  let X_local_minibatch := permute_1_0_2 X_local_minibatch in
  m <~ W.lift (max_dim1 Z.ltb y_local_minibatch) ;;
  let y_local_minibatch := snd m in
  y_pred <~ W.lift (LSTM.forward model X_local_minibatch) ;;
  loss <~ W.lift (nll_loss y_pred y_local_minibatch) ;;
  let model :=
    LSTM.with_parameters model
      (backward (LSTM.parameters model) X_local_minibatch y_local_minibatch) in
  let stepped := step (optimizer st) (LSTM.parameters model) in
  let model := LSTM.with_parameters model (snd stepped) in
  let train_running_loss := float_add (train_running_loss st) loss in
  acc <~ W.lift (LSTM.get_accuracy model y_pred y_local_minibatch) ;;
  let train_acc := float_add (train_acc st) acc in
  W.emit (Step loss acc) ;;;
  W.ret {| model := model;
           optimizer := fst stepped;
           train_running_loss := train_running_loss;
           train_acc := train_acc |}.

(** Lines 150-153. *)
Definition epoch_line (epoch : nat) (loss acc : pyfloat) : string :=
  ("Epoch:  " ++ format_d (Z.of_nat epoch)
    ++ " | NLLoss: " ++ format_f 4 loss
    ++ " | Train Accuracy: " ++ format_f 2 acc)%string.

(** Lines 115-153: the body of the outer loop; [line_120] is the
    statement at line 120. *)
Definition train_epoch_with (line_120 : LSTM.t -> LSTM.t)
    (epoch : nat) (s : LSTM.t * adam) : W (LSTM.t * adam) :=
  let st := {| model := line_120 (fst s);
               optimizer := snd s;
               train_running_loss := Fin 0%Q;
               train_acc := Fin 0%Q |} in
  st <~ W.for_each train_batch (range (Z.to_nat num_batches)) st ;;
  loss <~ W.lift (float_div_int (train_running_loss st) num_batches) ;;
  acc <~ W.lift (float_div_int (train_acc st) num_batches) ;;
  W.emit (Print (epoch_line epoch loss acc)) ;;;
  W.ret (model st, optimizer st).

(** [model.hidden = model.init_hidden()] *)
Definition reinit_hidden (model : LSTM.t) : LSTM.t :=
  let '(h, model) := LSTM.init_hidden model in
  LSTM.set_hidden model h.

Definition train_epoch := train_epoch_with reinit_hidden.

Definition training_with (line_120 : LSTM.t -> LSTM.t)
    (s : LSTM.t * adam) : W (LSTM.t * adam) :=
  W.for_each (train_epoch_with line_120) (range num_epochs) s.

Definition training := training_with reinit_hidden.

End Loop.

(** Lines 44-153: the script once the data are loaded. *)
Definition train_script_with (line_120 : LSTM.t -> LSTM.t)
    (genre_features : Env.GenreFeatureData) : W (LSTM.t * adam) :=
  let train_X := from_numpy (Env.train_X genre_features) in
  let test_X := from_numpy (Env.test_X genre_features) in
  let train_Y := from_numpy (Env.train_Y genre_features) in
  let test_Y := from_numpy (Env.test_Y genre_features) in
  W.emit (Print ("Training X shape: " ++ str_tuple (shape (Env.train_X genre_features)))) ;;;
  W.emit (Print ("Training Y shape: " ++ str_tuple (shape (Env.train_Y genre_features)))) ;;;
  W.emit (Print ("Test X shape: " ++ str_tuple (shape (Env.test_X genre_features)))) ;;;
  W.emit (Print ("Test Y shape: " ++ str_tuple (shape (Env.test_Y genre_features)))) ;;;
  W.emit (Print "Build LSTM RNN model ...") ;;;
  let model := LSTM.__init__ 33 128 batch_size 8 2 in
  let optimizer := Adam (LSTM.parameters model) (1 # 1000)%Q in
  W.emit (Print "Training ...") ;;;
  num_batches <~ W.lift (num_batches train_X) ;;
  training_with train_X train_Y num_batches line_120 (model, optimizer).

Definition train_script := train_script_with reinit_hidden.

(** The whole script. *)
Definition main_with (line_120 : LSTM.t -> LSTM.t) (w : Env.world)
  : W unit :=
  loaded <~ load_data w ;;
  train_script_with line_120 (fst loaded) ;;;
  W.ret tt.

Definition main := main_with reinit_hidden.

End Script.


(** ** The behaviour the library documents

    The sizes of a parameter pair, and what [torch] guarantees of the
    kernels: the constructors set the sizes and training never changes
    them; [nn.LSTM] accepts a sequence of at least one time step whose rows
    have [input_size] features, and rejects any other; [nn.Linear] accepts
    rows of [in_features] entries and rejects any other; [NLLLoss] accepts
    one class index per row of scores, each below the number of scores of
    its row, and rejects a missing or too large index; [log_softmax] keeps
    the shape of its argument. *)

Definition sizes `{T : Backend} (p : lstm_module * linear_module)
  : nat * nat * nat * nat :=
  (lstm_input_size (fst p), lstm_hidden_size (fst p),
   linear_in_features (snd p), linear_out_features (snd p)).

Class Library (T : Backend) : Prop := {
  nn_LSTM_sizes : forall input_dim hidden_dim num_layers,
    lstm_input_size (nn_LSTM input_dim hidden_dim num_layers) = input_dim /\
    lstm_hidden_size (nn_LSTM input_dim hidden_dim num_layers) = hidden_dim;
  nn_Linear_sizes : forall hidden_dim output_dim,
    linear_in_features (nn_Linear hidden_dim output_dim) = hidden_dim /\
    linear_out_features (nn_Linear hidden_dim output_dim) = output_dim;
  zero_grad_sizes : forall p, sizes (zero_grad p) = sizes p;
  backward_sizes : forall p x y, sizes (backward p x y) = sizes p;
  step_sizes : forall o p, sizes (snd (step o p)) = sizes p;
  lstm_call_accepts : forall m x b,
    x <> [] -> 0 < b ->
    Forall (fun time_step =>
              length time_step = b /\
              Forall (fun row => length row = lstm_input_size m) time_step) x ->
    exists out h,
      lstm_call m None x = Ok (out, h) /\
      has_shape3 out (length x) b (lstm_hidden_size m);
  lstm_call_empty : forall m hx, lstm_call m hx [] = Raise RuntimeError;
  lstm_call_rejects : forall m hx x r,
    lstm_call m hx x = Ok r ->
    Forall (Forall (fun row => length row = lstm_input_size m)) x;
  linear_call_accepts : forall m x,
    Forall (fun row => length row = linear_in_features m) x ->
    exists y,
      linear_call m x = Ok y /\
      has_shape2 y (length x) (linear_out_features m);
  linear_call_rejects : forall m x y,
    linear_call m x = Ok y ->
    Forall (fun row => length row = linear_in_features m) x;
  log_softmax_shape : forall x,
    map (@length _) (log_softmax x) = map (@length _) x;
  nll_loss_accepts : forall y_pred target,
    Forall2 (fun row c => (0 <= c < Z.of_nat (length row))%Z) y_pred target ->
    exists loss, nll_loss y_pred target = Ok loss;
  nll_loss_rejects : forall y_pred target loss,
    nll_loss y_pred target = Ok loss ->
    Forall2 (fun row c => (c < Z.of_nat (length row))%Z) y_pred target
}.

(** The order of the entries has no incomparable pair of different rank:
    it is that of floats none of which is [nan]. *)
Class ScalarOrder (T : Backend) : Prop := {
  ltb_irrefl : forall a, ltb a a = false;
  ltb_trans : forall a b c, ltb a b = true -> ltb b c = true -> ltb a c = true;
  ltb_cotrans : forall a b c,
    ltb a c = true -> ltb a b = true \/ ltb b c = true
}.

(** ** A small executable instance

    Rational entries, one weight per layer.  The layers check the sizes of
    what they are given as the library does.  It stands in for the library
    where a statement is evaluated on concrete data. *)

Module Toy.

Definition qsum (l : list Q) : Q := fold_right Qplus 0%Q l.

Record lstm_layer : Type := {
  input_size : nat;
  hidden_size : nat;
  weight : Q
}.

Record linear_layer : Type := {
  in_features : nat;
  out_features : nat;
  bias : Q
}.

Definition rows_of (n : nat) (x : tensor2 Q) : bool :=
  forallb (fun row => length row =? n) x.

Definition lstm_call (m : lstm_layer) (hx : option (tensor3 Q * tensor3 Q))
    (x : tensor3 Q) : result (tensor3 Q * (tensor3 Q * tensor3 Q)) :=
  match x with
  | [] => Raise RuntimeError
  | _ :: _ =>
      if forallb (rows_of (input_size m)) x
      then Ok (map (map (fun row => repeat (Qred (weight m * qsum row))
                                           (hidden_size m))) x,
               ([], []))
      else Raise RuntimeError
  end.

(** Score 1 for one class, chosen from the first entry of the row and the
    bias, and 0 for the others. *)
Definition linear_call (m : linear_layer) (x : tensor2 Q)
  : result (tensor2 Q) :=
  if rows_of (in_features m) x
  then Ok (map (fun row =>
                  map (fun j =>
                         if (Z.of_nat j
                             =? Qfloor (hd 0%Q row + bias m)
                                mod Z.of_nat (out_features m))%Z
                         then 1%Q else 0%Q)
                      (seq 0 (out_features m))) x)
  else Raise RuntimeError.

Definition valid_target (p : list Q * Z) : bool :=
  ((0 <=? snd p) && (snd p <? Z.of_nat (length (fst p))))%Z.

(** The share of the rows whose score at the target is not 1. *)
Definition nll_loss (y_pred : tensor2 Q) (target : list Z)
  : result pyfloat :=
  if (length y_pred =? length target) && forallb valid_target (combine y_pred target)
  then Ok (match target with
           | [] => NaN
           | _ :: _ =>
               round binary32
                 (qsum (map (fun p => 1 - nth (Z.to_nat (snd p)) (fst p) 0)%Q
                            (combine y_pred target))
                  / inject_Z (Z.of_nat (length target)))%Q
           end)
  else Raise IndexError.

#[export] Instance backend : Backend := {|
  scalar := Q;
  zero := 0%Q;
  ltb := fun x y => negb (Qle_bool y x);
  lstm_module := lstm_layer;
  linear_module := linear_layer;
  adam := nat;
  nn_LSTM := fun input_dim hidden_dim _ =>
    {| input_size := input_dim; hidden_size := hidden_dim; weight := 1%Q |};
  lstm_input_size := input_size;
  lstm_hidden_size := hidden_size;
  nn_Linear := fun hidden_dim output_dim =>
    {| in_features := hidden_dim; out_features := output_dim; bias := 0%Q |};
  linear_in_features := in_features;
  linear_out_features := out_features;
  Torch.lstm_call := lstm_call;
  Torch.linear_call := linear_call;
  Torch.nll_loss := nll_loss;
  zero_grad := fun p => p;
  backward := fun p _ _ => p;
  Adam := fun _ _ => O;
  step := fun n p =>
    (S n,
     ({| input_size := input_size (fst p);
         hidden_size := hidden_size (fst p);
         weight := Qred (1 - weight (fst p)) |},
      {| in_features := in_features (snd p);
         out_features := out_features (snd p);
         bias := Qred (bias (snd p) + 1) |}));
  log_softmax := fun t => t
|}.

(** The data a loader yields. *)
Record features : Type := {
  train_X : ndarray (tensor2 Q);
  train_Y : ndarray (list Z);
  test_X : ndarray (tensor2 Q);
  test_Y : ndarray (list Z)
}.

Definition cache_files : list string :=
  ["train_X.npy"; "train_Y.npy"; "dev_X.npy"; "dev_Y.npy";
   "test_X.npy"; "test_Y.npy"]%string.

(** A world is the list of the files that exist; both loaders yield
    [data], and preprocessing writes the six cache files. *)
Definition environment (data : features) : Env.Environment := {|
  Env.world := list string;
  Env.isfile := fun w p => existsb (String.eqb p) w;
  Env.GenreFeatureData := features;
  Env.GenreFeatureData_new :=
    {| train_X := {| items := []; item_shape := [] |};
       train_Y := {| items := []; item_shape := [] |};
       test_X := {| items := []; item_shape := [] |};
       test_Y := {| items := []; item_shape := [] |} |};
  Env.train_X_preprocessed_data := fun _ => "train_X.npy"%string;
  Env.train_Y_preprocessed_data := fun _ => "train_Y.npy"%string;
  Env.dev_X_preprocessed_data := fun _ => "dev_X.npy"%string;
  Env.dev_Y_preprocessed_data := fun _ => "dev_Y.npy"%string;
  Env.test_X_preprocessed_data := fun _ => "test_X.npy"%string;
  Env.test_Y_preprocessed_data := fun _ => "test_Y.npy"%string;
  Env.load_deserialize_data := fun _ w => Ok (data, w);
  Env.load_preprocess_data := fun _ w => Ok (data, (cache_files ++ w)%list);
  Env.train_X := train_X;
  Env.train_Y := train_Y;
  Env.test_X := test_X;
  Env.test_Y := test_Y
|}.

(** [n] examples of two time steps and 33 features, the first feature of
    time step [t] of example [i] being [i + t] and the others 0; example
    [i] has the label [i mod 8], one-hot over eight classes. *)
Definition examples (n : nat) : list (tensor2 Q) :=
  map (fun i =>
         map (fun t => inject_Z (Z.of_nat (i + t)) :: repeat 0%Q 32) (seq 0 2))
      (seq 0 n).

Definition labels (n : nat) : list (list Z) :=
  map (fun i => map (fun j => if j =? i mod 8 then 1%Z else 0%Z) (seq 0 8))
      (seq 0 n).

Definition dataset (n_train n_test : nat) : features :=
  {| train_X := {| items := examples n_train; item_shape := [2; 33] |};
     train_Y := {| items := labels n_train; item_shape := [8] |};
     test_X := {| items := examples n_test; item_shape := [2; 33] |};
     test_Y := {| items := labels n_test; item_shape := [8] |} |}.

(** The model and the optimiser as the script builds them. *)
Definition initial : LSTM.t * adam :=
  let model := LSTM.__init__ 33 128 batch_size 8 2 in
  (model, Adam (LSTM.parameters model) (1 # 1000)%Q).

End Toy.

(** ** Real-valued entries

    The layers the script applies after the recurrent one, over the real
    numbers: the affine map of [nn.Linear] and [F.log_softmax] as the
    library computes it, shifted by the row maximum.  The recurrent layer,
    the loss and the optimiser stay arbitrary. *)

Module RealModel.

Record kernels : Type := {
  lstm_module : Type;
  adam : Type;
  nn_LSTM : nat -> nat -> nat -> lstm_module;
  lstm_input_size : lstm_module -> nat;
  lstm_hidden_size : lstm_module -> nat;
  nn_Linear : nat -> nat -> list (list R) * list R;
  lstm_call : lstm_module -> option (tensor3 R * tensor3 R) ->
              tensor3 R -> result (tensor3 R * (tensor3 R * tensor3 R));
  nll_loss : tensor2 R -> list Z -> result pyfloat;
  zero_grad : lstm_module * (list (list R) * list R) ->
              lstm_module * (list (list R) * list R);
  backward : lstm_module * (list (list R) * list R) -> tensor3 R -> list Z ->
             lstm_module * (list (list R) * list R);
  Adam : lstm_module * (list (list R) * list R) -> Q -> adam;
  step : adam -> lstm_module * (list (list R) * list R) ->
         adam * (lstm_module * (list (list R) * list R))
}.

Definition rsum (l : list R) : R := fold_right Rplus 0%R l.

Definition dot (w x : list R) : R :=
  rsum (map (fun p => (fst p * snd p)%R) (combine w x)).

(** The weight of a linear layer is [out_features] rows of [in_features]
    entries. *)
Definition in_features (m : list (list R) * list R) : nat :=
  match fst m with
  | [] => 0
  | w :: _ => length w
  end.

Definition out_features (m : list (list R) * list R) : nat :=
  length (fst m).

(** [x @ weight.T + bias]; rows of another size than [in_features] are
    rejected. *)
Definition linear_call (m : list (list R) * list R) (x : tensor2 R)
  : result (tensor2 R) :=
  if forallb (fun row => length row =? in_features m) x
  then Ok (map (fun row => map (fun wb => (dot (fst wb) row + snd wb)%R)
                               (combine (fst m) (snd m))) x)
  else Raise RuntimeError.

Definition log_softmax_row (row : list R) : list R :=
  match row with
  | [] => []
  | x :: l =>
      let m := fold_left Rmax l x in
      let s := rsum (map (fun v => exp (v - m)) row) in
      map (fun v => (v - m - ln s)%R) row
  end.

Definition log_softmax (t : tensor2 R) : tensor2 R :=
  map log_softmax_row t.

Definition backend (K : kernels) : Backend := {|
  scalar := R;
  zero := 0%R;
  ltb := fun x y => if Rlt_dec x y then true else false;
  Torch.lstm_module := lstm_module K;
  linear_module := (list (list R) * list R)%type;
  Torch.adam := adam K;
  Torch.nn_LSTM := nn_LSTM K;
  Torch.lstm_input_size := lstm_input_size K;
  Torch.lstm_hidden_size := lstm_hidden_size K;
  Torch.nn_Linear := nn_Linear K;
  linear_in_features := in_features;
  linear_out_features := out_features;
  Torch.lstm_call := lstm_call K;
  Torch.linear_call := linear_call;
  Torch.nll_loss := nll_loss K;
  Torch.zero_grad := zero_grad K;
  Torch.backward := backward K;
  Torch.Adam := Adam K;
  Torch.step := step K;
  Torch.log_softmax := log_softmax
|}.

(** A recurrent layer for concrete instances: it rejects an empty
    sequence and yields, for every row, [hidden_size] copies of the sum
    of the row. *)
Definition summing : kernels := {|
  lstm_module := (nat * nat)%type;
  adam := unit;
  nn_LSTM := fun input_dim hidden_dim _ => (input_dim, hidden_dim);
  lstm_input_size := fst;
  lstm_hidden_size := snd;
  nn_Linear := fun _ _ => ([], []);
  lstm_call := fun m _ x =>
    match x with
    | [] => Raise RuntimeError
    | _ :: _ =>
        if forallb (forallb (fun row => length row =? fst m)) x
        then Ok (map (map (fun row => repeat (rsum row) (snd m))) x, ([], []))
        else Raise RuntimeError
    end;
  nll_loss := fun _ _ => Ok (Fin 0%Q);
  zero_grad := fun p => p;
  backward := fun p _ _ => p;
  Adam := fun _ _ => tt;
  step := fun o p => (o, p)
|}.

End RealModel.

(** ** Notions the statements use *)

(** The six cache files the start-up looks for, and the events that are
    calls of a loading method. *)
Definition cache_paths `{E : Env.Environment}
    (genre_features : Env.GenreFeatureData) : list string :=
  [Env.train_X_preprocessed_data genre_features;
   Env.train_Y_preprocessed_data genre_features;
   Env.dev_X_preprocessed_data genre_features;
   Env.dev_Y_preprocessed_data genre_features;
   Env.test_X_preprocessed_data genre_features;
   Env.test_Y_preprocessed_data genre_features].

Definition is_loader_call (e : event) : bool :=
  match e with
  | Call_load_deserialize_data | Call_load_preprocess_data => true
  | _ => false
  end.

(** Two models that agree on everything but the attribute [hidden]; two
    loop states, and two script fragments, that agree up to it. *)
Definition agree `{T : Backend} (m1 m2 : LSTM.t) : Prop :=
  LSTM.input_dim m1 = LSTM.input_dim m2 /\
  LSTM.hidden_dim m1 = LSTM.hidden_dim m2 /\
  LSTM.batch_size m1 = LSTM.batch_size m2 /\
  LSTM.num_layers m1 = LSTM.num_layers m2 /\
  LSTM.lstm m1 = LSTM.lstm m2 /\
  LSTM.linear m1 = LSTM.linear m2.

Definition agree_state `{T : Backend} (s1 s2 : train_state) : Prop :=
  agree (model s1) (model s2) /\
  optimizer s1 = optimizer s2 /\
  train_running_loss s1 = train_running_loss s2 /\
  train_acc s1 = train_acc s2.

Definition agree_pair `{T : Backend} (s1 s2 : LSTM.t * adam) : Prop :=
  agree (fst s1) (fst s2) /\ snd s1 = snd s2.

Definition same_run {A} (R : A -> A -> Prop) (m1 m2 : W A) : Prop :=
  fst m1 = fst m2 /\
  match snd m1, snd m2 with
  | Ok a, Ok b => R a b
  | Raise e1, Raise e2 => e1 = e2
  | _, _ => False
  end.

(** [p] is an initial segment of [l]. *)
Definition is_prefix {A} (p l : list A) : Prop := exists rest, l = p ++ rest.

(** The minibatches one epoch is to take, and those of the whole run. *)
Definition epoch_schedule (num_batches : nat) : list (nat * nat) :=
  map (fun i => (i * batch_size, (i + 1) * batch_size)) (range num_batches).

Definition run_schedule (num_batches : nat) : list (nat * nat) :=
  flat_map (fun _ => epoch_schedule num_batches) (range num_epochs).

(** The number of rows whose predicted class, the arg-max of the row of
    [logits], is the class [target] gives for that row. *)
Definition count_correct `{T : Backend}
    (logits : tensor2 scalar) (target : list Z) : nat :=
  length
    (filter (fun p => match max_row ltb (fst p) with
                      | Ok m => (snd m =? snd p)%Z
                      | Raise _ => false
                      end)
            (combine logits target)).

(** The arg-max of a row, said without the scan that computes it: the
    entry at [k] is exceeded by no entry of the row, and every entry before
    [k] is strictly below it. *)
Definition is_first_max `{T : Backend} (row : list scalar) (k : nat) : Prop :=
  exists v,
    nth_error row k = Some v /\
    (forall j x, nth_error row j = Some x -> ltb v x = false) /\
    (forall j x, j < k -> nth_error row j = Some x -> ltb x v = true).

(** The number of positions where the predicted class is the target. *)
Definition matches (classes : list nat) (target : list Z) : nat :=
  length (filter (fun p => (Z.of_nat (fst p) =? snd p)%Z)
                 (combine classes target)).

(** [row] is one-hot at [k]: a 1 at index [k], 0 everywhere else. *)
Definition is_one_hot (row : list Z) (k : nat) : Prop :=
  nth_error row k = Some 1%Z /\
  forall j, j <> k -> j < length row -> nth_error row j = Some 0%Z.

(** A running sum as the loop builds it: from [0.0], one [+=] per item. *)
Definition accumulate (l : list pyfloat) : pyfloat :=
  fold_left float_add l (Fin 0%Q).

(** The per-epoch line as the specification words it, with a single space
    after each colon. *)
Definition spec_epoch_line (epoch : nat) (loss acc : pyfloat) : string :=
  ("Epoch: " ++ format_d (Z.of_nat epoch)
    ++ " | NLLoss: " ++ format_f 4 loss
    ++ " | Train Accuracy: " ++ format_f 2 acc)%string.

(** ** The training loop as the specification describes it

    What section 4.3 of the specification says, written as functions of the
    list of minibatches an epoch is given, without indices, slices or a log:
    the code is compared with it. *)

Section Reference.
Context {T : Backend}.

Definition minibatch : Type := (list (tensor2 scalar) * list (list Z))%type.

(** Steps 1 to 9 for one minibatch: the model and optimiser after it, its
    loss and its accuracy. *)
Definition minibatch_step (mb : minibatch) (s : LSTM.t * adam)
  : result ((LSTM.t * adam) * (pyfloat * pyfloat)) :=
  let cleared :=
    LSTM.with_parameters (fst s) (zero_grad (LSTM.parameters (fst s))) in
  let input := permute_1_0_2 (fst mb) in
  labels <- max_dim1 Z.ltb (snd mb) ;;
  y_pred <- LSTM.forward cleared input ;;
  loss <- nll_loss y_pred (snd labels) ;;
  let differentiated :=
    LSTM.with_parameters cleared
      (backward (LSTM.parameters cleared) input (snd labels)) in
  let stepped := step (snd s) (LSTM.parameters differentiated) in
  let updated := LSTM.with_parameters differentiated (snd stepped) in
  acc <- LSTM.get_accuracy updated y_pred (snd labels) ;;
  Ok ((updated, fst stepped), (loss, acc)).

(** The minibatches of an epoch in order, each starting from the model
    the one before left: the final model and the (loss, accuracy) pairs. *)
Fixpoint minibatch_steps (mbs : list minibatch) (s : LSTM.t * adam)
  : result ((LSTM.t * adam) * list (pyfloat * pyfloat)) :=
  match mbs with
  | [] => Ok (s, [])
  | mb :: rest =>
      first <- minibatch_step mb s ;;
      others <- minibatch_steps rest (fst first) ;;
      Ok (fst others, snd first :: snd others)
  end.

(** What an epoch reports of itself. *)
Record epoch_report_data : Type := {
  epoch_steps : list (pyfloat * pyfloat);
  mean_loss : pyfloat;
  mean_accuracy : pyfloat
}.

(** An epoch: the hidden state is reset, the minibatches are processed,
    and the two sums are divided by the number of minibatches. *)
Definition epoch_reference (mbs : list minibatch) (s : LSTM.t * adam)
  : result ((LSTM.t * adam) * epoch_report_data) :=
  done <- minibatch_steps mbs (reinit_hidden (fst s), snd s) ;;
  loss <- float_div_int (accumulate (map fst (snd done)))
                        (Z.of_nat (length mbs)) ;;
  acc <- float_div_int (accumulate (map snd (snd done)))
                       (Z.of_nat (length mbs)) ;;
  Ok (fst done, {| epoch_steps := snd done;
                   mean_loss := loss;
                   mean_accuracy := acc |}).

(** [n] epochs over the same minibatches. *)
Fixpoint epochs_reference (n : nat) (mbs : list minibatch)
    (s : LSTM.t * adam)
  : result ((LSTM.t * adam) * list epoch_report_data) :=
  match n with
  | O => Ok (s, [])
  | S n' =>
      first <- epoch_reference mbs s ;;
      others <- epochs_reference n' mbs (fst first) ;;
      Ok (fst others, snd first :: snd others)
  end.

(** The minibatches of a training set: [num_batches] contiguous blocks of
    [batch_size] examples with their labels, from the first example on. *)
Definition minibatches (train_X : list (tensor2 scalar))
    (train_Y : list (list Z)) (num_batches : nat) : list minibatch :=
  map (fun i => (slice train_X (i * batch_size) ((i + 1) * batch_size),
                 slice train_Y (i * batch_size) ((i + 1) * batch_size)))
      (range num_batches).

End Reference.

(** The log of epoch number [epoch] that reports [r]: per minibatch its
    slice and its step, then a single printed line with the two means. *)
Definition epoch_log `{T : Backend} (epoch : nat) (r : epoch_report_data)
  : list event :=
  flat_map (fun p => [Slice (fst p * batch_size) ((fst p + 1) * batch_size);
                      Step (fst (snd p)) (snd (snd p))])
           (combine (range (length (epoch_steps r))) (epoch_steps r))
  ++ [Print (epoch_line epoch (mean_loss r) (mean_accuracy r))].

(** The log of a run of epochs [0, 1, ...] that report [rs]. *)
Definition run_log `{T : Backend} (rs : list epoch_report_data) : list event :=
  flat_map (fun p => epoch_log (fst p) (snd p))
           (combine (range (length rs)) rs).

(** ** Further notions *)

(** The (loss, accuracy) pairs of the minibatches completed in a log. *)
Definition steps (log : list event) : list (pyfloat * pyfloat) :=
  flat_map (fun e => match e with Step loss acc => [(loss, acc)] | _ => [] end)
           log.

(** The attributes of a model the constructor fixes. *)
Definition config `{T : Backend} (m : LSTM.t) : nat * nat * nat * nat :=
  (LSTM.input_dim m, LSTM.hidden_dim m, LSTM.batch_size m, LSTM.num_layers m).

(** A finite float between 0 and 100. *)
Definition is_percentage (x : pyfloat) : Prop :=
  match x with
  | Fin q => (0 <= q <= 100)%Q
  | _ => False
  end.

(** What the script logs between the loading of the data and the loop:
    lines 52-55, 98 and 110. *)
Definition startup_log `{E : Env.Environment}
    (genre_features : Env.GenreFeatureData) : list event :=
  [Print ("Training X shape: " ++ str_tuple (shape (Env.train_X genre_features)));
   Print ("Training Y shape: " ++ str_tuple (shape (Env.train_Y genre_features)));
   Print ("Test X shape: " ++ str_tuple (shape (Env.test_X genre_features)));
   Print ("Test Y shape: " ++ str_tuple (shape (Env.test_Y genre_features)));
   Print "Build LSTM RNN model ...";
   Print "Training ..."]%string.

(** What the start-up logs before it hands over to a loader. *)
Definition loader_log (cache_complete : bool) : list event :=
  if cache_complete
  then [Print "Preprocessed files exist, deserializing npy files";
        Call_load_deserialize_data]
  else [Print "Preprocessing raw audio files"; Call_load_preprocess_data].

(** The small environment with a cache that cannot be read: deserialising
    raises. *)
Definition corrupt_cache_environment (data : Toy.features)
  : Env.Environment (T := Toy.backend) :=
  @Env.Build_Environment Toy.backend
    (list string)
    (fun w p => existsb (String.eqb p) w)
    Toy.features
    data
    (fun _ => "train_X.npy"%string)
    (fun _ => "train_Y.npy"%string)
    (fun _ => "dev_X.npy"%string)
    (fun _ => "dev_Y.npy"%string)
    (fun _ => "test_X.npy"%string)
    (fun _ => "test_Y.npy"%string)
    (fun _ _ => Raise ValueError)
    (fun _ w => Ok (data, (Toy.cache_files ++ w)%list))
    Toy.train_X
    Toy.train_Y
    Toy.test_X
    Toy.test_Y.

(** The layers of [model] are built for rows of [features] entries and
    for [classes] classes, and fit one another. *)
Definition fits `{T : Backend} (features classes : nat) (model : LSTM.t)
  : Prop :=
  lstm_input_size (LSTM.lstm model) = features /\
  lstm_hidden_size (LSTM.lstm model) = linear_in_features (LSTM.linear model) /\
  linear_out_features (LSTM.linear model) = classes.

(** A minibatch of at least one example, each of [sequence_length] time
    steps of [features] entries, with one label row of [classes] entries
    per example. *)
Definition well_shaped `{T : Backend} (sequence_length features classes : nat)
    (mb : minibatch) : Prop :=
  fst mb <> [] /\
  length (snd mb) = length (fst mb) /\
  Forall (fun example => has_shape2 example sequence_length features) (fst mb) /\
  Forall (fun label => length label = classes) (snd mb).

(** The two means of an epoch report are its two sums, each divided by
    [num_batches]. *)
Definition reports_means (num_batches : nat) (r : epoch_report_data) : Prop :=
  length (epoch_steps r) = num_batches /\
  float_div_int (accumulate (map fst (epoch_steps r))) (Z.of_nat num_batches)
  = Ok (mean_loss r) /\
  float_div_int (accumulate (map snd (epoch_steps r))) (Z.of_nat num_batches)
  = Ok (mean_accuracy r).
(** * Properties *)

(** ** Formatting, on examples *)

Example format_f_ex1 : format_f 4 (Fin (12345 # 10000)%Q) = "1.2345"%string.
Proof. reflexivity. Qed.
Example format_f_ex2 : format_f 2 (Fin (-(1 # 8))%Q) = "-0.12"%string.
Proof. reflexivity. Qed.
Example format_f_ex3 : format_f 2 (Fin (100 # 1)%Q) = "100.00"%string.
Proof. reflexivity. Qed.
Example format_f_ex4 : format_f 4 (Fin (207946 # 100000)%Q) = "2.0795"%string.
Proof. reflexivity. Qed.
Example format_f_ex5 : format_f 2 (Fin (-(1 # 1000))%Q) = "-0.00"%string.
Proof. reflexivity. Qed.
Example str_tuple_ex : str_tuple [420; 128; 33]%nat = "(420, 128, 33)"%string.
Proof. reflexivity. Qed.


(** ** Logs and loops *)

Lemma is_ok_inv {A} (r : result A) : is_ok r = true -> exists a, r = Ok a.
Proof. destruct r as [a|e]; [exists a; reflexivity | discriminate]. Qed.

Lemma bind_unfold {A B} (m : W A) (k : A -> W B) :
  W.bind m k = match snd m with
               | Ok a => (fst m ++ fst (k a), snd (k a))
               | Raise e => (fst m, Raise e)
               end.
Proof.
  unfold W.bind. destruct m as [log [a|e]]; simpl; [|reflexivity].
  destruct (k a); reflexivity.
Qed.

Lemma bind_ok {A B} (log : list event) (a : A) (k : A -> W B) :
  W.bind (log, Ok a) k = (log ++ fst (k a), snd (k a)).
Proof. unfold W.bind. destruct (k a); reflexivity. Qed.

Lemma slices_app (l1 l2 : list event) :
  slices (l1 ++ l2) = slices l1 ++ slices l2.
Proof. apply flat_map_app. Qed.

Lemma printed_app (l1 l2 : list event) :
  printed (l1 ++ l2) = printed l1 ++ printed l2.
Proof. apply flat_map_app. Qed.

(** Two loops whose bodies agree on the items iterated over agree. *)
Lemma for_each_ext {A S} (f g : A -> S -> W S) (l : list A) :
  (forall x, In x l -> forall s, f x s = g x s) ->
  forall s, W.for_each f l s = W.for_each g l s.
Proof.
  induction l as [|x l IH]; intros Hfg s; simpl; [reflexivity|].
  rewrite (Hfg x (or_introl eq_refl)).
  rewrite !bind_unfold. destruct (snd (g x s)); [|reflexivity].
  rewrite IH; [reflexivity|]. intros y Hy. apply Hfg. now right.
Qed.

(** A loop whose body takes, at item [x], a prefix of the slices [sched x],
    and all of them when it does not raise, takes a prefix of the slices
    scheduled for the whole list, and all of them when it does not raise. *)
Lemma for_each_slices {A S} (body : A -> S -> W S) (sched : A -> list (nat * nat)) :
  (forall x s, is_prefix (slices (fst (body x s))) (sched x) /\
               (forall s', snd (body x s) = Ok s' ->
                           slices (fst (body x s)) = sched x)) ->
  forall l s,
    is_prefix (slices (fst (W.for_each body l s))) (flat_map sched l) /\
    (forall s', snd (W.for_each body l s) = Ok s' ->
                slices (fst (W.for_each body l s)) = flat_map sched l).
Proof.
  intros Hbody. induction l as [|x l IH]; intros s; simpl.
  - split; [exists []; reflexivity | reflexivity].
  - destruct (Hbody x s) as [[rest Hrest] Hfull].
    rewrite bind_unfold. destruct (snd (body x s)) as [s1|e] eqn:Hs; simpl.
    + specialize (Hfull s1 eq_refl). destruct (IH s1) as [[rest' Hrest'] Hfull'].
      rewrite slices_app, Hfull. split.
      * exists rest'. rewrite Hrest', app_assoc. reflexivity.
      * intros s' Hs'. rewrite (Hfull' s' Hs'). reflexivity.
    + split; [|discriminate].
      exists (rest ++ flat_map sched l). rewrite Hrest, app_assoc. reflexivity.
Qed.

(** ** Slicing *)

Lemma slice_length {A} (l : list A) (lo hi : nat) :
  hi <= length l -> length (slice l lo hi) = hi - lo.
Proof.
  intros H. unfold slice. rewrite length_firstn, length_skipn. lia.
Qed.

Lemma slice_nth_error {A} (l : list A) (lo hi j : nat) :
  j < hi - lo -> nth_error (slice l lo hi) j = nth_error l (lo + j).
Proof.
  intros H. unfold slice.
  rewrite nth_error_firstn.
  destruct (Nat.ltb_spec j (hi - lo)); [|lia].
  apply nth_error_skipn.
Qed.

Lemma slice_firstn {A} (l : list A) (k lo hi : nat) :
  hi <= k -> slice (firstn k l) lo hi = slice l lo hi.
Proof.
  intros H. unfold slice.
  rewrite skipn_firstn_comm, firstn_firstn.
  f_equal. lia.
Qed.


Lemma nth_error_seq_lt (a n k : nat) :
  k < n -> nth_error (seq a n) k = Some (a + k).
Proof.
  revert a k. induction n as [|n IH]; intros a k Hk; [lia|].
  destruct k as [|k]; simpl; [f_equal; lia|].
  rewrite IH by lia. f_equal. lia.
Qed.

Lemma for_each_raise_first {A S} (body : A -> S -> W S) (x : A) (l : list A)
      (s : S) (log : list event) (e : exn) :
  body x s = (log, Raise e) ->
  W.for_each body (x :: l) s = (log, Raise e).
Proof. intros H. simpl. rewrite H. reflexivity. Qed.

Lemma for_each_cons_ok {A S} (body : A -> S -> W S) (x : A) (l : list A)
      (s s' : S) :
  snd (W.for_each body (x :: l) s) = Ok s' ->
  exists s1, snd (body x s) = Ok s1 /\ snd (W.for_each body l s1) = Ok s' /\
             fst (W.for_each body (x :: l) s)
             = fst (body x s) ++ fst (W.for_each body l s1).
Proof.
  simpl. rewrite bind_unfold.
  destruct (snd (body x s)) as [s1|e]; simpl; [|discriminate].
  intros H. exists s1. repeat split. exact H.
Qed.

(** An invariant of the loop state that every iteration keeps, and a
    property of the events that every iteration logs under it. *)
Lemma for_each_invariant {A S} (I : S -> Prop) (Q : event -> Prop)
      (body : A -> S -> W S) :
  (forall x s, I s ->
               Forall Q (fst (body x s)) /\
               (forall s', snd (body x s) = Ok s' -> I s')) ->
  forall l s, I s ->
              Forall Q (fst (W.for_each body l s)) /\
              (forall s', snd (W.for_each body l s) = Ok s' -> I s').
Proof.
  intros Hbody. induction l as [|x l IH]; intros s Hs; simpl.
  - split; [constructor|]. intros s' H. inversion H; subst. exact Hs.
  - destruct (Hbody x s Hs) as [HQ HI]. rewrite bind_unfold.
    destruct (snd (body x s)) as [s1|e]; simpl.
    + destruct (IH s1 (HI s1 eq_refl)) as [HQ' HI'].
      split; [apply Forall_app; split; assumption | exact HI'].
    + split; [exact HQ | discriminate].
Qed.

Lemma no_print_printed (log : list event) :
  Forall (fun e => match e with Print _ => False | _ => True end) log ->
  printed log = [].
Proof.
  induction 1 as [|e log He _ IH]; simpl; [reflexivity|].
  destruct e; simpl; try exact IH. contradiction.
Qed.

Lemma printed_In (log : list event) (line : string) :
  In line (printed log) -> In (Print line) log.
Proof.
  unfold printed. intros H. apply in_flat_map in H.
  destruct H as (e & He & Hl). destruct e; try contradiction.
  destruct Hl as [<-|[]]. exact He.
Qed.

(** ** Rounding, on examples

    [100.0 * 2 / 3] and [100.0 * 4 / 35] in binary32 (66.66666412353516 and
    11.428571701049805), 0.1 in binary64, a sum beyond 2^53, an overflow,
    and a tie between two subnormal numbers. *)

Example round_ex1 : round binary32 (200 # 3)%Q = Fin (8738133 # 131072)%Q.
Proof. vm_compute. reflexivity. Qed.
Example round_ex2 : round binary32 (400 # 35)%Q = Fin (5991863 # 524288)%Q.
Proof. vm_compute. reflexivity. Qed.
Example round_ex3 :
  round binary64 (1 # 10)%Q = Fin (3602879701896397 # 36028797018963968)%Q.
Proof. vm_compute. reflexivity. Qed.
Example round_ex4 :
  float_add (Fin (inject_Z (2 ^ 58))) (Fin 100%Q)
  = Fin (inject_Z (2 ^ 58 + 128)).
Proof. vm_compute. reflexivity. Qed.
Example round_ex5 : round binary64 (inject_Z (2 ^ 1024)) = Inf false.
Proof. vm_compute. reflexivity. Qed.
Example round_ex6 : round binary64 (1 # 2 ^ 1075)%Q = Fin 0%Q.
Proof. vm_compute. reflexivity. Qed.
Example round_ex7 : round binary32 (- (1 # 3))%Q = Fin (- (11184811 # 33554432))%Q.
Proof. vm_compute. reflexivity. Qed.
Example int_truediv_ex : int_truediv 9851624184872994 35 = Ok (Fin 281474976710657%Q).
Proof. vm_compute. reflexivity. Qed.


(** ** Rounding to a binary format *)

Lemma rhe_cases (q : Q) :
  (round_half_even q = Qfloor q /\ (q - inject_Z (Qfloor q) <= 1 # 2)%Q) \/
  (round_half_even q = (Qfloor q + 1)%Z /\ (1 # 2 <= q - inject_Z (Qfloor q))%Q).
Proof.
  unfold round_half_even.
  destruct (Qcompare_spec (q - inject_Z (Qfloor q)) (1 # 2)) as [H|H|H].
  - destruct (Z.even (Qfloor q)); [left | right]; split; try reflexivity;
      rewrite H; apply Qle_refl.
  - left. split; [reflexivity | apply Qlt_le_weak; exact H].
  - right. split; [reflexivity | apply Qlt_le_weak; exact H].
Qed.

Lemma rhe_morph (x y : Q) : (x == y)%Q -> round_half_even x = round_half_even y.
Proof.
  intros H. unfold round_half_even.
  assert (Hf : Qfloor x = Qfloor y) by (rewrite H; reflexivity).
  rewrite Hf.
  assert (Hc : Qcompare (x - inject_Z (Qfloor y)) (1 # 2)
               = Qcompare (y - inject_Z (Qfloor y)) (1 # 2))
    by (rewrite H; reflexivity).
  rewrite Hc. reflexivity.
Qed.

Lemma rhe_lower (A : Z) (q : Q) :
  (inject_Z A <= q)%Q -> (A <= round_half_even q)%Z.
Proof.
  intros H. apply Qfloor_resp_le in H. rewrite Qfloor_Z in H.
  destruct (rhe_cases q) as [[-> _]|[-> _]]; lia.
Qed.

Lemma rhe_upper (B : Z) (q : Q) :
  (q <= inject_Z B)%Q -> (round_half_even q <= B)%Z.
Proof.
  intros H. pose proof (Qfloor_resp_le _ _ H) as Hf. rewrite Qfloor_Z in Hf.
  destruct (rhe_cases q) as [[-> _]|[-> Hfrac]]; [exact Hf|].
  destruct (Z.eq_dec (Qfloor q) B) as [Heq|Hne]; [|lia].
  rewrite Heq in Hfrac. exfalso. Lqa.lra.
Qed.

Lemma rhe_int (z : Z) : round_half_even (inject_Z z) = z.
Proof.
  apply Z.le_antisymm.
  - apply rhe_upper. apply Qle_refl.
  - apply rhe_lower. apply Qle_refl.
Qed.

Lemma rhe_mono (x y : Q) :
  (x <= y)%Q -> (round_half_even x <= round_half_even y)%Z.
Proof.
  intros H. pose proof (Qfloor_resp_le _ _ H) as Hf.
  destruct (rhe_cases x) as [[Hx Hfx]|[Hx Hfx]],
           (rhe_cases y) as [[Hy Hfy]|[Hy Hfy]]; try lia.
  destruct (Z.eq_dec (Qfloor x) (Qfloor y)) as [Heq|Hne]; [|lia].
  rewrite Heq in Hfx.
  assert (Hxy : (x == y)%Q) by (apply Qle_antisym; Lqa.lra).
  rewrite (rhe_morph Hxy). lia.
Qed.

Lemma rhe_error (q : Q) :
  (Qabs (inject_Z (round_half_even q) - q) <= 1 # 2)%Q.
Proof.
  pose proof (Qfloor_le q) as Hlo. pose proof (Qlt_floor q) as Hhi.
  rewrite inject_Z_plus in Hhi. change (inject_Z 1) with 1%Q in Hhi.
  apply Qabs_Qle_condition.
  destruct (rhe_cases q) as [[-> H]|[-> H]].
  - split; Lqa.lra.
  - rewrite inject_Z_plus. change (inject_Z 1) with 1%Q. split; Lqa.lra.
Qed.

Lemma pow2_pos (e : Z) : (0 < pow2 e)%Q.
Proof. apply Qpower_0_lt. reflexivity. Qed.

Lemma pow2_add (a b : Z) : (pow2 (a + b) == pow2 a * pow2 b)%Q.
Proof. apply Qpower_plus. discriminate. Qed.

Lemma pow2_le (a b : Z) : (a <= b)%Z -> (pow2 a <= pow2 b)%Q.
Proof. intros H. apply Qpower_le_compat_l; [exact H | discriminate]. Qed.

Lemma pow2_lt_inv (a b : Z) : (pow2 a < pow2 b)%Q -> (a < b)%Z.
Proof. intros H. apply (Qpower_lt_compat_l_inv _ _ _ H). reflexivity. Qed.

Lemma pow2_int (e : Z) : (0 <= e)%Z -> (pow2 e == inject_Z (2 ^ e))%Q.
Proof. intros H. symmetry. apply (Zpower_Qpower 2 e H). Qed.

Lemma pow2_split (g e : Z) :
  (e <= g)%Z -> (pow2 g == inject_Z (2 ^ (g - e)) * pow2 e)%Q.
Proof.
  intros H. rewrite <- pow2_int by lia. rewrite <- pow2_add.
  replace (g - e + e)%Z with g by lia. reflexivity.
Qed.

Lemma inject_Z_pos (z : Z) : (0 < z)%Z -> (0 < inject_Z z)%Q.
Proof. intros H. change 0%Q with (inject_Z 0). rewrite <- Zlt_Qlt. exact H. Qed.

Lemma Zfrac_lt (n d P D : Z) :
  (0 < d)%Z -> (0 < D)%Z -> (n * D < P * d)%Z ->
  (inject_Z n / inject_Z d < inject_Z P / inject_Z D)%Q.
Proof.
  intros Hd HD H.
  pose proof (inject_Z_pos Hd) as Hd'. pose proof (inject_Z_pos HD) as HD'.
  apply Qlt_shift_div_l; [exact HD'|].
  assert (E : (inject_Z n / inject_Z d * inject_Z D
               == inject_Z (n * D) / inject_Z d)%Q).
  { rewrite inject_Z_mult. field. intros H0. rewrite H0 in Hd'.
    exact (Qlt_irrefl _ Hd'). }
  rewrite E. apply Qlt_shift_div_r; [exact Hd'|].
  rewrite <- inject_Z_mult, <- Zlt_Qlt. exact H.
Qed.

Lemma pow2_quot (a b : Z) :
  (0 <= a)%Z -> (0 <= b)%Z ->
  (pow2 (a - b) == inject_Z (2 ^ a) / inject_Z (2 ^ b))%Q.
Proof.
  intros Ha Hb. rewrite <- !pow2_int by assumption.
  unfold pow2. apply Qpower_minus. discriminate.
Qed.

(** [binade x] is the exponent of the power of two at or below [x]. *)
Lemma binade_spec (x : Q) :
  (0 < x)%Q -> (pow2 (binade x) <= x < pow2 (binade x + 1))%Q.
Proof.
  intros Hx. destruct x as [n d].
  assert (Hn : (0 < n)%Z) by (unfold Qlt in Hx; simpl in Hx; lia).
  unfold binade. simpl Qnum. simpl Qden.
  set (a := Z.log2 n). set (b := Z.log2 (Zpos d)).
  destruct (Z.log2_spec n Hn) as [Ha1 Ha2]. fold a in Ha1, Ha2.
  destruct (Z.log2_spec (Zpos d) eq_refl) as [Hb1 Hb2]. fold b in Hb1, Hb2.
  assert (Ha0 : (0 <= a)%Z) by apply Z.log2_nonneg.
  assert (Hb0 : (0 <= b)%Z) by apply Z.log2_nonneg.
  assert (Hpa : (0 < 2 ^ a)%Z) by (apply Z.pow_pos_nonneg; lia).
  assert (Hpb : (0 < 2 ^ b)%Z) by (apply Z.pow_pos_nonneg; lia).
  assert (W1 : (pow2 (a - b - 1) < n # d)%Q).
  { rewrite Qmake_Qdiv. replace (a - b - 1)%Z with (a - Z.succ b)%Z by lia.
    rewrite pow2_quot by lia.
    apply Zfrac_lt; [lia | reflexivity | nia]. }
  assert (W2 : (n # d < pow2 (a - b + 1))%Q).
  { rewrite Qmake_Qdiv. replace (a - b + 1)%Z with (Z.succ a - b)%Z by lia.
    rewrite pow2_quot by lia.
    apply Zfrac_lt; [reflexivity | lia | nia]. }
  destruct (Qle_bool (pow2 (a - b)) (n # d)) eqn:Ht.
  - apply Qle_bool_iff in Ht. split; assumption.
  - assert (Hlt : (n # d < pow2 (a - b))%Q).
    { apply Qnot_le_lt. intros Hle. apply Qle_bool_iff in Hle. congruence. }
    replace (a - b - 1 + 1)%Z with (a - b)%Z by lia.
    split; [apply Qlt_le_weak; exact W1 | exact Hlt].
Qed.

Lemma binade_lt (x : Q) (K : Z) :
  (0 < x)%Q -> (x < pow2 K)%Q -> (binade x < K)%Z.
Proof.
  intros Hx H. destruct (binade_spec Hx) as [Hlo _].
  apply pow2_lt_inv. eapply Qle_lt_trans; eassumption.
Qed.

Lemma binade_ge (x : Q) (K : Z) :
  (pow2 K <= x)%Q -> (K <= binade x)%Z.
Proof.
  intros H.
  assert (Hx : (0 < x)%Q) by (eapply Qlt_le_trans; [apply pow2_pos | exact H]).
  destruct (binade_spec Hx) as [_ Hhi].
  assert (K < binade x + 1)%Z; [|lia].
  apply pow2_lt_inv. eapply Qle_lt_trans; eassumption.
Qed.

Lemma binade_mono (x y : Q) :
  (0 < x)%Q -> (x <= y)%Q -> (binade x <= binade y)%Z.
Proof.
  intros Hx H. destruct (binade_spec Hx) as [Hlo _].
  apply binade_ge. eapply Qle_trans; eassumption.
Qed.

Section Nearest.
Variable f : float_format.
Hypothesis prec_ge_2 : (2 <= prec f)%Z.
Hypothesis prec_le_emax : (prec f <= emax f)%Z.

Lemma scaled (x : Q) (e : Z) : (x / pow2 e * pow2 e == x)%Q.
Proof.
  field. intros H. pose proof (pow2_pos e) as Hp. rewrite H in Hp.
  exact (Qlt_irrefl _ Hp).
Qed.

Lemma nearest_le_grid (x : Q) (B : Z) :
  (x <= inject_Z B * pow2 (exponent f x))%Q ->
  (nearest f x <= inject_Z B * pow2 (exponent f x))%Q.
Proof.
  intros H. unfold nearest. cbv zeta.
  apply Qmult_le_compat_r; [|apply Qlt_le_weak, pow2_pos].
  rewrite <- Zle_Qle. apply rhe_upper.
  apply Qle_shift_div_r; [apply pow2_pos | exact H].
Qed.

Lemma nearest_ge_grid (x : Q) (A : Z) :
  (inject_Z A * pow2 (exponent f x) <= x)%Q ->
  (inject_Z A * pow2 (exponent f x) <= nearest f x)%Q.
Proof.
  intros H. unfold nearest. cbv zeta.
  apply Qmult_le_compat_r; [|apply Qlt_le_weak, pow2_pos].
  rewrite <- Zle_Qle. apply rhe_lower.
  apply Qle_shift_div_l; [apply pow2_pos | exact H].
Qed.

Lemma nearest_nonneg (x : Q) : (0 <= x)%Q -> (0 <= nearest f x)%Q.
Proof.
  intros H. pose proof (@nearest_ge_grid x 0) as H0.
  rewrite Qmult_0_l in H0. apply H0. exact H.
Qed.

(** A multiple of [2^g], with [g] at or above the exponent of [x], is
    rounded to itself. *)
Lemma nearest_exact (x : Q) (m g : Z) :
  (x == inject_Z m * pow2 g)%Q -> (exponent f x <= g)%Z ->
  (nearest f x == x)%Q.
Proof.
  intros Hx Hg. unfold nearest. cbv zeta.
  set (e := exponent f x) in *.
  assert (Hs : (x / pow2 e == inject_Z (m * 2 ^ (g - e)))%Q).
  { rewrite Hx, (pow2_split Hg), inject_Z_mult. field.
    intros H. pose proof (pow2_pos e) as Hp. rewrite H in Hp.
    exact (Qlt_irrefl _ Hp). }
  rewrite (rhe_morph Hs), rhe_int, <- Hs. apply scaled.
Qed.

Lemma exponent_le (x : Q) (K : Z) :
  (0 < x)%Q -> (x < pow2 K)%Q ->
  (exponent f x <= Z.max (K - prec f) (3 - emax f - prec f))%Z.
Proof.
  intros Hx H. pose proof (@binade_lt x K Hx H). unfold exponent. lia.
Qed.

Lemma nearest_mono (x y : Q) :
  (0 < x)%Q -> (x <= y)%Q -> (nearest f x <= nearest f y)%Q.
Proof.
  intros Hx Hxy.
  assert (Hy : (0 < y)%Q) by (eapply Qlt_le_trans; eassumption).
  pose proof (binade_mono Hx Hxy) as Hk.
  destruct (binade_spec Hx) as [Hxlo Hxhi].
  destruct (binade_spec Hy) as [Hylo Hyhi].
  destruct (Z.eq_dec (exponent f x) (exponent f y)) as [He|He].
  - unfold nearest. cbv zeta. rewrite He.
    apply Qmult_le_compat_r; [|apply Qlt_le_weak, pow2_pos].
    rewrite <- Zle_Qle. apply rhe_mono.
    apply Qmult_le_compat_r; [exact Hxy|].
    apply Qlt_le_weak, Qinv_lt_0_compat, pow2_pos.
  - assert (Hey : exponent f y = (binade y - (prec f - 1))%Z)
      by (unfold exponent in *; lia).
    assert (Hlt : (binade x < binade y)%Z) by (unfold exponent in *; lia).
    apply Qle_trans with (pow2 (binade y)).
    + destruct (Z.le_gt_cases (exponent f x) (binade x + 1)) as [Hg|Hg].
      * apply Qle_trans with (pow2 (binade x + 1)); [|apply pow2_le; lia].
        rewrite (pow2_split Hg). apply nearest_le_grid.
        rewrite <- (pow2_split Hg). apply Qlt_le_weak. exact Hxhi.
      * apply Qle_trans with 0%Q; [|apply Qlt_le_weak, pow2_pos].
        pose proof (@nearest_le_grid x 0) as H0.
        rewrite Qmult_0_l in H0.
        unfold nearest. cbv zeta.
        assert (Hr : (round_half_even (x / pow2 (exponent f x)) <= 0)%Z).
        { change 0%Z with (round_half_even (1 # 2)).
          apply rhe_mono. apply Qle_shift_div_r; [apply pow2_pos|].
          apply Qle_trans with (pow2 (binade x + 1));
            [apply Qlt_le_weak; exact Hxhi|].
          apply Qle_trans with (pow2 (exponent f x - 1));
            [apply pow2_le; lia|].
          replace (exponent f x - 1)%Z with (-1 + exponent f x)%Z by lia.
          rewrite pow2_add. apply Qle_refl. }
        rewrite Zle_Qle in Hr.
        pose proof (pow2_pos (exponent f x)) as Hp.
        change (inject_Z 0) with 0%Q in Hr.
        setoid_replace 0%Q with (0 * pow2 (exponent f x))%Q by ring.
        apply Qmult_le_compat_r; [exact Hr | apply Qlt_le_weak; exact Hp].
    + assert (Hg : (exponent f y <= binade y)%Z) by lia.
      rewrite (pow2_split Hg). apply nearest_ge_grid.
      rewrite <- (pow2_split Hg). exact Hylo.
Qed.

End Nearest.


(** ** Rounded results *)

Lemma rhe_upper_strict (B : Z) (q : Q) :
  (q < inject_Z B - (1 # 2))%Q -> (round_half_even q <= B - 1)%Z.
Proof.
  intros H.
  assert (Hf : (Qfloor q <= B - 1)%Z).
  { assert (Qfloor q < B)%Z; [|lia]. rewrite Zlt_Qlt.
    pose proof (Qfloor_le q). Lqa.lra. }
  destruct (rhe_cases q) as [[-> _]|[-> Hfrac]]; [exact Hf|].
  destruct (Z.eq_dec (Qfloor q) (B - 1)) as [Heq|Hne]; [|lia].
  rewrite Heq in Hfrac.
  assert (E : (inject_Z (B - 1) == inject_Z B - 1)%Q)
    by (unfold Qeq; simpl; lia).
  rewrite E in Hfrac. exfalso. Lqa.lra.
Qed.

Lemma Qfloor_unique (r : Q) (k : Z) :
  (inject_Z k <= r)%Q -> (r < inject_Z (k + 1))%Q -> Qfloor r = k.
Proof.
  intros Hlo Hhi. apply Qfloor_resp_le in Hlo. rewrite Qfloor_Z in Hlo.
  assert (Qfloor r < k + 1)%Z; [|lia].
  rewrite Zlt_Qlt. eapply Qle_lt_trans; [apply Qfloor_le | exact Hhi].
Qed.

Lemma Qred_inject_Z (z : Z) : Qred (inject_Z z) = inject_Z z.
Proof. apply Qcanon.Qred_identity. simpl. apply Z.gcd_1_r. Qed.

Section Rounding.
Variable f : float_format.
Hypothesis prec_ge_2 : (2 <= prec f)%Z.
Hypothesis prec_le_emax : (prec f <= emax f)%Z.

Lemma round_morph (x y : Q) : (x == y)%Q -> round f x = round f y.
Proof.
  intros H. unfold round.
  assert (H1 : Qcompare x 0 = Qcompare y 0) by (rewrite H; reflexivity).
  assert (H2 : Qred x = Qred y) by (apply Qred_complete; exact H).
  assert (H3 : Qred (- x) = Qred (- y))
    by (apply Qred_complete; rewrite H; reflexivity).
  rewrite H1, H2, H3. reflexivity.
Qed.

Lemma round_of_pos (x : Q) :
  (0 < x)%Q ->
  round f x = match round_pos f (Qred x) with
              | Some r => Fin r
              | None => Inf false
              end.
Proof.
  intros H. unfold round.
  destruct (Qcompare_spec x 0) as [H0|H0|H0]; [| |reflexivity].
  - rewrite H0 in H. exfalso. exact (Qlt_irrefl _ H).
  - exfalso. exact (Qlt_irrefl _ (Qlt_trans _ _ _ H H0)).
Qed.

Lemma round_0 (x : Q) : (x == 0)%Q -> round f x = Fin 0%Q.
Proof. intros H. rewrite (round_morph H). reflexivity. Qed.

Lemma round_pos_mono (x y ry : Q) :
  (0 < x)%Q -> (x <= y)%Q ->
  round_pos f y = Some ry ->
  exists rx, round_pos f x = Some rx /\ (0 <= rx <= ry)%Q.
Proof.
  intros Hx Hxy. unfold round_pos. cbv zeta.
  pose proof (@nearest_mono f prec_ge_2 x y Hx Hxy) as Hm.
  pose proof (@nearest_nonneg f x (Qlt_le_weak _ _ Hx)) as H0.
  destruct (Qle_bool (pow2 (emax f)) (nearest f y)) eqn:Hy; [discriminate|].
  intros Hr.
  assert (Hry : ry = Qred (nearest f y)) by congruence. subst ry. clear Hr.
  destruct (Qle_bool (pow2 (emax f)) (nearest f x)) eqn:Hox.
  - apply Qle_bool_iff in Hox.
    assert (Hoy : Qle_bool (pow2 (emax f)) (nearest f y) = true)
      by (apply Qle_bool_iff; eapply Qle_trans; eassumption).
    congruence.
  - eexists. split; [reflexivity|]. rewrite !Qred_correct. split; assumption.
Qed.

Lemma round_nonneg (x : Q) :
  (0 <= x)%Q ->
  match round f x with
  | Fin r => (0 <= r)%Q
  | Inf s => s = false
  | NaN => False
  end.
Proof.
  intros H. destruct (Qlt_le_dec 0 x) as [Hpos|Hle].
  - rewrite (round_of_pos Hpos). unfold round_pos. cbv zeta.
    destruct (Qle_bool _ _); [reflexivity|].
    rewrite Qred_correct. apply nearest_nonneg.
    rewrite Qred_correct. exact H.
  - rewrite round_0; [apply Qle_refl | apply Qle_antisym; assumption].
Qed.

(** Rounding keeps the order of non-negative numbers. *)
Lemma round_mono (x y ry : Q) :
  (0 <= x)%Q -> (x <= y)%Q ->
  round f y = Fin ry ->
  exists rx, round f x = Fin rx /\ (0 <= rx <= ry)%Q.
Proof.
  intros Hx Hxy Hy.
  assert (Hry : (0 <= ry)%Q).
  { pose proof (round_nonneg (Qle_trans _ _ _ Hx Hxy)) as H.
    rewrite Hy in H. exact H. }
  destruct (Qlt_le_dec 0 x) as [Hpos|Hle].
  - assert (Hypos : (0 < y)%Q) by (eapply Qlt_le_trans; eassumption).
    rewrite (round_of_pos Hypos) in Hy. rewrite (round_of_pos Hpos).
    destruct (round_pos f (Qred y)) as [r|] eqn:Hr; [|discriminate Hy].
    inversion Hy; subst r.
    destruct (@round_pos_mono (Qred x) (Qred y) ry) as (rx & Hrx & Hb).
    + rewrite Qred_correct. exact Hpos.
    + rewrite !Qred_correct. exact Hxy.
    + exact Hr.
    + rewrite Hrx. exists rx. split; [reflexivity | exact Hb].
  - exists 0%Q. split; [|split; [apply Qle_refl | exact Hry]].
    apply round_0. apply Qle_antisym; assumption.
Qed.

(** A positive multiple of [2^g] below [2^K] with [K - prec <= g] is
    a number of the format. *)
Lemma round_exact (x : Q) (m g K : Z) :
  (0 < x)%Q -> (x == inject_Z m * pow2 g)%Q ->
  (x < pow2 K)%Q -> (K - prec f <= g)%Z -> (3 - emax f - prec f <= g)%Z ->
  (K <= emax f)%Z ->
  round f x = Fin (Qred x).
Proof.
  intros Hx Hm HK Hg Hmin Hmax. rewrite (round_of_pos Hx).
  assert (Hx' : (0 < Qred x)%Q) by (rewrite Qred_correct; exact Hx).
  assert (HK' : (Qred x < pow2 K)%Q) by (rewrite Qred_correct; exact HK).
  assert (He : (exponent f (Qred x) <= g)%Z).
  { pose proof (@exponent_le f (Qred x) K Hx' HK'). lia. }
  assert (Hn : (nearest f (Qred x) == x)%Q).
  { rewrite (@nearest_exact f (Qred x) m g); [apply Qred_correct| |exact He].
    rewrite Qred_correct. exact Hm. }
  unfold round_pos. cbv zeta.
  destruct (Qle_bool (pow2 (emax f)) (nearest f (Qred x))) eqn:Ho.
  - apply Qle_bool_iff in Ho. rewrite Hn in Ho. exfalso.
    pose proof (@pow2_le K (emax f) Hmax).
    apply (Qlt_irrefl x). eapply Qlt_le_trans; [exact HK|].
    eapply Qle_trans; eassumption.
  - f_equal. apply Qred_complete. exact Hn.
Qed.

(** An integer of at most [prec] bits is a number of the format. *)
Lemma round_int (z : Z) :
  (0 <= z < 2 ^ prec f)%Z -> round f (inject_Z z) = Fin (inject_Z z).
Proof.
  intros [H0 Hz]. destruct (Z.eq_dec z 0) as [->|Hne]; [reflexivity|].
  rewrite <- (Qred_inject_Z z) at 2.
  apply (@round_exact (inject_Z z) z 0 (prec f)).
  - apply inject_Z_pos. lia.
  - change (pow2 0) with 1%Q. ring.
  - rewrite pow2_int by lia. rewrite <- Zlt_Qlt. exact Hz.
  - lia.
  - lia.
  - exact prec_le_emax.
Qed.

(** The rounded value is within half a unit in the last place. *)
Lemma round_error (x r : Q) (K : Z) :
  (0 < x)%Q -> (x < pow2 K)%Q -> (3 - emax f - prec f <= K - prec f)%Z ->
  round f x = Fin r ->
  (Qabs (r - x) <= pow2 (K - prec f - 1))%Q.
Proof.
  intros Hx HK Hmin. rewrite (round_of_pos Hx).
  unfold round_pos. cbv zeta.
  destruct (Qle_bool _ _); [discriminate|]. intros Hr.
  assert (Hr' : r = Qred (nearest f (Qred x))) by congruence.
  subst r. clear Hr.
  assert (Hx' : (0 < Qred x)%Q) by (rewrite Qred_correct; exact Hx).
  assert (HK' : (Qred x < pow2 K)%Q) by (rewrite Qred_correct; exact HK).
  pose proof (@exponent_le f (Qred x) K Hx' HK') as He.
  rewrite Qred_correct. rewrite <- (Qred_correct x) at 2.
  set (y := Qred x) in *. set (e := exponent f y) in *.
  unfold nearest. cbv zeta. fold e.
  assert (Hd : (inject_Z (round_half_even (y / pow2 e)) * pow2 e - y
                == (inject_Z (round_half_even (y / pow2 e)) - y / pow2 e)
                   * pow2 e)%Q).
  { field. intros H. pose proof (pow2_pos e) as Hp. rewrite H in Hp.
    exact (Qlt_irrefl _ Hp). }
  rewrite Hd, Qabs_Qmult.
  rewrite (Qabs_pos (pow2 e)) by (apply Qlt_le_weak, pow2_pos).
  apply Qle_trans with ((1 # 2) * pow2 e)%Q.
  - apply Qmult_le_compat_r; [apply rhe_error | apply Qlt_le_weak, pow2_pos].
  - replace (K - prec f - 1)%Z with (-1 + (K - prec f))%Z by lia.
    rewrite pow2_add. change (pow2 (-1)) with (1 # 2)%Q.
    apply Qmult_le_l; [reflexivity|]. apply pow2_le. lia.
Qed.

End Rounding.

Lemma binary32_prec : (2 <= prec binary32)%Z.
Proof. simpl. lia. Qed.
Lemma binary32_emax : (prec binary32 <= emax binary32)%Z.
Proof. simpl. lia. Qed.
Lemma binary64_prec : (2 <= prec binary64)%Z.
Proof. simpl. lia. Qed.
Lemma binary64_emax : (prec binary64 <= emax binary64)%Z.
Proof. simpl. lia. Qed.

(** ** Python arithmetic *)

Lemma is_zero_pos (x : Q) : (0 < x)%Q -> is_zero x = false.
Proof.
  intros H. unfold is_zero.
  destruct (Qcompare_spec x 0) as [H0|H0|H0]; try reflexivity.
  rewrite H0 in H. exfalso. exact (Qlt_irrefl _ H).
Qed.

Lemma is_zero_0 (x : Q) : (x == 0)%Q -> is_zero x = true.
Proof.
  intros H. unfold is_zero.
  destruct (Qcompare_spec x 0) as [H0|H0|H0]; try reflexivity;
    rewrite H in H0; exfalso; exact (Qlt_irrefl _ H0).
Qed.

Lemma int_on_grid (k e : Z) :
  (e <= 0)%Z -> (inject_Z (k * 2 ^ (- e)) * pow2 e == inject_Z k)%Q.
Proof.
  intros He. rewrite inject_Z_mult, <- Qmult_assoc.
  pose proof (pow2_split He) as Hs. rewrite Z.sub_0_l in Hs.
  rewrite <- Hs. change (pow2 0) with 1%Q. ring.
Qed.

(** [n / 35] on ints, then [int]: no rounding error reaches the integer
    part while the quotient stays below [2^48]. *)
Lemma int_truediv_batch (n : Z) :
  (0 <= n < 35 * 2 ^ 48)%Z ->
  exists r, int_truediv n 35 = Ok (Fin r) /\ (0 <= r)%Q /\
            Qfloor r = (n / 35)%Z.
Proof.
  intros [H0 Hn]. unfold int_truediv. change (35 =? 0)%Z with false. cbv iota.
  destruct (Z.eq_dec n 0) as [->|Hne].
  { exists 0%Q. repeat split. discriminate. }
  set (x := (inject_Z n / inject_Z 35)%Q).
  assert (Hx : (0 < x)%Q).
  { apply Qlt_shift_div_l; [reflexivity|]. rewrite Qmult_0_l.
    apply inject_Z_pos. lia. }
  rewrite (round_of_pos binary64 Hx).
  set (y := Qred x).
  assert (Hyx : (y == x)%Q) by apply Qred_correct.
  assert (Hy : (0 < y)%Q) by (rewrite Hyx; exact Hx).
  set (k := (n / 35)%Z).
  pose proof (Z.div_mod n 35 ltac:(lia)) as Hdm.
  pose proof (Z.mod_pos_bound n 35 ltac:(lia)) as Hmb.
  fold k in Hdm.
  assert (Hlo : (inject_Z k <= y)%Q).
  { rewrite Hyx. apply Qle_shift_div_l; [reflexivity|].
    rewrite <- inject_Z_mult, <- Zle_Qle. lia. }
  assert (Hhi : (y <= inject_Z (k + 1) - (1 # 35))%Q).
  { rewrite Hyx. apply Qle_shift_div_r; [reflexivity|].
    assert (E : ((inject_Z (k + 1) - (1 # 35)) * inject_Z 35
                 == inject_Z (35 * k + 34))%Q).
    { rewrite !inject_Z_plus, inject_Z_mult.
      change (inject_Z 1) with 1%Q. change (inject_Z 35) with 35%Q.
      change (inject_Z 34) with 34%Q. field. }
    rewrite E, <- Zle_Qle. lia. }
  assert (HK : (y < pow2 48)%Q).
  { rewrite pow2_int by lia. eapply Qle_lt_trans; [exact Hhi|].
    assert ((k + 1 <= 2 ^ 48)%Z) by lia.
    rewrite Zle_Qle in H. Lqa.lra. }
  pose proof (@exponent_le binary64 y 48 Hy HK) as He.
  set (e := exponent binary64 y) in *.
  change (Z.max (48 - prec binary64) (3 - emax binary64 - prec binary64))
    with (-5)%Z in He.
  assert (He0 : (e <= 0)%Z) by lia.
  assert (Hnlo : (inject_Z k <= nearest binary64 y)%Q).
  { rewrite <- (int_on_grid k He0). apply nearest_ge_grid.
    fold e. rewrite (int_on_grid k He0). exact Hlo. }
  assert (Hnhi : (nearest binary64 y < inject_Z (k + 1))%Q).
  { set (P := inject_Z (2 ^ (- e))).
    assert (HP : (32 <= P)%Q).
    { unfold P. change 32%Q with (inject_Z (2 ^ 5)). rewrite <- Zle_Qle.
      apply Z.pow_le_mono_r; lia. }
    assert (Hinv : (P * pow2 e == 1)%Q).
    { unfold P. rewrite <- pow2_int by lia. rewrite <- pow2_add.
      replace (- e + e)%Z with 0%Z by lia. reflexivity. }
    assert (Hscale : (y / pow2 e == y * P)%Q).
    { rewrite <- (Qmult_1_r (y / pow2 e)), <- Hinv.
      field. intros H. pose proof (pow2_pos e) as Hp. rewrite H in Hp.
      exact (Qlt_irrefl _ Hp). }
    assert (Hr : (round_half_even (y / pow2 e) <= (k + 1) * 2 ^ (- e) - 1)%Z).
    { apply rhe_upper_strict. rewrite Hscale, inject_Z_mult. fold P.
      assert (Hm : (y * P <= (inject_Z (k + 1) - (1 # 35)) * P)%Q)
        by (apply Qmult_le_compat_r; [exact Hhi | Lqa.lra]).
      assert (E : ((inject_Z (k + 1) - (1 # 35)) * P
                   == inject_Z (k + 1) * P - (1 # 35) * P)%Q) by ring.
      rewrite E in Hm. Lqa.lra. }
    unfold nearest. cbv zeta. fold e.
    apply Qle_lt_trans
      with (inject_Z ((k + 1) * 2 ^ (- e) - 1) * pow2 e)%Q.
    - apply Qmult_le_compat_r; [|apply Qlt_le_weak, pow2_pos].
      rewrite <- Zle_Qle. exact Hr.
    - unfold Z.sub at 1. rewrite inject_Z_plus, Qmult_plus_distr_l.
      rewrite (int_on_grid (k + 1) He0).
      change (inject_Z (- (1))) with (- (1))%Q.
      pose proof (pow2_pos e). Lqa.lra. }
  unfold round_pos. cbv zeta. fold y.
  destruct (Qle_bool (pow2 (emax binary64)) (nearest binary64 y)) eqn:Ho.
  - exfalso. apply Qle_bool_iff in Ho.
    assert (Hb : (pow2 48 <= pow2 (emax binary64))%Q)
      by (apply pow2_le; simpl; lia).
    rewrite (@pow2_int 48) in Hb by lia.
    assert ((k + 1 <= 2 ^ 48)%Z) by lia.
    rewrite Zle_Qle in H. Lqa.lra.
  - exists (Qred (nearest binary64 y)).
    split; [reflexivity|].
    assert (Hk0 : (0 <= k)%Z) by (apply Z.div_pos; lia).
    rewrite Zle_Qle in Hk0. change (inject_Z 0) with 0%Q in Hk0.
    split.
    + rewrite Qred_correct. Lqa.lra.
    + apply Qfloor_unique; rewrite Qred_correct; assumption.
Qed.

(** Division of a float by a positive int of at most 53 bits. *)
Lemma float_div_int_pos (a : pyfloat) (n : Z) :
  (0 < n < 2 ^ 53)%Z ->
  float_div_int a n = Ok (ieee_div binary64 a (Fin (inject_Z n))).
Proof.
  intros [H0 Hn]. unfold float_div_int, float_of_int.
  rewrite (@round_int binary64 binary64_prec binary64_emax) by (simpl; lia).
  simpl Py.bind. unfold float_truediv.
  rewrite is_zero_pos by (apply inject_Z_pos; exact H0). reflexivity.
Qed.

Lemma float_div_int_0 (a : pyfloat) :
  float_div_int a 0 = Raise ZeroDivisionError.
Proof. reflexivity. Qed.

(** ** The number of minibatches *)

Lemma num_batches_floor `{T : Backend} (train_X : list (tensor2 scalar)) :
  (Z.of_nat (length train_X) < 35 * 2 ^ 48)%Z ->
  num_batches train_X = Ok (Z.of_nat (length train_X / batch_size)).
Proof.
  intros Hn. unfold num_batches, batch_size.
  change (Z.of_nat 35) with 35%Z.
  destruct (@int_truediv_batch (Z.of_nat (length train_X)))
    as (r & Hr & Hr0 & Hfloor); [lia|].
  rewrite Hr. simpl Py.bind. unfold int_of_float.
  assert (Hq : Qle_bool 0 r = true) by (apply Qle_bool_iff; exact Hr0).
  rewrite Hq, Hfloor. change 35%Z with (Z.of_nat 35).
  rewrite <- Nat2Z.inj_div. reflexivity.
Qed.

(** ** One minibatch *)

Section Batch.
Context {T : Backend}.
Variable train_X : list (tensor2 scalar).
Variable train_Y : list (list Z).

(** A minibatch iteration logs its slice, and it either raises then or
    goes on to log its step and to add loss and accuracy to the sums. *)
Lemma train_batch_cases (i : nat) (st : train_state) :
  (exists e,
      train_batch train_X train_Y i st
      = ([Slice (i * batch_size) ((i + 1) * batch_size)], Raise e)) \/
  (exists st' loss acc,
      train_batch train_X train_Y i st
      = ([Slice (i * batch_size) ((i + 1) * batch_size); Step loss acc], Ok st')
      /\ train_running_loss st' = float_add (train_running_loss st) loss
      /\ train_acc st' = float_add (train_acc st) acc).
Proof.
  unfold train_batch, W.emit, W.lift, W.ret.
  destruct (max_dim1 Z.ltb _) as [m|e]; simpl; [|left; eexists; reflexivity].
  destruct (LSTM.forward _ _) as [y_pred|e]; simpl; [|left; eexists; reflexivity].
  destruct (nll_loss _ _) as [loss|e]; simpl; [|left; eexists; reflexivity].
  destruct (LSTM.get_accuracy _ _ _) as [acc|e]; simpl; [|left; eexists; reflexivity].
  right. do 3 eexists. split; [reflexivity|]. split; reflexivity.
Qed.

(** One iteration of the inner loop takes the slice [[i*35, (i+1)*35)]
    of both tensors and does to the model, the optimiser and the two
    sums what the specification asks for that minibatch. *)
Lemma train_batch_step (i : nat) (st : train_state) :
  train_batch train_X train_Y i st
  = match minibatch_step
            (slice train_X (i * batch_size) ((i + 1) * batch_size),
             slice train_Y (i * batch_size) ((i + 1) * batch_size))
            (model st, optimizer st) with
    | Ok r =>
        ([Slice (i * batch_size) ((i + 1) * batch_size);
          Step (fst (snd r)) (snd (snd r))],
         Ok {| model := fst (fst r);
               optimizer := snd (fst r);
               train_running_loss :=
                 float_add (train_running_loss st) (fst (snd r));
               train_acc := float_add (train_acc st) (snd (snd r)) |})
    | Raise e => ([Slice (i * batch_size) ((i + 1) * batch_size)], Raise e)
    end.
Proof.
  unfold train_batch, minibatch_step, W.emit, W.lift, W.ret. cbn [fst snd].
  destruct (max_dim1 Z.ltb _) as [m|e]; simpl; [|reflexivity].
  destruct (LSTM.forward _ _) as [y_pred|e]; simpl; [|reflexivity].
  destruct (nll_loss _ _) as [loss|e]; simpl; [|reflexivity].
  destruct (LSTM.get_accuracy _ _ _) as [acc|e]; simpl; reflexivity.
Qed.

Lemma train_batch_slices (i : nat) (st : train_state) :
  slices (fst (train_batch train_X train_Y i st))
  = [(i * batch_size, (i + 1) * batch_size)].
Proof.
  destruct (train_batch_cases i st) as [[e H]|(st' & l & a & H & _)];
    rewrite H; reflexivity.
Qed.

End Batch.

(** ** The schedule of minibatches (C1) *)

Lemma flat_map_singleton {A B} (f : A -> B) (l : list A) :
  flat_map (fun x => [f x]) l = map f l.
Proof. induction l; simpl; congruence. Qed.

Lemma schedule_in_bounds (num_batches lo hi : nat) :
  In (lo, hi) (run_schedule num_batches) ->
  lo + batch_size = hi /\ hi <= num_batches * batch_size.
Proof.
  unfold run_schedule, epoch_schedule, range. intros H.
  apply in_flat_map in H. destruct H as (_ & _ & H).
  apply in_map_iff in H. destruct H as (i & Heq & Hi).
  apply in_seq in Hi. inversion Heq; subst. unfold batch_size. lia.
Qed.

Section Schedule.
Context {T : Backend}.

Lemma train_epoch_slices train_X train_Y (num_batches : Z) line_120 epoch s :
  let run := train_epoch_with train_X train_Y num_batches line_120 epoch s in
  is_prefix (slices (fst run)) (epoch_schedule (Z.to_nat num_batches)) /\
  (forall s', snd run = Ok s' ->
              slices (fst run) = epoch_schedule (Z.to_nat num_batches)).
Proof.
  unfold train_epoch_with. cbv zeta.
  set (st0 := {| model := line_120 (fst s) |}).
  destruct (for_each_slices (train_batch train_X train_Y)
              (fun i => [(i * batch_size, (i + 1) * batch_size)])) with
    (l := range (Z.to_nat num_batches)) (s := st0) as [Hpre Hfull].
  { intros i st. rewrite train_batch_slices.
    split; [exists []; rewrite app_nil_r; reflexivity | reflexivity]. }
  rewrite flat_map_singleton in Hpre, Hfull.
  fold (epoch_schedule (Z.to_nat num_batches)) in Hpre, Hfull.
  rewrite bind_unfold.
  destruct (snd (W.for_each _ _ st0)) as [st1|e] eqn:Hrun; simpl.
  - specialize (Hfull st1 eq_refl).
    unfold W.lift, W.emit, W.ret.
    destruct (float_div_int (train_running_loss st1) num_batches); simpl;
      [|rewrite app_nil_r; split; [exact Hpre | discriminate]].
    destruct (float_div_int (train_acc st1) num_batches); simpl;
      [|rewrite app_nil_r; split; [exact Hpre | discriminate]].
    rewrite slices_app. simpl. rewrite app_nil_r. split; [exact Hpre|].
    intros _ _. exact Hfull.
  - split; [exact Hpre | discriminate].
Qed.

Lemma training_slices train_X train_Y (num_batches : Z) line_120 s :
  let run := training_with train_X train_Y num_batches line_120 s in
  is_prefix (slices (fst run)) (run_schedule (Z.to_nat num_batches)) /\
  (forall s', snd run = Ok s' ->
              slices (fst run) = run_schedule (Z.to_nat num_batches)).
Proof.
  unfold training_with, run_schedule.
  apply for_each_slices. intros epoch s0.
  apply train_epoch_slices.
Qed.

(** The loop depends on the training tensors through the scheduled
    slices only. *)
Lemma training_prefix_only train_X train_Y train_X' train_Y'
      (nb : nat) line_120 s :
  firstn (nb * batch_size) train_X' = firstn (nb * batch_size) train_X ->
  firstn (nb * batch_size) train_Y' = firstn (nb * batch_size) train_Y ->
  training_with train_X' train_Y' (Z.of_nat nb) line_120 s
  = training_with train_X train_Y (Z.of_nat nb) line_120 s.
Proof.
  intros HX HY. unfold training_with.
  apply for_each_ext. intros epoch _ s0.
  unfold train_epoch_with. cbv zeta. f_equal.
  apply for_each_ext. intros i Hi st.
  rewrite Nat2Z.id in Hi. apply in_seq in Hi.
  assert (Hb : (i + 1) * batch_size <= nb * batch_size)
    by (apply Nat.mul_le_mono_r; lia).
  unfold train_batch.
  rewrite <- (slice_firstn train_X _ Hb), <- (slice_firstn train_Y _ Hb).
  rewrite <- (slice_firstn train_X' _ Hb), <- (slice_firstn train_Y' _ Hb).
  rewrite HX, HY. reflexivity.
Qed.

End Schedule.


(** ** The loop and the specification of it *)

Section Refinement.
Context {T : Backend}.
Variable train_X : list (tensor2 scalar).
Variable train_Y : list (list Z).

Local Abbreviation mb :=
  (fun i => (slice train_X (i * batch_size) ((i + 1) * batch_size),
             slice train_Y (i * batch_size) ((i + 1) * batch_size))).

(** The iterations [a .. a+n-1] of the inner loop do what the
    specification asks for the minibatches [a .. a+n-1], in this order. *)
Lemma batches_refine (n : nat) :
  forall (a : nat) (st : train_state),
    match minibatch_steps (map mb (seq a n)) (model st, optimizer st) with
    | Ok r =>
        W.for_each (train_batch train_X train_Y) (seq a n) st
        = (flat_map (fun p => [Slice (fst p * batch_size)
                                     ((fst p + 1) * batch_size);
                               Step (fst (snd p)) (snd (snd p))])
                    (combine (seq a n) (snd r)),
           Ok {| model := fst (fst r);
                 optimizer := snd (fst r);
                 train_running_loss :=
                   fold_left float_add (map fst (snd r))
                             (train_running_loss st);
                 train_acc :=
                   fold_left float_add (map snd (snd r)) (train_acc st) |})
        /\ length (snd r) = n
    | Raise e =>
        snd (W.for_each (train_batch train_X train_Y) (seq a n) st) = Raise e
    end.
Proof.
  induction n as [|n IH]; intros a st.
  - simpl. split; [|reflexivity]. destruct st; reflexivity.
  - simpl seq. simpl map. simpl minibatch_steps. simpl W.for_each.
    rewrite train_batch_step.
    destruct (minibatch_step _ _) as [r1|e]; simpl Py.bind; [|reflexivity].
    rewrite bind_ok.
    specialize (IH (S a)
                   {| model := fst (fst r1);
                      optimizer := snd (fst r1);
                      train_running_loss :=
                        float_add (train_running_loss st) (fst (snd r1));
                      train_acc :=
                        float_add (train_acc st) (snd (snd r1)) |}).
    cbn [model optimizer train_running_loss train_acc] in IH.
    rewrite <- surjective_pairing in IH.
    destruct (minibatch_steps _ (fst r1)) as [r2|e]; simpl Py.bind.
    + destruct IH as [IH Hlen]. rewrite IH. cbn [fst snd].
      split; [reflexivity | simpl; lia].
    + cbn [snd]. exact IH.
Qed.

Lemma minibatches_length (nb : nat) :
  length (minibatches train_X train_Y nb) = nb.
Proof. unfold minibatches, range. rewrite length_map. apply length_seq. Qed.

(** An epoch of the loop is an epoch of the specification over the
    [nb] contiguous minibatches. *)
Lemma epoch_refine (nb epoch : nat) (s : LSTM.t * adam) :
  match epoch_reference (minibatches train_X train_Y nb) s with
  | Ok r =>
      train_epoch train_X train_Y (Z.of_nat nb) epoch s
      = (epoch_log epoch (snd r), Ok (fst r))
      /\ length (epoch_steps (snd r)) = nb
  | Raise e =>
      snd (train_epoch train_X train_Y (Z.of_nat nb) epoch s) = Raise e
  end.
Proof.
  unfold epoch_reference, train_epoch, train_epoch_with. cbv zeta.
  rewrite minibatches_length, Nat2Z.id. unfold minibatches, range.
  pose proof (batches_refine nb 0
                {| model := reinit_hidden (fst s);
                   optimizer := snd s;
                   train_running_loss := Fin 0%Q;
                   train_acc := Fin 0%Q |}) as H.
  cbn [model optimizer train_running_loss train_acc] in H.
  destruct (minibatch_steps _ _) as [r|e]; simpl Py.bind.
  - destruct H as [H Hlen]. rewrite H, bind_ok.
    cbn [fst snd model optimizer train_running_loss train_acc].
    unfold W.lift, W.emit, W.ret. fold (accumulate (map fst (snd r))).
    fold (accumulate (map snd (snd r))).
    destruct (float_div_int (accumulate (map fst (snd r))) (Z.of_nat nb))
      as [loss|e]; simpl; [|reflexivity].
    destruct (float_div_int (accumulate (map snd (snd r))) (Z.of_nat nb))
      as [acc|e]; simpl; [|reflexivity].
    split; [|exact Hlen].
    unfold epoch_log, range. cbn [epoch_steps mean_loss mean_accuracy].
    rewrite Hlen, <- (surjective_pairing (fst r)). reflexivity.
  - rewrite bind_unfold, H. reflexivity.
Qed.

Lemma epochs_refine (nb n : nat) :
  forall (start : nat) (s : LSTM.t * adam),
    match epochs_reference n (minibatches train_X train_Y nb) s with
    | Ok r =>
        W.for_each (train_epoch train_X train_Y (Z.of_nat nb))
                   (seq start n) s
        = (flat_map (fun p => epoch_log (fst p) (snd p))
                    (combine (seq start n) (snd r)), Ok (fst r))
        /\ length (snd r) = n
        /\ Forall (fun e => length (epoch_steps e) = nb) (snd r)
    | Raise e =>
        snd (W.for_each (train_epoch train_X train_Y (Z.of_nat nb))
                        (seq start n) s) = Raise e
    end.
Proof.
  induction n as [|n IH]; intros start s.
  - simpl. repeat split. constructor.
  - simpl seq. simpl epochs_reference. simpl W.for_each.
    pose proof (epoch_refine nb start s) as H.
    destruct (epoch_reference _ s) as [r1|e]; simpl Py.bind.
    + destruct H as [H Hlen]. rewrite H, bind_ok.
      specialize (IH (S start) (fst r1)).
      destruct (epochs_reference n _ (fst r1)) as [r2|e]; simpl Py.bind.
      * destruct IH as (IH & Hn & Hall). rewrite IH. cbn [fst snd].
        split; [reflexivity|]. split; [simpl; lia|].
        constructor; assumption.
      * cbn [snd]. exact IH.
    + rewrite bind_unfold, H. reflexivity.
Qed.

(** The whole loop is the specification run for [num_epochs] epochs. *)
Lemma training_refine (nb : nat) (s : LSTM.t * adam) :
  match epochs_reference num_epochs (minibatches train_X train_Y nb) s with
  | Ok r =>
      training train_X train_Y (Z.of_nat nb) s = (run_log (snd r), Ok (fst r))
      /\ length (snd r) = num_epochs
      /\ Forall (fun e => length (epoch_steps e) = nb) (snd r)
  | Raise e => snd (training train_X train_Y (Z.of_nat nb) s) = Raise e
  end.
Proof.
  pose proof (epochs_refine nb num_epochs 0 s) as H.
  unfold training, training_with, range.
  fold (train_epoch train_X train_Y (Z.of_nat nb)).
  destruct (epochs_reference _ _ s) as [r|e]; [|exact H].
  destruct H as (H & Hlen & Hall). rewrite H.
  split; [|split; assumption].
  unfold run_log, range. rewrite Hlen. reflexivity.
Qed.

End Refinement.

(** C1, as the code has it.  With [batch_size = 35] and a training set of
    [N < 35 * 2^48] examples the script computes
    [num_batches = floor(N / 35)] (line 113 divides in binary64, which is
    exact enough below that bound).  Iteration [i] of the inner loop takes
    exactly the slice [[i*35, (i+1)*35)] of both tensors and does with it
    what the specification asks for one minibatch; the whole loop is the
    specification's loop run for 400 epochs over the [num_batches]
    contiguous minibatches, with the same log and the same result, every
    epoch processing exactly [num_batches] of them.  The slices logged are,
    epoch after epoch, those of the schedule: a prefix of it always, all of
    it when the run does not raise.  Minibatch [i] holds exactly the 35
    examples and labels at the indices [i*35 .. i*35+34], every slice ends
    at or before [num_batches * 35], and the run is the same for any two
    training sets of [N] examples that agree before [num_batches * 35]: the
    remainder is never read. *)
Theorem minibatch_schedule `{T : Backend}
    (train_X : list (tensor2 scalar)) (train_Y : list (list Z))
    (s : LSTM.t * adam) :
  let N := length train_X in
  let nb := N / batch_size in
  (Z.of_nat N < 35 * 2 ^ 48)%Z ->
  num_batches train_X = Ok (Z.of_nat nb) /\
  (forall (i : nat) (st : train_state),
     train_batch train_X train_Y i st
     = match minibatch_step
               (slice train_X (i * batch_size) ((i + 1) * batch_size),
                slice train_Y (i * batch_size) ((i + 1) * batch_size))
               (model st, optimizer st) with
       | Ok r =>
           ([Slice (i * batch_size) ((i + 1) * batch_size);
             Step (fst (snd r)) (snd (snd r))],
            Ok {| model := fst (fst r);
                  optimizer := snd (fst r);
                  train_running_loss :=
                    float_add (train_running_loss st) (fst (snd r));
                  train_acc := float_add (train_acc st) (snd (snd r)) |})
       | Raise e => ([Slice (i * batch_size) ((i + 1) * batch_size)], Raise e)
       end) /\
  match epochs_reference num_epochs (minibatches train_X train_Y nb) s with
  | Ok r =>
      training train_X train_Y (Z.of_nat nb) s = (run_log (snd r), Ok (fst r))
      /\ length (snd r) = num_epochs
      /\ Forall (fun e => length (epoch_steps e) = nb) (snd r)
  | Raise e => snd (training train_X train_Y (Z.of_nat nb) s) = Raise e
  end /\
  (let run := training train_X train_Y (Z.of_nat nb) s in
   is_prefix (slices (fst run)) (run_schedule nb) /\
   (forall s', snd run = Ok s' -> slices (fst run) = run_schedule nb)) /\
  length (minibatches train_X train_Y nb) = nb /\
  (forall i, i < nb ->
     exists X_local_minibatch y_local_minibatch,
       nth_error (minibatches train_X train_Y nb) i
       = Some (X_local_minibatch, y_local_minibatch) /\
       length X_local_minibatch = batch_size /\
       (forall j, j < batch_size ->
          nth_error X_local_minibatch j
          = nth_error train_X (i * batch_size + j)) /\
       (forall j, j < batch_size ->
          nth_error y_local_minibatch j
          = nth_error train_Y (i * batch_size + j))) /\
  (forall lo hi, In (lo, hi) (run_schedule nb) ->
     lo + batch_size = hi /\ hi <= nb * batch_size) /\
  (forall train_X' train_Y',
     length train_X' = N ->
     firstn (nb * batch_size) train_X' = firstn (nb * batch_size) train_X ->
     firstn (nb * batch_size) train_Y' = firstn (nb * batch_size) train_Y ->
     training train_X' train_Y' (Z.of_nat nb) s
     = training train_X train_Y (Z.of_nat nb) s).
Proof.
  intros N nb HN. split; [apply num_batches_floor; exact HN|].
  split; [intros i st; apply train_batch_step|].
  split; [apply training_refine|].
  split.
  { pose proof (training_slices train_X train_Y (Z.of_nat nb) reinit_hidden s) as H.
    rewrite Nat2Z.id in H. exact H. }
  split; [apply minibatches_length|].
  split.
  { intros i Hi.
    assert (Hb : (i + 1) * batch_size <= N).
    { transitivity (nb * batch_size).
      - apply Nat.mul_le_mono_r. lia.
      - subst nb. rewrite Nat.mul_comm. apply Nat.Div0.mul_div_le. }
    exists (slice train_X (i * batch_size) ((i + 1) * batch_size)),
           (slice train_Y (i * batch_size) ((i + 1) * batch_size)).
    split; [|split; [|split]].
    - unfold minibatches, range.
      erewrite map_nth_error by (apply nth_error_seq_lt; exact Hi).
      reflexivity.
    - rewrite slice_length by exact Hb. unfold batch_size. lia.
    - intros j Hj. apply slice_nth_error. unfold batch_size in *. lia.
    - intros j Hj. apply slice_nth_error. unfold batch_size in *. lia. }
  split; [apply schedule_in_bounds|].
  intros train_X' train_Y' _ HX HY.
  apply training_prefix_only; assumption.
Qed.

Lemma minibatch_schedule_witness :
  let train_X := Toy.examples 36 in
  let train_Y := Toy.labels 36 in
  let run := training (T := Toy.backend) train_X train_Y 1 Toy.initial in
  num_batches (T := Toy.backend) train_X = Ok 1%Z /\
  slices (fst run) = run_schedule 1 /\
  (exists X_local_minibatch y_local_minibatch,
      nth_error (minibatches (T := Toy.backend) train_X train_Y 1) 0
      = Some (X_local_minibatch, y_local_minibatch) /\
      length X_local_minibatch = 35) /\
  training (T := Toy.backend)
    (Toy.examples 35 ++ [[[0%Q]]]) (Toy.labels 35 ++ [[7%Z]]) 1 Toy.initial
  = run.
Proof.
  intros train_X train_Y run.
  pose proof (minibatch_schedule (T := Toy.backend) train_X train_Y Toy.initial)
    as H.
  cbv zeta in H.
  match type of H with
  | context [?n / batch_size] =>
      assert (Hn : n / batch_size = 1) by (vm_compute; reflexivity)
  end.
  rewrite Hn in H. change (Z.of_nat 1) with 1%Z in H.
  fold run in H.
  destruct H as (Hnb & _ & _ & [_ Hfull] & _ & Hslice & _ & Htail).
  { vm_compute. reflexivity. }
  split; [exact Hnb|]. split.
  - assert (Hr : exists s', snd run = Ok s').
    { apply is_ok_inv. vm_compute. reflexivity. }
    destruct Hr as [s' Hr]. exact (Hfull s' Hr).
  - split.
    + destruct (Hslice 0 ltac:(lia)) as (X0 & Y0 & Hnth & Hlen & _).
      exists X0, Y0. split; assumption.
    + apply Htail.
      * vm_compute; reflexivity.
      * vm_compute; reflexivity.
      * vm_compute; reflexivity.
Defined.

(** Past the bound line 113 no longer computes the floor: for
    [N = 35 * 2^48 + 34] the binary64 quotient rounds up to [2^48 + 1],
    one more than [floor(N / 35)], so the loop would ask for a minibatch
    beyond the data. *)
Lemma num_batches_counterexample :
  let train_X := repeat ([] : tensor2 Q) (Z.to_nat 9851624184872994) in
  num_batches (T := Toy.backend) train_X = Ok 281474976710657%Z /\
  (Z.of_nat (length train_X) / 35 = 281474976710656)%Z.
Proof.
  intros train_X. subst train_X. unfold num_batches.
  split.
  - rewrite repeat_length, Z2Nat.id by lia. vm_compute. reflexivity.
  - rewrite repeat_length, Z2Nat.id by lia. reflexivity.
Qed.

(** ** The cache check (C5) *)

Lemma forallb_false_exists {A} (f : A -> bool) (l : list A) :
  forallb f l = false -> exists x, In x l /\ f x = false.
Proof.
  induction l as [|x l IH]; simpl; [discriminate|].
  destruct (f x) eqn:Hx; simpl.
  - intros H. destruct (IH H) as (y & Hy & Hf). exists y. tauto.
  - intros _. exists x. tauto.
Qed.

(** C5.  At start-up the script calls [load_deserialize_data] if and only
    if all six cache files exist, and [load_preprocess_data] if and only if
    at least one of them is missing.  It makes exactly one of the two calls,
    once, and the data it goes on with are what that one call returned: no
    array is taken from the cache next to a regenerated one. *)
Theorem cache_check `{E : Env.Environment} (w : Env.world) :
  let genre_features := Env.GenreFeatureData_new in
  let log := fst (load_data w) in
  (In Call_load_deserialize_data log <->
   forall p, In p (cache_paths genre_features) -> Env.isfile w p = true) /\
  (In Call_load_preprocess_data log <->
   exists p, In p (cache_paths genre_features) /\ Env.isfile w p = false) /\
  length (filter is_loader_call log) = 1 /\
  snd (load_data w)
  = if forallb (Env.isfile w) (cache_paths genre_features)
    then Env.load_deserialize_data genre_features w
    else Env.load_preprocess_data genre_features w.
Proof.
  intros genre_features log. subst log. unfold load_data.
  fold genre_features.
  match goal with
  | |- context [if ?c then _ else _] =>
      assert (Hc : c = forallb (Env.isfile w) (cache_paths genre_features))
        by (unfold cache_paths; simpl; rewrite andb_true_r, !andb_assoc;
            reflexivity);
      rewrite !Hc
  end.
  destruct (forallb (Env.isfile w) (cache_paths genre_features)) eqn:Hall;
    cbn -[In cache_paths].
  - pose proof (proj1 (forallb_forall _ _) Hall) as Hex.
    repeat split; try reflexivity.
    + intros _. exact Hex.
    + intros _. simpl. tauto.
    + intros [H|[H|[]]]; discriminate H.
    + intros (p & Hp & Hf). rewrite (Hex p Hp) in Hf. discriminate Hf.
  - repeat split; try reflexivity.
    + intros [H|[H|[]]]; discriminate H.
    + intros H. apply forallb_forall in H. congruence.
    + intros _. apply forallb_false_exists. exact Hall.
    + intros _. simpl. tauto.
Qed.

Lemma cache_check_witness :
  let E := Toy.environment (Toy.dataset 36 3) in
  In Call_load_preprocess_data
     (fst (load_data (E := E)
             ["train_X.npy"; "train_Y.npy"; "dev_X.npy"; "dev_Y.npy";
              "test_X.npy"]%string)) /\
  In Call_load_deserialize_data (fst (load_data (E := E) Toy.cache_files)).
Proof.
  intros E. split.
  - apply (cache_check (E := E)).
    exists "test_Y.npy"%string. split; [simpl; tauto | reflexivity].
  - apply (cache_check (E := E)).
    intros p [<-|[<-|[<-|[<-|[<-|[<-|[]]]]]]]; reflexivity.
Defined.

(** ** [init_hidden] (C7) *)

Lemma zeros_shape {A} (z : A) (d0 d1 d2 : nat) :
  has_shape3 (zeros z d0 d1 d2) d0 d1 d2.
Proof.
  unfold has_shape3, zeros. split; [apply repeat_length|].
  apply Forall_forall. intros m Hm. apply repeat_spec in Hm. subst m.
  split; [apply repeat_length|].
  apply Forall_forall. intros r Hr. apply repeat_spec in Hr. subst r.
  apply repeat_length.
Qed.

Lemma zeros_all_zero {A} (z : A) (d0 d1 d2 : nat) :
  Forall (Forall (Forall (eq z))) (zeros z d0 d1 d2).
Proof.
  unfold zeros. apply Forall_forall. intros m Hm. apply repeat_spec in Hm. subst m.
  apply Forall_forall. intros r Hr. apply repeat_spec in Hr. subst r.
  apply Forall_forall. intros x Hx. apply repeat_spec in Hx. congruence.
Qed.

(** C7.  For every model, [init_hidden] returns a pair of tensors, each of
    shape exactly [[num_layers, batch_size, hidden_dim]] and with every entry
    zero; the pair is determined by these three attributes alone, and the
    model after the call is the model before it. *)
Theorem init_hidden_zeros `{T : Backend} (self : LSTM.t) :
  let h := fst (fst (LSTM.init_hidden self)) in
  let c := snd (fst (LSTM.init_hidden self)) in
  has_shape3 h (LSTM.num_layers self) (LSTM.batch_size self) (LSTM.hidden_dim self) /\
  has_shape3 c (LSTM.num_layers self) (LSTM.batch_size self) (LSTM.hidden_dim self) /\
  Forall (Forall (Forall (eq zero))) h /\
  Forall (Forall (Forall (eq zero))) c /\
  snd (LSTM.init_hidden self) = self /\
  forall other : LSTM.t,
    LSTM.num_layers other = LSTM.num_layers self ->
    LSTM.batch_size other = LSTM.batch_size self ->
    LSTM.hidden_dim other = LSTM.hidden_dim self ->
    fst (LSTM.init_hidden other) = fst (LSTM.init_hidden self).
Proof.
  simpl. repeat split;
    try apply zeros_shape; try apply zeros_all_zero.
  intros other H1 H2 H3. unfold LSTM.init_hidden. simpl.
  rewrite H1, H2, H3. reflexivity.
Qed.

Lemma init_hidden_zeros_witness :
  let self := LSTM.__init__ (T := Toy.backend) 33 128 35 8 2 in
  has_shape3 (fst (fst (LSTM.init_hidden self))) 2 35 128 /\
  fst (LSTM.init_hidden
         (LSTM.with_parameters self
            ({| Toy.input_size := 33; Toy.hidden_size := 128;
                Toy.weight := 5%Q |},
             {| Toy.in_features := 128; Toy.out_features := 8;
                Toy.bias := 7%Q |})))
  = fst (LSTM.init_hidden self).
Proof.
  intros self.
  destruct (init_hidden_zeros self) as (Hh & _ & _ & _ & _ & Hcfg).
  split; [exact Hh|].
  apply Hcfg; reflexivity.
Defined.

(** ** The label conversion (C6) *)

Lemma max_from_dominated (best : Z) (bi i : nat) (l : list Z) :
  Forall (fun x => (x <= best)%Z) l ->
  max_from Z.ltb best bi i l = (best, bi).
Proof.
  revert i. induction l as [|x l IH]; intros i H; simpl; [reflexivity|].
  inversion H as [|? ? Hx Hl]; subst.
  destruct (Z.ltb_spec best x); [lia|]. apply IH. exact Hl.
Qed.

Lemma one_hot_tail_zero (x : Z) (l : list Z) :
  (forall j, j <> 0 -> j < length (x :: l) -> nth_error (x :: l) j = Some 0%Z) ->
  Forall (fun y => y = 0%Z) l.
Proof.
  intros H. apply Forall_forall. intros y Hy.
  apply In_nth_error in Hy. destruct Hy as [j Hj].
  assert (Hlt : j < length l) by (apply nth_error_Some; congruence).
  specialize (H (S j) ltac:(lia) ltac:(simpl; lia)). simpl in H. congruence.
Qed.

Lemma max_from_one_hot (l : list Z) :
  forall (k bi i : nat),
    is_one_hot l k ->
    max_from Z.ltb 0%Z bi i l = (1%Z, i + k).
Proof.
  induction l as [|y l IH]; intros k bi i [H1 H0].
  - destruct k; discriminate H1.
  - destruct k as [|k]; simpl in H1.
    + inversion H1; subst y. simpl.
      rewrite max_from_dominated; [f_equal; lia|].
      apply one_hot_tail_zero in H0.
      eapply Forall_impl; [|exact H0]. simpl. intros; lia.
    + assert (Hy : y = 0%Z).
      { specialize (H0 0 ltac:(lia) ltac:(simpl; lia)). simpl in H0. congruence. }
      subst y. simpl. rewrite (IH k bi (S i)); [f_equal; lia|].
      split; [exact H1|]. intros j Hj Hlt.
      apply (H0 (S j)); simpl; lia.
Qed.

Lemma max_row_one_hot (row : list Z) (k : nat) :
  is_one_hot row k -> max_row Z.ltb row = Ok (1%Z, Z.of_nat k).
Proof.
  intros H. destruct row as [|x l].
  - destruct H as [H1 _]. destruct k; discriminate H1.
  - unfold max_row. destruct k as [|k].
    + destruct H as [H1 H0]. simpl in H1. inversion H1; subst x.
      rewrite max_from_dominated; [reflexivity|].
      apply one_hot_tail_zero in H0.
      eapply Forall_impl; [|exact H0]. simpl. intros; lia.
    + destruct H as [H1 H0].
      assert (Hx : x = 0%Z).
      { specialize (H0 0 ltac:(lia) ltac:(simpl; lia)). simpl in H0. congruence. }
      subst x. rewrite (max_from_one_hot (k := k)); [reflexivity|].
      split; [exact H1|]. intros j Hj Hlt.
      apply (H0 (S j)); simpl; lia.
Qed.

Lemma max_dim1_one_hot (Y : list (list Z)) (ks : list nat) :
  Forall2 is_one_hot Y ks ->
  max_dim1 Z.ltb Y = Ok (map (fun _ => 1%Z) ks, map Z.of_nat ks).
Proof.
  intros H. unfold max_dim1.
  assert (Hm : mapM (max_row Z.ltb) Y
               = Ok (map (fun k => (1%Z, Z.of_nat k)) ks)).
  { induction H as [|row k Y ks Hrow _ IH]; simpl; [reflexivity|].
    rewrite (max_row_one_hot Hrow). simpl. rewrite IH. reflexivity. }
  rewrite Hm. simpl. rewrite !map_map. reflexivity.
Qed.

(** C6.  The label conversion of the loop, the indices of [torch.max] over
    the class axis, maps every one-hot label row to the index of its single
    1; the label [[0,0,1,0,0,0,0,0]] becomes the class index 2. *)
Theorem label_conversion :
  (forall (y_local_minibatch : list (list Z)) (classes : list nat),
      Forall2 is_one_hot y_local_minibatch classes ->
      exists m, max_dim1 Z.ltb y_local_minibatch = Ok m /\
                snd m = map Z.of_nat classes) /\
  (exists m, max_dim1 Z.ltb [[0; 0; 1; 0; 0; 0; 0; 0]%Z] = Ok m /\
             snd m = [2%Z]).
Proof.
  split.
  - intros Y ks H. eexists. split; [apply max_dim1_one_hot; exact H|reflexivity].
  - eexists. split; reflexivity.
Qed.

Lemma label_conversion_witness :
  exists m, max_dim1 Z.ltb [[0; 1]%Z; [1; 0]%Z; [0; 0; 0; 1]%Z] = Ok m /\
            snd m = [1%Z; 0%Z; 3%Z].
Proof.
  apply (proj1 label_conversion _ [1; 0; 3]).
  repeat constructor;
    intros j Hj Hlt; simpl in Hlt;
    do 4 (destruct j as [|j]; [first [reflexivity | lia]|]);
    lia.
Defined.


(** ** The reinitialisation of [model.hidden] (C4) *)

Lemma same_run_bind {A B} (R : A -> A -> Prop) (R' : B -> B -> Prop)
      (m1 m2 : W A) (k1 k2 : A -> W B) :
  same_run R m1 m2 ->
  (forall a b, R a b -> same_run R' (k1 a) (k2 b)) ->
  same_run R' (W.bind m1 k1) (W.bind m2 k2).
Proof.
  intros [Hlog Hres] Hk. rewrite !bind_unfold.
  destruct (snd m1) as [a|e1], (snd m2) as [b|e2]; try contradiction.
  - destruct (Hk a b Hres) as [Hlog' Hres']. split; simpl.
    + rewrite Hlog, Hlog'. reflexivity.
    + exact Hres'.
  - split; simpl; assumption.
Qed.

Lemma same_run_for_each {A S} (R : S -> S -> Prop) (f g : A -> S -> W S)
      (l : list A) :
  (forall x s1 s2, R s1 s2 -> same_run R (f x s1) (g x s2)) ->
  forall s1 s2, R s1 s2 -> same_run R (W.for_each f l s1) (W.for_each g l s2).
Proof.
  intros Hfg. induction l as [|x l IH]; intros s1 s2 HR; simpl.
  - split; [reflexivity | exact HR].
  - eapply same_run_bind; [apply Hfg; exact HR | exact IH].
Qed.

Section DeadHidden.
Context {T : Backend}.

Lemma forward_ignores_hidden (m1 m2 : LSTM.t) (input : tensor3 scalar) :
  agree m1 m2 -> LSTM.forward m1 input = LSTM.forward m2 input.
Proof.
  intros (_ & _ & _ & _ & Hl & Hlin). unfold LSTM.forward.
  rewrite Hl, Hlin. reflexivity.
Qed.

Lemma agree_refl (m : LSTM.t) : agree m m.
Proof. repeat split. Qed.

Lemma train_batch_agree train_X train_Y (i : nat) (s1 s2 : train_state) :
  agree_state s1 s2 ->
  same_run agree_state (train_batch train_X train_Y i s1)
                       (train_batch train_X train_Y i s2).
Proof.
  intros ((Hin & Hhid & Hbs & Hnl & Hl & Hlin) & Ho & Hloss & Hacc).
  unfold train_batch, W.emit, W.lift, W.ret.
  unfold LSTM.parameters, LSTM.forward, LSTM.get_accuracy. simpl.
  rewrite Hl, Hlin, Ho, Hloss, Hacc, Hbs.
  destruct (max_dim1 Z.ltb _) as [m|e]; simpl; [|split; reflexivity].
  destruct (lstm_call _ None _) as [[lstm_out hidden]|e]; simpl;
    [|split; reflexivity].
  destruct (last_item lstm_out) as [x|e]; simpl; [|split; reflexivity].
  destruct (linear_call _ x) as [y_pred|e]; simpl; [|split; reflexivity].
  destruct (nll_loss _ _) as [loss|e]; simpl; [|split; reflexivity].
  destruct (max_dim1 ltb _) as [p|e]; simpl; [|split; reflexivity].
  destruct (view _ _) as [pred|e]; simpl; [|split; reflexivity].
  split; [reflexivity|]. simpl.
  repeat split; simpl; congruence.
Qed.

Lemma train_epoch_agree train_X train_Y nb (epoch : nat)
      (s1 s2 : LSTM.t * adam) :
  agree_pair s1 s2 ->
  same_run agree_pair
    (train_epoch train_X train_Y nb epoch s1)
    (train_epoch_with train_X train_Y nb (fun model => model) epoch s2).
Proof.
  intros [Hm Ho]. unfold train_epoch, train_epoch_with. cbv zeta.
  eapply same_run_bind.
  - apply same_run_for_each; [intros; apply train_batch_agree; assumption|].
    repeat split; simpl; try assumption; apply Hm.
  - intros st1 st2 (Hmodel & Hopt & Hloss & Hacc).
    rewrite Hloss, Hacc. unfold W.lift, W.emit, W.ret.
    destruct (float_div_int (train_running_loss st2) nb); simpl;
      [|split; reflexivity].
    destruct (float_div_int (train_acc st2) nb); simpl;
      [|split; reflexivity].
    split; [reflexivity|]. simpl. split; assumption.
Qed.

Lemma training_agree train_X train_Y nb (s : LSTM.t * adam) :
  same_run agree_pair
    (training train_X train_Y nb s)
    (training_with train_X train_Y nb (fun model => model) s).
Proof.
  unfold training, training_with.
  apply same_run_for_each.
  - intros epoch s1 s2 H. apply train_epoch_agree. exact H.
  - split; [apply agree_refl | reflexivity].
Qed.

End DeadHidden.

Lemma same_run_refl {A} (m : W A) : same_run eq m m.
Proof. split; [reflexivity|]. destruct (snd m); reflexivity. Qed.

Lemma same_run_discard {A} (R : A -> A -> Prop) (m1 m2 : W A) :
  same_run R m1 m2 ->
  W.bind m1 (fun _ => W.ret tt) = W.bind m2 (fun _ => W.ret tt).
Proof.
  intros [Hlog Hres]. rewrite !bind_unfold.
  destruct (snd m1) as [a|e1], (snd m2) as [b|e2]; try contradiction; simpl;
    congruence.
Qed.

Lemma train_script_agree `{E : Env.Environment}
      (genre_features : Env.GenreFeatureData) :
  same_run agree_pair
    (train_script genre_features)
    (train_script_with (fun model => model) genre_features).
Proof.
  unfold train_script, train_script_with. cbv zeta.
  do 6 (eapply same_run_bind; [apply same_run_refl | intros ? ? _]).
  eapply same_run_bind; [apply same_run_refl | intros nb ? <-].
  apply training_agree.
Qed.

(** C4.  Assigning a zero state to [model.hidden] at the start of each epoch
    changes nothing: [forward] calls the recurrent layer with no initial
    state, so its output is the same whatever [model.hidden] holds; the
    training loop with the assignment and the loop without it log the same
    slices, losses, accuracies and printed lines and end the same way, their
    final models differing in [hidden] at most; and the whole script with
    line 120 removed behaves as the script does. *)
Theorem hidden_reinit_is_dead `{E : Env.Environment} :
  (forall (self : LSTM.t) h (input : tensor3 scalar),
      LSTM.forward (LSTM.set_hidden self h) input = LSTM.forward self input) /\
  (forall train_X train_Y num_batches s,
      same_run agree_pair
        (training train_X train_Y num_batches s)
        (training_with train_X train_Y num_batches (fun model => model) s)) /\
  (forall w, main w = main_with (fun model => model) w).
Proof.
  split; [|split].
  - intros self h input. apply forward_ignores_hidden. repeat split.
  - intros. apply training_agree.
  - intros w. unfold main, main_with. rewrite !bind_unfold.
    destruct (snd (load_data w)) as [loaded|e]; [|reflexivity].
    pose proof (same_run_discard (train_script_agree (fst loaded))) as Hd.
    unfold train_script in Hd. cbv beta. rewrite Hd. reflexivity.
Qed.

(** ** The test tensors (C9) *)

(** C9.  The training loop never reads the test tensors: two runs of the
    script on loaded data that differ only in the contents of [test_X] and
    [test_Y], the shapes being equal, log the same events, every per-epoch
    loss, accuracy and printed line included, and end the same way. *)
Theorem test_data_noninterference `{E : Env.Environment}
    (genre_features genre_features' : Env.GenreFeatureData) :
  Env.train_X genre_features = Env.train_X genre_features' ->
  Env.train_Y genre_features = Env.train_Y genre_features' ->
  shape (Env.test_X genre_features) = shape (Env.test_X genre_features') ->
  shape (Env.test_Y genre_features) = shape (Env.test_Y genre_features') ->
  train_script genre_features = train_script genre_features'.
Proof.
  intros HX HY HtX HtY.
  unfold train_script, train_script_with. cbv zeta.
  rewrite HX, HY, HtX, HtY. reflexivity.
Qed.

Lemma test_data_noninterference_witness :
  let d := Toy.dataset 36 3 in
  let d' :=
    {| Toy.train_X := Toy.train_X d;
       Toy.train_Y := Toy.train_Y d;
       Toy.test_X := {| items := tl (Toy.examples 4);
                        item_shape := [2; 33] |};
       Toy.test_Y := {| items := tl (Toy.labels 4);
                        item_shape := [8] |} |} in
  Toy.test_X d <> Toy.test_X d' /\
  train_script (E := Toy.environment d) d = train_script (E := Toy.environment d) d'.
Proof.
  intros d d'. split.
  - intros H. vm_compute in H. discriminate H.
  - apply (test_data_noninterference (E := Toy.environment d)); reflexivity.
Defined.


(** ** [get_accuracy] (C2, C10) *)

Lemma mapM_max_row {A} (ltb : A -> A -> bool) (logits : tensor2 A) :
  Forall (fun r => r <> []) logits ->
  exists rows, mapM (max_row ltb) logits = Ok rows /\
               Forall2 (fun row p => max_row ltb row = Ok p) logits rows.
Proof.
  induction 1 as [|row logits Hrow _ [rows [Hm Hrows]]]; simpl.
  - exists []. split; [reflexivity | constructor].
  - destruct row as [|x l]; [congruence|].
    destruct (max_row ltb (x :: l)) as [p|e] eqn:Hp.
    + simpl. rewrite Hm. simpl. exists (p :: rows).
      split; [reflexivity | constructor; assumption].
    + unfold max_row in Hp. destruct (max_from ltb x 0 1 l). discriminate Hp.
Qed.

Lemma max_dim1_ok {A} (ltb : A -> A -> bool) (t : tensor2 A) :
  Forall (fun r => r <> []) t ->
  exists m, max_dim1 ltb t = Ok m /\ length (snd m) = length t.
Proof.
  intros H. destruct (mapM_max_row ltb H) as [rows [Hm HF]].
  unfold max_dim1. rewrite Hm. simpl. eexists. split; [reflexivity|].
  simpl. rewrite length_map. symmetry. exact (Forall2_length HF).
Qed.

(** *** The arithmetic of [100.0 * corrects / batch_size] in binary32 *)

Lemma round32_100 : round binary32 100%Q = Fin 100%Q.
Proof. vm_compute. reflexivity. Qed.

Lemma round32_35 : round binary32 35%Q = Fin 35%Q.
Proof. vm_compute. reflexivity. Qed.

Lemma of_int_small (n : nat) :
  (Z.of_nat n < 2 ^ 24)%Z -> of_int (Z.of_nat n) = Fin (inject_Z (Z.of_nat n)).
Proof.
  intros H. unfold of_int.
  apply (@round_int binary32 binary32_prec binary32_emax). simpl. lia.
Qed.

(** While [100 * c] stays below [2^26] the product is exact. *)
Lemma mul_100_exact (c : nat) :
  (100 * Z.of_nat c < 2 ^ 26)%Z ->
  mul (Fin 100%Q) (of_int (Z.of_nat c))
  = Fin (Qred (100 * inject_Z (Z.of_nat c))).
Proof.
  intros Hc. rewrite of_int_small by lia. unfold mul, ieee_mul.
  destruct c as [|c].
  - reflexivity.
  - apply (@round_exact binary32 _ (25 * Z.of_nat (S c)) 2 26).
    + apply Qmult_lt_0_compat; [reflexivity | apply inject_Z_pos; lia].
    + rewrite inject_Z_mult. change (pow2 2) with 4%Q.
      change (inject_Z 25) with 25%Q. ring.
    + rewrite pow2_int by lia. change 100%Q with (inject_Z 100).
      rewrite <- inject_Z_mult, <- Zlt_Qlt. exact Hc.
    + simpl. lia.
    + simpl. lia.
    + simpl. lia.
Qed.

(** The accuracy of [c] matches for a model built for [bs] rows, both small
    enough for the product to be exact: the binary32 number nearest to
    [100 * c / bs]. *)
Lemma accuracy_nearest (c bs : nat) :
  0 < bs -> (Z.of_nat bs < 2 ^ 24)%Z -> (100 * Z.of_nat c < 2 ^ 26)%Z ->
  div (mul (Fin 100%Q) (of_int (Z.of_nat c))) (of_int (Z.of_nat bs))
  = round binary32 (100 * inject_Z (Z.of_nat c) / inject_Z (Z.of_nat bs)).
Proof.
  intros Hbs Hb Hc. rewrite (mul_100_exact c Hc), (of_int_small bs Hb).
  unfold div, ieee_div.
  rewrite is_zero_pos by (apply inject_Z_pos; lia).
  apply (@round_morph binary32). rewrite Qred_correct. reflexivity.
Qed.

Lemma quotient_bounds (c n : nat) :
  0 < n -> c <= n ->
  (0 <= 100 * inject_Z (Z.of_nat c) / inject_Z (Z.of_nat n) <= 100)%Q.
Proof.
  intros Hn Hc.
  assert (Hpos : (0 < inject_Z (Z.of_nat n))%Q) by (apply inject_Z_pos; lia).
  split.
  - apply Qle_shift_div_l; [exact Hpos|]. rewrite Qmult_0_l.
    apply Qmult_le_0_compat; [discriminate|].
    change 0%Q with (inject_Z 0). rewrite <- Zle_Qle. lia.
  - apply Qle_shift_div_r; [exact Hpos|].
    apply Qmult_le_l; [reflexivity|]. rewrite <- Zle_Qle. lia.
Qed.

(** A quotient between 0 and 100 is rounded to a float between 0 and 100,
    within [2^-18] of it. *)
Lemma round32_percentage (x : Q) :
  (0 <= x <= 100)%Q ->
  exists q, round binary32 x = Fin q /\ (0 <= q <= 100)%Q /\
            (Qabs (q - x) <= 1 # 262144)%Q.
Proof.
  intros [H0 H100].
  destruct (@round_mono binary32 binary32_prec x 100 100 H0 H100 round32_100)
    as (q & Hq & Hb).
  exists q. split; [exact Hq|]. split; [exact Hb|].
  destruct (Qlt_le_dec 0 x) as [Hpos|Hle].
  - change (1 # 262144)%Q with (pow2 (7 - prec binary32 - 1)).
    apply (@round_error binary32 x q 7 Hpos); [|simpl; lia | exact Hq].
    change (pow2 7) with 128%Q. Lqa.lra.
  - assert (Hx : (x == 0)%Q) by (apply Qle_antisym; assumption).
    rewrite (@round_0 binary32 x Hx) in Hq.
    assert (Hq0 : q = 0%Q) by congruence. subst q.
    rewrite Hx. discriminate.
Qed.

(** The accuracy of at most 35 matches, for a model built for 35 rows or
    more, however many: a finite value between 0 and 100. *)
Lemma accuracy_percentage (c bs : nat) :
  c <= batch_size -> batch_size <= bs ->
  is_percentage (div (mul (Fin 100%Q) (of_int (Z.of_nat c)))
                     (of_int (Z.of_nat bs))).
Proof.
  unfold batch_size. intros Hc Hbs.
  rewrite mul_100_exact by lia. unfold div, ieee_div, of_int.
  assert (H35 : (0 <= 35 <= inject_Z (Z.of_nat bs))%Q).
  { split; [discriminate|]. change 35%Q with (inject_Z 35).
    rewrite <- Zle_Qle. lia. }
  pose proof (@round_nonneg binary32 (inject_Z (Z.of_nat bs))
                ltac:(destruct H35; Lqa.lra)) as Hnn.
  destruct (round binary32 (inject_Z (Z.of_nat bs))) as [d| |] eqn:Hd;
    [|simpl; split; discriminate | contradiction].
  destruct (@round_mono binary32 binary32_prec 35 _ d
              (proj1 H35) (proj2 H35) Hd) as (r & Hr & Hrb).
  rewrite round32_35 in Hr. assert (r = 35%Q) by congruence. subst r.
  assert (Hdpos : (0 < d)%Q) by Lqa.lra.
  rewrite (is_zero_pos Hdpos).
  destruct (@round32_percentage (Qred (100 * inject_Z (Z.of_nat c)) / d))
    as (q & Hq & Hb & _).
  { rewrite Qred_correct.
    assert (Hc' : (inject_Z (Z.of_nat c) <= 35)%Q).
    { change 35%Q with (inject_Z 35). rewrite <- Zle_Qle. lia. }
    assert (Hc0 : (0 <= inject_Z (Z.of_nat c))%Q).
    { change 0%Q with (inject_Z 0). rewrite <- Zle_Qle. lia. }
    split.
    - apply Qle_shift_div_l; [exact Hdpos|]. Lqa.lra.
    - apply Qle_shift_div_r; [exact Hdpos|]. Lqa.lra. }
  rewrite Hq. exact Hb.
Qed.

(** *** The arg-max *)

Section ArgMax.
Context {T : Backend} {O : ScalarOrder T}.

(** The scan keeps the first maximal entry. *)
Lemma max_from_first_max (l : list scalar) :
  forall (pre : list scalar) (best : scalar) (bi i : nat),
    length pre = i ->
    nth_error pre bi = Some best ->
    (forall j x, nth_error pre j = Some x -> ltb best x = false) ->
    (forall j x, j < bi -> nth_error pre j = Some x -> ltb x best = true) ->
    exists v k,
      max_from ltb best bi i l = (v, k) /\
      nth_error (pre ++ l) k = Some v /\
      (forall j x, nth_error (pre ++ l) j = Some x -> ltb v x = false) /\
      (forall j x, j < k -> nth_error (pre ++ l) j = Some x ->
                   ltb x v = true).
Proof.
  induction l as [|y l IH]; intros pre best bi i Hlen Hbest Hmax Hfirst.
  - exists best, bi. rewrite app_nil_r. repeat split; assumption.
  - assert (Hbi : bi < length pre) by (apply nth_error_Some; congruence).
    assert (Hsplit : forall j x,
               nth_error (pre ++ [y]) j = Some x ->
               (j < length pre /\ nth_error pre j = Some x) \/
               (j = length pre /\ x = y)).
    { intros j x Hj. destruct (Nat.lt_ge_cases j (length pre)) as [Hlt|Hge].
      - left. rewrite nth_error_app1 in Hj by exact Hlt. tauto.
      - right. rewrite nth_error_app2 in Hj by exact Hge.
        destruct (j - length pre) as [|d] eqn:Hd; simpl in Hj.
        + inversion Hj. split; [lia | reflexivity].
        + destruct d; discriminate Hj. }
    simpl. replace (pre ++ y :: l) with ((pre ++ [y]) ++ l)
      by (rewrite <- app_assoc; reflexivity).
    destruct (ltb best y) eqn:Hby.
    + apply IH.
      * rewrite length_app. simpl. lia.
      * rewrite nth_error_app2 by lia.
        replace (i - length pre) with 0 by lia. reflexivity.
      * intros j x Hj. destruct (Hsplit j x Hj) as [[_ Hp]|[_ ->]];
          [|apply ltb_irrefl].
        destruct (ltb y x) eqn:Hyx; [|reflexivity].
        pose proof (Hmax j x Hp) as Hbx.
        rewrite (ltb_trans _ _ _ Hby Hyx) in Hbx. discriminate Hbx.
      * intros j x Hji Hj. destruct (Hsplit j x Hj) as [[_ Hp]|[Hje _]]; [|lia].
        destruct (ltb_cotrans best x y Hby) as [H|H]; [|exact H].
        rewrite (Hmax j x Hp) in H. discriminate H.
    + apply IH.
      * rewrite length_app. simpl. lia.
      * rewrite nth_error_app1 by exact Hbi. exact Hbest.
      * intros j x Hj. destruct (Hsplit j x Hj) as [[_ Hp]|[_ ->]];
          [exact (Hmax j x Hp) | exact Hby].
      * intros j x Hjb Hj. destruct (Hsplit j x Hj) as [[_ Hp]|[Hje _]]; [|lia].
        exact (Hfirst j x Hjb Hp).
Qed.

Lemma max_row_first_max (row : list scalar) :
  row <> [] ->
  exists v k, max_row ltb row = Ok (v, Z.of_nat k) /\ is_first_max row k.
Proof.
  destruct row as [|x l]; [congruence|]. intros _.
  destruct (@max_from_first_max l [x] x 0 1)
    as (v & k & Hmf & Hk & Hmax & Hfirst).
  - reflexivity.
  - reflexivity.
  - intros [|[|j]] y Hj; simpl in Hj; inversion Hj. apply ltb_irrefl.
  - intros j y Hj. lia.
  - exists v, k. unfold max_row. rewrite Hmf. split; [reflexivity|].
    exists v. repeat split; assumption.
Qed.

(** The classes [torch.max] finds are the first maxima of the rows. *)
Lemma argmax_classes (logits : tensor2 scalar) :
  Forall (fun r => r <> []) logits ->
  exists classes,
    Forall2 is_first_max logits classes /\
    Forall2 (fun row k => exists v, max_row ltb row = Ok (v, Z.of_nat k))
            logits classes.
Proof.
  induction 1 as [|row logits Hrow _ (classes & H1 & H2)].
  - exists []. split; constructor.
  - destruct (max_row_first_max Hrow) as (v & k & Hm & Hk).
    exists (k :: classes). split; constructor; try assumption.
    exists v. exact Hm.
Qed.

End ArgMax.

Section Accuracy.
Context {T : Backend}.

Lemma fold_add_count (target : list Z) :
  forall (logits : tensor2 scalar) (rows : list (scalar * Z)) (acc : Z),
    Forall2 (fun row p => max_row ltb row = Ok p) logits rows ->
    fold_left Z.add
      (map (fun p => if (fst p =? snd p)%Z then 1 else 0)%Z
           (combine (map snd rows) target)) acc
    = (acc + Z.of_nat (count_correct logits target))%Z.
Proof.
  unfold count_correct.
  induction target as [|c target IH]; intros logits rows acc H.
  - rewrite !combine_nil. simpl. lia.
  - destruct H as [|row p logits rows Hp H]; simpl; [lia|].
    rewrite Hp, (IH logits rows _ H).
    destruct (snd p =? c)%Z; simpl length; lia.
Qed.

Lemma count_correct_le (logits : tensor2 scalar) (target : list Z) :
  count_correct logits target <= length target.
Proof.
  unfold count_correct.
  etransitivity; [apply filter_length_le|].
  rewrite length_combine. lia.
Qed.

Lemma count_correct_matches (logits : tensor2 scalar) (classes : list nat) :
  Forall2 (fun row k => exists v, max_row ltb row = Ok (v, Z.of_nat k))
          logits classes ->
  forall target, count_correct logits target = matches classes target.
Proof.
  unfold count_correct, matches.
  induction 1 as [|row k logits classes [v Hv] _ IH]; intros target.
  - reflexivity.
  - destruct target as [|c target]; [reflexivity|].
    simpl. rewrite Hv. simpl.
    destruct (Z.of_nat k =? c)%Z; simpl; rewrite IH; reflexivity.
Qed.

(** What [get_accuracy] returns when there are as many rows of scores as
    entries in [target], whatever that number is. *)
Lemma get_accuracy_raw (self : LSTM.t) logits target :
  length logits = length target ->
  Forall (fun r => r <> []) logits ->
  LSTM.get_accuracy self logits target
  = Ok (div (mul (Fin 100%Q)
                 (of_int (Z.of_nat (count_correct logits target))))
            (of_int (Z.of_nat (LSTM.batch_size self)))).
Proof.
  intros Hlen Hrows. unfold LSTM.get_accuracy.
  destruct (mapM_max_row ltb Hrows) as [rows [Hm HF]].
  unfold max_dim1. rewrite Hm. simpl.
  assert (Hl : length (map snd rows) = length target).
  { rewrite length_map, <- (Forall2_length HF). exact Hlen. }
  unfold view. rewrite Hl, Nat.eqb_refl. simpl.
  unfold eq_sum. rewrite (fold_add_count target 0 HF). reflexivity.
Qed.

End Accuracy.

Lemma toy_order : ScalarOrder Toy.backend.
Proof.
  assert (Hlt : forall a b : Q, negb (Qle_bool b a) = true <-> (a < b)%Q).
  { intros a b. rewrite negb_true_iff. split.
    - intros H. apply Qnot_le_lt. intros Hle.
      apply Qle_bool_iff in Hle. congruence.
    - intros H. destruct (Qle_bool b a) eqn:Hb; [|reflexivity].
      apply Qle_bool_iff in Hb. exfalso.
      exact (Qlt_irrefl _ (Qlt_le_trans _ _ _ H Hb)). }
  constructor; simpl.
  - intros a. apply negb_false_iff. apply Qle_bool_iff. apply Qle_refl.
  - intros a b c H1 H2. apply Hlt. apply Hlt in H1. apply Hlt in H2.
    eapply Qlt_trans; eassumption.
  - intros a b c H. apply Hlt in H.
    destruct (Qlt_le_dec a b) as [Hab|Hba].
    + left. apply Hlt. exact Hab.
    + right. apply Hlt. eapply Qle_lt_trans; eassumption.
Qed.

(** C2, as the code has it.  For scores none of which is [nan], logits of
    shape [[batch_size, num_classes]] and a target of [batch_size] class
    indices, with [1 <= batch_size <= 671088] and at least one class,
    [get_accuracy] returns the binary32 number nearest to
    [100 * count / batch_size], which is within [2^-18] of it, where
    [count] is the number of rows whose arg-max (the first maximal entry)
    is the target index; the value lies in [[0, 100]]. *)
Theorem get_accuracy_percentage `{T : Backend} {O : ScalarOrder T}
    (self : LSTM.t) (logits : tensor2 scalar) (target : list Z)
    (num_classes : nat) :
  0 < LSTM.batch_size self ->
  (Z.of_nat (LSTM.batch_size self) <= 671088)%Z ->
  0 < num_classes ->
  has_shape2 logits (LSTM.batch_size self) num_classes ->
  length target = LSTM.batch_size self ->
  exists (classes : list nat) (q : Q),
    Forall2 is_first_max logits classes /\
    LSTM.get_accuracy self logits target = Ok (Fin q) /\
    Fin q = round binary32
              (100 * inject_Z (Z.of_nat (matches classes target))
               / inject_Z (Z.of_nat (LSTM.batch_size self))) /\
    (Qabs (q - 100 * inject_Z (Z.of_nat (matches classes target))
               / inject_Z (Z.of_nat (LSTM.batch_size self)))
     <= 1 # 262144)%Q /\
    (0 <= q <= 100)%Q.
Proof.
  intros Hbs Hmax Hnc [Hrows Hcols] Hlen.
  assert (Hne : Forall (fun r => r <> []) logits).
  { eapply Forall_impl; [|exact Hcols]. simpl.
    intros r Hr Hnil. subst r. simpl in Hr. lia. }
  destruct (argmax_classes Hne) as (classes & Hfirst & Hscan).
  pose proof (count_correct_matches Hscan target) as Hcount.
  assert (Hle : matches classes target <= LSTM.batch_size self).
  { rewrite <- Hcount, <- Hlen. apply count_correct_le. }
  destruct (@round32_percentage
              (100 * inject_Z (Z.of_nat (matches classes target))
               / inject_Z (Z.of_nat (LSTM.batch_size self))))
    as (q & Hq & Hb & Herr).
  { apply quotient_bounds; assumption. }
  exists classes, q. split; [exact Hfirst|]. split.
  - rewrite get_accuracy_raw; [|congruence | exact Hne].
    rewrite Hcount, accuracy_nearest; [rewrite Hq; reflexivity | lia | lia | lia].
  - split; [symmetry; exact Hq|]. split; assumption.
Qed.

Lemma get_accuracy_percentage_witness :
  exists (classes : list nat) (q : Q),
    Forall2 (is_first_max (T := Toy.backend))
            [[1 # 2; 3 # 2]%Q; [2; 1]%Q; [0; 5]%Q] classes /\
    LSTM.get_accuracy (LSTM.__init__ (T := Toy.backend) 33 128 3 2 2)
      [[1 # 2; 3 # 2]%Q; [2; 1]%Q; [0; 5]%Q] [1; 1; 1]%Z = Ok (Fin q) /\
    (Qabs (q - 100 * inject_Z (Z.of_nat (matches classes [1; 1; 1]%Z))
               / inject_Z 3) <= 1 # 262144)%Q /\
    (0 <= q <= 100)%Q.
Proof.
  destruct (@get_accuracy_percentage Toy.backend toy_order
              (LSTM.__init__ (T := Toy.backend) 33 128 3 2 2)
              [[1 # 2; 3 # 2]%Q; [2; 1]%Q; [0; 5]%Q] [1; 1; 1]%Z 2)
    as (classes & q & Hfirst & Hq & _ & Herr & Hb).
  - simpl. lia.
  - simpl. lia.
  - lia.
  - split; [reflexivity | repeat constructor].
  - reflexivity.
  - exists classes, q. repeat split; try assumption; apply Hb.
Defined.

Lemma count_correct_repeat `{T : Backend} (x : scalar) (n : nat) :
  count_correct (repeat [x] n) (repeat 0%Z n) = n.
Proof.
  unfold count_correct. induction n as [|n IH]; simpl; [reflexivity|].
  rewrite IH. reflexivity.
Qed.

(** The claim as stated fails at both ends.  A model built with
    [batch_size = 0], given logits of shape [[0, 8]] and no target, gets
    [nan], which lies in no interval.  And a model built for 671091 rows
    that predicts every one of them right gets 100.00000762939453: the
    product [100 * 671091] is not a binary32 number and is rounded up
    before the division. *)
Lemma get_accuracy_range_counterexample :
  LSTM.get_accuracy (LSTM.__init__ (T := Toy.backend) 33 128 0 8 2) [] []
  = Ok NaN /\
  (let n := Z.to_nat 671091 in
   has_shape2 (repeat [0%Q] n) n 1 /\
   LSTM.get_accuracy (LSTM.__init__ (T := Toy.backend) 33 128 n 1 2)
     (repeat [0%Q] n) (repeat 0%Z n)
   = Ok (Fin (13107201 # 131072)%Q) /\
   (100 < 13107201 # 131072)%Q).
Proof.
  split; [reflexivity|]. intros n. split; [|split].
  - split; [apply repeat_length|].
    apply Forall_forall. intros r Hr. apply repeat_spec in Hr. subst r.
    reflexivity.
  - rewrite get_accuracy_raw.
    + rewrite (count_correct_repeat (T := Toy.backend)).
      cbn [LSTM.batch_size LSTM.__init__]. subst n.
      rewrite Z2Nat.id by lia. vm_compute. reflexivity.
    + rewrite !repeat_length. reflexivity.
    + apply Forall_forall. intros r Hr. apply repeat_spec in Hr. subst r.
      discriminate.
  - reflexivity.
Qed.

(** C10, as the code has it.  [get_accuracy] divides the number of matches
    by the [batch_size] the model was built with, not by the number of
    entries of [target]: called with as many rows of scores (none of them
    [nan]) as [target] has entries, however many, it returns the binary32
    value of [100.0 * corrects / batch_size], [corrects] being the number
    of rows whose first maximal score is at the target index; while
    [100 * corrects < 2^26] and [0 < batch_size < 2^24] that is the
    binary32 number nearest to the quotient.  And there are inputs with more
    entries than [batch_size] on which the value exceeds 100. *)
Theorem get_accuracy_fixed_divisor `{T : Backend} {O : ScalarOrder T} :
  (forall (self : LSTM.t) (logits : tensor2 scalar) (target : list Z),
      length logits = length target ->
      Forall (fun r => r <> []) logits ->
      exists classes : list nat,
        Forall2 is_first_max logits classes /\
        LSTM.get_accuracy self logits target
        = Ok (div (mul (Fin 100%Q)
                       (of_int (Z.of_nat (matches classes target))))
                  (of_int (Z.of_nat (LSTM.batch_size self)))) /\
        (0 < LSTM.batch_size self ->
         (Z.of_nat (LSTM.batch_size self) < 2 ^ 24)%Z ->
         (100 * Z.of_nat (matches classes target) < 2 ^ 26)%Z ->
         LSTM.get_accuracy self logits target
         = Ok (round binary32
                 (100 * inject_Z (Z.of_nat (matches classes target))
                  / inject_Z (Z.of_nat (LSTM.batch_size self)))))) /\
  (exists (self : LSTM.t) (logits : tensor2 scalar) (target : list Z) (q : Q),
      LSTM.batch_size self < length target /\
      LSTM.get_accuracy self logits target = Ok (Fin q) /\
      (100 < q)%Q).
Proof.
  split.
  - intros self logits target Hlen Hne.
    destruct (argmax_classes Hne) as (classes & Hfirst & Hscan).
    pose proof (count_correct_matches Hscan target) as Hcount.
    exists classes. split; [exact Hfirst|].
    rewrite (@get_accuracy_raw T self logits target Hlen Hne), Hcount.
    split; [reflexivity|]. intros Hbs Hb Hc.
    rewrite accuracy_nearest by assumption. reflexivity.
  - exists (LSTM.__init__ 33 128 1 8 2), [[zero]; [zero]], [0; 0]%Z, 200%Q.
    split; [simpl; lia|]. split; [vm_compute; reflexivity | reflexivity].
Qed.

Lemma get_accuracy_fixed_divisor_witness :
  exists classes : list nat,
    Forall2 (is_first_max (T := Toy.backend))
            [[1 # 2; 3 # 2]%Q; [2; 1]%Q; [0; 5]%Q] classes /\
    LSTM.get_accuracy (LSTM.__init__ (T := Toy.backend) 33 128 2 2 2)
      [[1 # 2; 3 # 2]%Q; [2; 1]%Q; [0; 5]%Q] [1; 0; 1]%Z
    = Ok (round binary32
            (100 * inject_Z (Z.of_nat (matches classes [1; 0; 1]%Z))
             / inject_Z 2)).
Proof.
  destruct (proj1 (@get_accuracy_fixed_divisor Toy.backend toy_order)
              (LSTM.__init__ (T := Toy.backend) 33 128 2 2 2)
              [[1 # 2; 3 # 2]%Q; [2; 1]%Q; [0; 5]%Q] [1; 0; 1]%Z)
    as (classes & Hfirst & Hraw & Hnear).
  - reflexivity.
  - repeat constructor; discriminate.
  - exists classes. split; [exact Hfirst|].
    apply Hnear.
    + simpl. lia.
    + simpl. lia.
    + assert (Hm : matches classes [1; 0; 1]%Z <= 3).
      { unfold matches. etransitivity; [apply filter_length_le|].
        rewrite length_combine. simpl. lia. }
      lia.
Defined.

(** The value is not the exact quotient: with [batch_size = 3] and two
    matches the result is 66.66666412353516, not [200 / 3]. *)
Lemma get_accuracy_exact_counterexample :
  LSTM.get_accuracy (LSTM.__init__ (T := Toy.backend) 33 128 3 2 2)
    [[1 # 2; 3 # 2]%Q; [2; 1]%Q; [0; 5]%Q] [1; 1; 1]%Z
  = Ok (Fin (8738133 # 131072)%Q) /\
  count_correct (T := Toy.backend)
    [[1 # 2; 3 # 2]%Q; [2; 1]%Q; [0; 5]%Q] [1; 1; 1]%Z = 2 /\
  ~ (8738133 # 131072 == 100 * inject_Z 2 / inject_Z 3)%Q.
Proof.
  split; [vm_compute; reflexivity|]. split; [reflexivity|].
  intros H. vm_compute in H. discriminate H.
Qed.

(** ** [forward] and the log-softmax (C3) *)

Section LogSoftmax.
Import RealModel.
Open Scope R_scope.

Lemma rsum_scale (f : R -> R) (c : R) (l : list R) :
  rsum (map (fun v => f v * c) l) = rsum (map f l) * c.
Proof.
  induction l as [|x l IH]; simpl; [ring|]. rewrite IH. ring.
Qed.

Lemma rsum_exp_pos (f : R -> R) (x : R) (l : list R) :
  0 < rsum (map (fun v => exp (f v)) (x :: l)).
Proof.
  revert x. induction l as [|y l IH]; intros x; simpl.
  - pose proof (exp_pos (f x)). lra.
  - pose proof (exp_pos (f x)). specialize (IH y). simpl in IH. lra.
Qed.

(** The exponentials of a log-softmax row sum to one. *)
Lemma log_softmax_row_sum (row : list R) :
  row <> [] -> rsum (map exp (log_softmax_row row)) = 1.
Proof.
  destruct row as [|x l]; [congruence|]. intros _.
  unfold log_softmax_row.
  set (m := fold_left Rmax l x).
  set (s := rsum (map (fun v => exp (v - m)) (x :: l))).
  assert (Hs : 0 < s) by apply (rsum_exp_pos (fun v => v - m)).
  rewrite map_map.
  rewrite (map_ext (fun v => exp (v - m - ln s))
                   (fun v => exp (v - m) * / s)).
  - rewrite rsum_scale. fold s. field. lra.
  - intros v. unfold Rminus. rewrite (exp_plus (v + - m)), exp_Ropp.
    rewrite exp_ln by exact Hs. reflexivity.
Qed.

Lemma log_softmax_row_length (row : list R) :
  length (log_softmax_row row) = length row.
Proof. destruct row; simpl; [reflexivity|]. now rewrite length_map. Qed.

End LogSoftmax.

Lemma last_item_in {A} (l : list A) :
  l <> [] -> exists x, last_item l = Ok x /\ In x l.
Proof.
  intros Hne. unfold last_item. destruct (rev l) as [|x r] eqn:Hr.
  - apply (f_equal (@rev _)) in Hr. rewrite rev_involutive in Hr.
    contradiction.
  - exists x. split; [reflexivity|]. apply in_rev. rewrite Hr. now left.
Qed.

Lemma rows_check {A} (t : tensor2 A) (n : nat) :
  Forall (fun row => length row = n) t ->
  forallb (fun row => length row =? n) t = true.
Proof.
  intros H. apply forallb_forall. intros row Hin.
  rewrite Forall_forall in H. apply Nat.eqb_eq. apply H. exact Hin.
Qed.

Lemma rows_checked {A} (t : tensor2 A) (n : nat) :
  forallb (fun row => length row =? n) t = true ->
  Forall (fun row => length row = n) t.
Proof.
  intros H. apply Forall_forall. intros row Hin.
  apply Nat.eqb_eq. exact (proj1 (forallb_forall _ _) H row Hin).
Qed.


Lemma summing_accepts (m : nat * nat) (x : tensor3 R) (n b : nat) :
  0 < n ->
  has_shape3 x n b (fst m) ->
  exists out h,
    RealModel.lstm_call RealModel.summing m None x = Ok (out, h) /\
    has_shape3 out n b (snd m).
Proof.
  intros Hn [Hlen Hx]. simpl.
  destruct x as [|first rest] eqn:Ex; [simpl in Hlen; lia|].
  rewrite <- Ex in *. clear Ex first rest.
  assert (Hc : forallb (forallb (fun row : list R => length row =? fst m)) x
               = true).
  { apply forallb_forall. intros t Ht. rewrite Forall_forall in Hx.
    apply rows_check. apply (Hx t Ht). }
  rewrite Hc. do 2 eexists. split; [reflexivity|].
  split; [rewrite length_map; exact Hlen|].
  apply Forall_forall. intros t Ht.
  apply in_map_iff in Ht. destruct Ht as (t0 & <- & Ht0).
  rewrite Forall_forall in Hx. destruct (Hx t0 Ht0) as [Hb _].
  split; [rewrite length_map; exact Hb|].
  apply Forall_forall. intros r Hr.
  apply in_map_iff in Hr. destruct Hr as (r0 & <- & _). apply repeat_length.
Qed.



(** ** The epoch report (C8) *)

Lemma Forall_slice {A} (P : A -> Prop) (l : list A) (lo hi : nat) :
  Forall P l -> Forall P (slice l lo hi).
Proof.
  intros H. unfold slice.
  rewrite <- (firstn_skipn lo l) in H. apply Forall_app in H.
  destruct H as [_ H].
  rewrite <- (firstn_skipn (hi - lo) (skipn lo l)) in H.
  apply Forall_app in H. apply H.
Qed.

Lemma flat_map_some_length {A} (t : list (list A)) (k : nat) :
  Forall (fun e => k < length e) t ->
  length (flat_map (fun e => match nth_error e k with
                             | Some r => [r]
                             | None => []
                             end) t) = length t.
Proof.
  induction 1 as [|e t He _ IH]; simpl; [reflexivity|].
  destruct (nth_error e k) eqn:Hn.
  - simpl. rewrite IH. reflexivity.
  - apply nth_error_None in Hn. lia.
Qed.

(** Permuting a batch of [b >= 1] examples of [n] time steps each gives [n]
    time steps of [b] rows each. *)
Lemma permute_shape {A} (t : list (list A)) (n : nat) :
  t <> [] ->
  Forall (fun e => length e = n) t ->
  length (permute_1_0_2 t) = n /\
  Forall (fun time_step => length time_step = length t) (permute_1_0_2 t).
Proof.
  intros Hne Hrect. destruct t as [|first rest]; [congruence|].
  unfold permute_1_0_2.
  assert (Hfirst : length first = n) by (inversion Hrect; assumption).
  split; [rewrite length_map, length_seq; exact Hfirst|].
  apply Forall_forall. intros time_step Hin.
  apply in_map_iff in Hin. destruct Hin as (k & <- & Hk).
  apply in_seq in Hk. apply flat_map_some_length.
  eapply Forall_impl; [|exact Hrect]. simpl. intros e He. lia.
Qed.

(** Every row of the permuted tensor is a row of one of the examples. *)
Lemma permute_rows {A} (t : list (list A)) (time_step : list A) (row : A) :
  In time_step (permute_1_0_2 t) -> In row time_step ->
  exists example, In example t /\ In row example.
Proof.
  destruct t as [|first rest]; [contradiction|].
  unfold permute_1_0_2. intros Hts Hrow.
  apply in_map_iff in Hts. destruct Hts as (k & <- & _).
  apply in_flat_map in Hrow. destruct Hrow as (e & He & Hr).
  exists e. split; [exact He|].
  destruct (nth_error e k) as [r|] eqn:Hk; [|contradiction].
  destruct Hr as [<-|[]]. eapply nth_error_In. exact Hk.
Qed.

Lemma max_from_index_bound {A} (ltb : A -> A -> bool) (l : list A) :
  forall best bi i, bi < i -> snd (max_from ltb best bi i l) < i + length l.
Proof.
  induction l as [|x l IH]; intros best bi i Hbi; simpl; [lia|].
  destruct (ltb best x).
  - specialize (IH x i (S i) ltac:(lia)). lia.
  - specialize (IH best bi (S i) ltac:(lia)). lia.
Qed.

(** The indices of [torch.max] over axis 1 are one per row and below the
    number of columns. *)
Lemma max_dim1_in_range {A} (ltb : A -> A -> bool)
      (t : tensor2 A) (rows num_classes : nat) :
  0 < num_classes ->
  has_shape2 t rows num_classes ->
  exists m,
    max_dim1 ltb t = Ok m /\
    length (snd m) = rows /\
    Forall (fun c => (0 <= c < Z.of_nat num_classes)%Z) (snd m).
Proof.
  intros Hnc [Hrows Hcols].
  assert (Hne : Forall (fun r => r <> []) t).
  { eapply Forall_impl; [|exact Hcols]. simpl.
    intros r Hr ->. simpl in Hr. lia. }
  destruct (mapM_max_row ltb Hne) as [ps [Hm HF]].
  unfold max_dim1. rewrite Hm. simpl. eexists. split; [reflexivity|]. simpl.
  split; [rewrite length_map, <- (Forall2_length HF); exact Hrows|].
  clear Hm Hrows Hne. induction HF as [|r p t ps Hp _ IH]; simpl;
    [constructor|].
  inversion Hcols as [|? ? Hr Hcols']; subst.
  constructor; [|apply IH; exact Hcols'].
  destruct r as [|x l]; [discriminate Hp|].
  unfold max_row in Hp.
  pose proof (max_from_index_bound ltb l x (bi := 0) (i := 1) ltac:(lia)) as Hb.
  destruct (max_from ltb x 0 1 l) as [v k]. inversion Hp; subst p.
  simpl in *. lia.
Qed.

Lemma Forall2_of_Forall {A B} (P : A -> Prop) (Q : B -> Prop)
      (l1 : list A) (l2 : list B) :
  length l1 = length l2 -> Forall P l1 -> Forall Q l2 ->
  Forall2 (fun a b => P a /\ Q b) l1 l2.
Proof.
  revert l2. induction l1 as [|a l1 IH]; intros [|b l2] Hlen H1 H2;
    try discriminate Hlen; constructor.
  - inversion H1; inversion H2; subst. split; assumption.
  - apply IH; [simpl in Hlen; lia | inversion H1 | inversion H2]; assumption.
Qed.

Lemma shape2_of_lengths {A B} (t' : tensor2 B) (t : tensor2 A) (d0 d1 : nat) :
  map (@length _) t' = map (@length _) t ->
  has_shape2 t d0 d1 -> has_shape2 t' d0 d1.
Proof.
  intros Hmap [Hlen Hrows]. split.
  - apply (f_equal (@length _)) in Hmap. rewrite !length_map in Hmap. lia.
  - clear Hlen. revert t Hmap Hrows.
    induction t' as [|r' t' IH]; intros t Hmap Hrows; [constructor|].
    destruct t as [|r t]; [discriminate Hmap|].
    simpl in Hmap. inversion Hmap as [[Hr Ht]]. inversion Hrows; subst.
    constructor; [congruence | apply (IH t); assumption].
Qed.

Section Report.
Context {T : Backend} {L : Library T}.

(** [forward] on a tensor of the shape the layers are built for. *)
Lemma forward_accepts (model : LSTM.t) (input : tensor3 scalar) (n b : nat) :
  0 < n -> 0 < b ->
  has_shape3 input n b (lstm_input_size (LSTM.lstm model)) ->
  lstm_hidden_size (LSTM.lstm model)
  = linear_in_features (LSTM.linear model) ->
  exists y_pred,
    LSTM.forward model input = Ok y_pred /\
    has_shape2 y_pred b (linear_out_features (LSTM.linear model)).
Proof.
  intros Hn Hb [Hlen Hin] Hfit. unfold LSTM.forward.
  destruct (@lstm_call_accepts T L (LSTM.lstm model) input b)
    as (out & h & Hcall & Hol & Hout); [|exact Hb | exact Hin|].
  { intros ->. simpl in Hlen. lia. }
  rewrite Hcall. simpl.
  destruct (@last_item_in _ out) as (x & Hlast & Hx).
  { intros ->. simpl in Hol. lia. }
  rewrite Hlast. simpl.
  rewrite Forall_forall in Hout. destruct (Hout x Hx) as [Hxb Hxrows].
  destruct (@linear_call_accepts T L (LSTM.linear model) x)
    as (y & Hy & Hshape); [rewrite <- Hfit; exact Hxrows|].
  rewrite Hy. simpl. eexists. split; [reflexivity|].
  apply (@shape2_of_lengths _ _ (log_softmax y) y _ _ (log_softmax_shape y)).
  rewrite <- Hxb. exact Hshape.
Qed.

Lemma sizes_fits (features classes : nat) (m m' : LSTM.t) :
  sizes (LSTM.parameters m') = sizes (LSTM.parameters m) ->
  fits features classes m -> fits features classes m'.
Proof.
  unfold sizes, fits, LSTM.parameters. simpl.
  intros H (H1 & H2 & H3). inversion H as [[E1 E2 E3 E4]].
  rewrite E1, E2, E3, E4. repeat split; assumption.
Qed.

(** A well-shaped minibatch is processed without an exception, and the
    layers keep their sizes. *)
Lemma minibatch_step_accepts (sequence_length features classes : nat)
      (mb : minibatch) (s : LSTM.t * adam) :
  0 < sequence_length -> 0 < classes ->
  well_shaped sequence_length features classes mb ->
  fits features classes (fst s) ->
  exists r, minibatch_step mb s = Ok r /\ fits features classes (fst (fst r)).
Proof.
  intros Hseq Hcls (Hne & Hlen & HX & HY) Hfit.
  unfold minibatch_step. cbv zeta.
  set (cleared := LSTM.with_parameters (fst s)
                    (zero_grad (LSTM.parameters (fst s)))).
  assert (Hfc : fits features classes cleared).
  { apply (sizes_fits (m := fst s)); [|exact Hfit].
    unfold cleared, LSTM.parameters. simpl.
    rewrite <- surjective_pairing. apply zero_grad_sizes. }
  destruct (@max_dim1_in_range _ Z.ltb (snd mb) (length (snd mb)) classes Hcls)
    as (labels & Hlabels & Hll & Hrange).
  { split; [reflexivity | exact HY]. }
  rewrite Hlabels. simpl.
  destruct (@permute_shape _ (fst mb) sequence_length Hne) as [Hpl Hpr].
  { eapply Forall_impl; [|exact HX]. simpl. intros e He. apply He. }
  assert (Hb : 0 < length (fst mb)).
  { destruct (fst mb); [congruence | simpl; lia]. }
  destruct Hfc as (Hf1 & Hf2 & Hf3).
  destruct (@forward_accepts cleared (permute_1_0_2 (fst mb))
              sequence_length (length (fst mb)) Hseq Hb)
    as (y_pred & Hfw & Hyl & Hyr).
  { split; [exact Hpl|]. rewrite Forall_forall in Hpr |- *.
    intros time_step Hts. split; [apply Hpr; exact Hts|].
    apply Forall_forall. intros row Hrow.
    destruct (@permute_rows _ (fst mb) time_step row Hts Hrow)
      as (example & He & Hre).
    rewrite Forall_forall in HX. destruct (HX example He) as [_ Hrows].
    rewrite Forall_forall in Hrows. rewrite Hf1. apply Hrows. exact Hre. }
  { exact Hf2. }
  rewrite Hfw. simpl.
  destruct (@nll_loss_accepts T L y_pred (snd labels)) as [loss Hloss].
  { assert (Hll' : length y_pred = length (snd labels)) by congruence.
    pose proof (Forall2_of_Forall Hll' Hyr Hrange) as HF.
    eapply Forall2_impl; [|exact HF].
    intros row c [Hrow Hc]. cbv beta in Hrow, Hc |- *.
    rewrite Hrow, Hf3. exact Hc. }
  rewrite Hloss. simpl.
  rewrite get_accuracy_raw; [|congruence|].
  - simpl. eexists. split; [reflexivity|]. cbn [fst].
    apply (sizes_fits (m := cleared)); [|repeat split; assumption].
    unfold LSTM.parameters. simpl. rewrite <- surjective_pairing.
    rewrite step_sizes. rewrite <- surjective_pairing.
    apply backward_sizes.
  - eapply Forall_impl; [|exact Hyr]. intros r Hr ->.
    cbv beta in Hr. rewrite Hf3 in Hr. simpl in Hr. lia.
Qed.

Lemma minibatch_steps_accepts (sequence_length features classes : nat)
      (mbs : list minibatch) :
  0 < sequence_length -> 0 < classes ->
  Forall (well_shaped sequence_length features classes) mbs ->
  forall s,
    fits features classes (fst s) ->
    exists r, minibatch_steps mbs s = Ok r /\
              fits features classes (fst (fst r)).
Proof.
  intros Hseq Hcls. induction 1 as [|mb mbs Hmb _ IH]; intros s Hfit.
  - exists (s, []). split; [reflexivity | exact Hfit].
  - destruct (@minibatch_step_accepts sequence_length features classes
                mb s Hseq Hcls Hmb Hfit) as (r1 & H1 & Hf1).
    destruct (IH (fst r1) Hf1) as (r2 & H2 & Hf2).
    simpl. rewrite H1. simpl. rewrite H2. simpl.
    eexists. split; [reflexivity | exact Hf2].
Qed.

Lemma epoch_reference_accepts (sequence_length features classes : nat)
      (mbs : list minibatch) (s : LSTM.t * adam) :
  0 < sequence_length -> 0 < classes ->
  0 < length mbs -> (Z.of_nat (length mbs) < 2 ^ 53)%Z ->
  Forall (well_shaped sequence_length features classes) mbs ->
  fits features classes (fst s) ->
  exists r, epoch_reference mbs s = Ok r /\
            fits features classes (fst (fst r)).
Proof.
  intros Hseq Hcls Hn Hbound Hmbs Hfit. unfold epoch_reference.
  destruct (@minibatch_steps_accepts sequence_length features classes mbs
              Hseq Hcls Hmbs (reinit_hidden (fst s), snd s))
    as (r & Hr & Hf); [exact Hfit|].
  rewrite Hr. simpl. rewrite !float_div_int_pos by lia. simpl.
  eexists. split; [reflexivity | exact Hf].
Qed.

Lemma epochs_reference_accepts (sequence_length features classes : nat)
      (mbs : list minibatch) (n : nat) :
  0 < sequence_length -> 0 < classes ->
  0 < length mbs -> (Z.of_nat (length mbs) < 2 ^ 53)%Z ->
  Forall (well_shaped sequence_length features classes) mbs ->
  forall s,
    fits features classes (fst s) ->
    exists r, epochs_reference n mbs s = Ok r.
Proof.
  intros Hseq Hcls Hn Hbound Hmbs.
  induction n as [|n IH]; intros s Hfit.
  - eexists. reflexivity.
  - destruct (@epoch_reference_accepts sequence_length features classes
                mbs s Hseq Hcls Hn Hbound Hmbs Hfit)
      as (r1 & H1 & Hf1).
    destruct (IH (fst r1) Hf1) as (r2 & H2).
    simpl. rewrite H1. simpl. rewrite H2. simpl. eexists. reflexivity.
Qed.

(** The means an epoch of the specification reports are its sums divided
    by the number of minibatches. *)
Lemma epochs_reference_means (mbs : list minibatch) (n : nat) :
  forall s r,
    epochs_reference n mbs s = Ok r ->
    Forall (fun e =>
              float_div_int (accumulate (map fst (epoch_steps e)))
                            (Z.of_nat (length mbs)) = Ok (mean_loss e) /\
              float_div_int (accumulate (map snd (epoch_steps e)))
                            (Z.of_nat (length mbs)) = Ok (mean_accuracy e))
           (snd r).
Proof.
  induction n as [|n IH]; intros s r H; simpl in H.
  - inversion H. constructor.
  - destruct (epoch_reference mbs s) as [r1|e] eqn:H1; [|discriminate H].
    simpl in H.
    destruct (epochs_reference n mbs (fst r1)) as [r2|e] eqn:H2;
      [|discriminate H].
    simpl in H. inversion H; subst r. simpl. constructor; [|eapply IH; eassumption].
    unfold epoch_reference in H1.
    destruct (minibatch_steps mbs _) as [d|e]; [|discriminate H1].
    simpl in H1.
    destruct (float_div_int (accumulate (map fst (snd d))) _) as [loss|e]
      eqn:Hl; [|discriminate H1].
    simpl in H1.
    destruct (float_div_int (accumulate (map snd (snd d))) _) as [acc|e]
      eqn:Ha; [|discriminate H1].
    simpl in H1. inversion H1; subst r1. simpl. split; assumption.
Qed.

End Report.

(** The minibatches of a training set of well-shaped examples are
    well-shaped. *)
Lemma minibatches_well_shaped `{T : Backend}
      (train_X : list (tensor2 scalar)) (train_Y : list (list Z))
      (sequence_length features classes : nat) :
  Forall (fun example => has_shape2 example sequence_length features) train_X ->
  length train_Y = length train_X ->
  Forall (fun label => length label = classes) train_Y ->
  Forall (well_shaped sequence_length features classes)
         (minibatches train_X train_Y (length train_X / batch_size)).
Proof.
  intros HX Hlen HY. unfold minibatches, range.
  apply Forall_forall. intros mb Hmb.
  apply in_map_iff in Hmb. destruct Hmb as (i & <- & Hi).
  apply in_seq in Hi.
  assert (Hb : (i + 1) * batch_size <= length train_X).
  { transitivity (length train_X / batch_size * batch_size).
    - apply Nat.mul_le_mono_r. lia.
    - rewrite Nat.mul_comm. apply Nat.Div0.mul_div_le. }
  assert (HlX : length (slice train_X (i * batch_size) ((i + 1) * batch_size))
                = batch_size)
    by (rewrite slice_length by exact Hb; lia).
  assert (HlY : length (slice train_Y (i * batch_size) ((i + 1) * batch_size))
                = batch_size)
    by (rewrite slice_length by (rewrite Hlen; exact Hb); lia).
  split; [|split; [|split]]; cbn [fst snd].
  - intros H0. rewrite H0 in HlX. discriminate HlX.
  - congruence.
  - apply Forall_slice. exact HX.
  - apply Forall_slice. exact HY.
Qed.

Lemma printed_epoch_log `{T : Backend} (epoch : nat) (r : epoch_report_data) :
  printed (epoch_log epoch r)
  = [epoch_line epoch (mean_loss r) (mean_accuracy r)].
Proof.
  unfold epoch_log. rewrite printed_app. simpl.
  generalize (combine (range (length (epoch_steps r))) (epoch_steps r)).
  intros l. induction l as [|p l IH]; simpl; [reflexivity | exact IH].
Qed.

Lemma printed_epoch_logs `{T : Backend} (l : list (nat * epoch_report_data)) :
  printed (flat_map (fun p => epoch_log (fst p) (snd p)) l)
  = map (fun p => epoch_line (fst p) (mean_loss (snd p))
                             (mean_accuracy (snd p))) l.
Proof.
  induction l as [|p l IH]; simpl; [reflexivity|].
  rewrite printed_app, printed_epoch_log, IH. reflexivity.
Qed.

(** The whole loop on a well-shaped training set: it does not raise, and
    its log is that of the 400 reports of the specification. *)
Lemma training_accepts `{T : Backend} {L : Library T}
      (train_X : list (tensor2 scalar)) (train_Y : list (list Z))
      (sequence_length features classes : nat) (s : LSTM.t * adam) :
  batch_size <= length train_X ->
  (Z.of_nat (length train_X) < 35 * 2 ^ 48)%Z ->
  0 < sequence_length ->
  0 < classes ->
  Forall (fun example => has_shape2 example sequence_length features) train_X ->
  length train_Y = length train_X ->
  Forall (fun label => length label = classes) train_Y ->
  fits features classes (fst s) ->
  exists (reports : list epoch_report_data) (s' : LSTM.t * adam),
    epochs_reference num_epochs
      (minibatches train_X train_Y (length train_X / batch_size)) s
    = Ok (s', reports) /\
    training train_X train_Y (Z.of_nat (length train_X / batch_size)) s
    = (run_log reports, Ok s') /\
    length reports = num_epochs /\
    Forall (reports_means (length train_X / batch_size)) reports.
Proof.
  intros HN Hbound Hseq Hcls HX Hlen HY Hfit.
  set (nb := length train_X / batch_size).
  assert (Hnb : 0 < nb).
  { apply Nat.div_str_pos. unfold batch_size in *. lia. }
  assert (Hnb2 : (Z.of_nat nb < 2 ^ 53)%Z).
  { pose proof (Nat.Div0.mul_div_le (length train_X) batch_size) as Hm.
    fold nb in Hm. unfold batch_size in Hm.
    assert (H48 : (2 ^ 48 < 2 ^ 53)%Z) by reflexivity.
    lia. }
  pose proof (minibatches_well_shaped HX Hlen HY) as Hmbs. fold nb in Hmbs.
  destruct (@epochs_reference_accepts T L sequence_length features classes
              (minibatches train_X train_Y nb) num_epochs Hseq Hcls)
    with (s := s) as [r Hr]; try assumption.
  { rewrite minibatches_length. exact Hnb. }
  { rewrite minibatches_length. exact Hnb2. }
  pose proof (training_refine train_X train_Y nb s) as Href.
  pose proof (epochs_reference_means _ _ _ Hr) as Hmeans.
  rewrite minibatches_length in Hmeans.
  rewrite Hr in Href. destruct Href as (Hrun & Hn & Hall).
  exists (snd r), (fst r). rewrite <- surjective_pairing.
  split; [exact Hr|]. split; [exact Hrun|]. split; [exact Hn|].
  rewrite Forall_forall in Hall, Hmeans |- *. intros e He.
  split; [apply Hall; exact He | apply Hmeans; exact He].
Qed.

(** The line the code prints and the line the specification words. *)

Lemma format_d_head (z : Z) :
  (0 <= z)%Z ->
  exists c rest, format_d z = String c rest /\ c <> " "%char.
Proof.
  intros Hz. unfold format_d. destruct z as [|p|p]; [| |lia].
  - exists "0"%char, EmptyString. split; [reflexivity | discriminate].
  - simpl. destruct (Pos.to_uint p); simpl;
      eexists; eexists; (split; [reflexivity | discriminate]).
Qed.

Lemma epoch_line_not_spec `{T : Backend}
      (epoch epoch' : nat) (loss acc loss' acc' : pyfloat) :
  epoch_line epoch loss acc <> spec_epoch_line epoch' loss' acc'.
Proof.
  unfold epoch_line, spec_epoch_line. intros H.
  destruct (@format_d_head (Z.of_nat epoch') ltac:(lia))
    as (c & rest & Hd & Hc).
  rewrite Hd in H. simpl in H. inversion H. congruence.
Qed.

Section Lines.
Context {T : Backend}.
Variable train_X : list (tensor2 scalar).
Variable train_Y : list (list Z).

Lemma train_epoch_lines nb line_120 (epoch : nat) (s : LSTM.t * adam) :
  Forall (fun e => match e with
                   | Print line => exists ep loss acc,
                       line = epoch_line ep loss acc
                   | _ => True
                   end)
         (fst (train_epoch_with train_X train_Y nb line_120 epoch s)).
Proof.
  unfold train_epoch_with. cbv zeta. rewrite bind_unfold.
  match goal with
  | |- context [W.for_each _ ?l ?st0] =>
      assert (Hb : Forall (fun e => match e with
                                    | Print line => exists ep loss acc,
                                        line = epoch_line ep loss acc
                                    | _ => True
                                    end)
                          (fst (W.for_each (train_batch train_X train_Y) l st0)))
  end.
  { apply (for_each_invariant (fun _ : train_state => True)); [|exact I].
    intros i st0 _. split; [|intros; exact I].
    destruct (train_batch_cases train_X train_Y i st0)
      as [[e H]|(st' & loss & acc & H & _)]; rewrite H; repeat constructor. }
  destruct (snd (W.for_each _ _ _)) as [st1|e]; [|exact Hb].
  unfold W.lift, W.emit, W.ret.
  destruct (float_div_int (train_running_loss st1) nb); simpl;
    [|rewrite app_nil_r; exact Hb].
  destruct (float_div_int (train_acc st1) nb); simpl;
    [|rewrite app_nil_r; exact Hb].
  apply Forall_app. split; [exact Hb|].
  repeat constructor. do 3 eexists. reflexivity.
Qed.

Lemma training_lines nb (s : LSTM.t * adam) (line : string) :
  In line (printed (fst (training train_X train_Y nb s))) ->
  exists ep loss acc, line = epoch_line ep loss acc.
Proof.
  intros H. apply printed_In in H.
  assert (Hall : Forall (fun e => match e with
                                  | Print line => exists ep loss acc,
                                      line = epoch_line ep loss acc
                                  | _ => True
                                  end)
                        (fst (training train_X train_Y nb s))).
  { unfold training, training_with.
    apply (for_each_invariant (fun _ : LSTM.t * adam => True)); [|exact I].
    intros epoch s0 _. split; [|intros; exact I].
    apply train_epoch_lines. }
  rewrite Forall_forall in Hall. exact (Hall _ H).
Qed.

End Lines.

(** C8, as the code has it.  When the training set holds between 35 and
    [35 * 2^48] examples, every example of at least one time step and of as
    many features per time step as the recurrent layer is built for, every
    label row with as many classes as the linear layer has outputs, and the
    library behaves as documented, the training loop does not raise and
    runs exactly 400 epochs.  Its log is that of the 400 epoch reports the
    specification's loop yields: per epoch the [num_batches] minibatches
    with their losses and accuracies, then exactly one printed line,
    [Epoch:  <int> | NLLoss: <float.4f> | Train Accuracy: <float.2f>] with
    two spaces after [Epoch:] and one after the other colons, where the two
    floats are the epoch's accumulated loss and accumulated accuracy, each
    divided by [num_batches]. *)
Theorem epoch_report `{T : Backend} {L : Library T}
    (train_X : list (tensor2 scalar)) (train_Y : list (list Z))
    (sequence_length features classes : nat) (s : LSTM.t * adam) :
  let N := length train_X in
  let nb := N / batch_size in
  batch_size <= N ->
  (Z.of_nat N < 35 * 2 ^ 48)%Z ->
  0 < sequence_length ->
  0 < classes ->
  Forall (fun example => has_shape2 example sequence_length features) train_X ->
  length train_Y = N ->
  Forall (fun label => length label = classes) train_Y ->
  fits features classes (fst s) ->
  exists (reports : list epoch_report_data) (s' : LSTM.t * adam),
    epochs_reference num_epochs (minibatches train_X train_Y nb) s
    = Ok (s', reports) /\
    training train_X train_Y (Z.of_nat nb) s = (run_log reports, Ok s') /\
    length reports = num_epochs /\ num_epochs = 400 /\
    Forall (reports_means nb) reports /\
    printed (fst (training train_X train_Y (Z.of_nat nb) s))
    = map (fun p => epoch_line (fst p) (mean_loss (snd p))
                               (mean_accuracy (snd p)))
          (combine (range num_epochs) reports) /\
    (forall epoch loss acc,
        epoch_line epoch loss acc
        = ("Epoch:  " ++ format_d (Z.of_nat epoch)
            ++ " | NLLoss: " ++ format_f 4 loss
            ++ " | Train Accuracy: " ++ format_f 2 acc)%string).
Proof.
  intros N nb HN Hbound Hseq Hcls HX Hlen HY Hfit.
  destruct (@training_accepts T L train_X train_Y sequence_length features
              classes s HN Hbound Hseq Hcls HX Hlen HY Hfit)
    as (reports & s' & Href & Hrun & Hn & Hmeans).
  exists reports, s'. fold N nb in Href, Hrun, Hmeans.
  split; [exact Href|]. split; [exact Hrun|]. split; [exact Hn|].
  split; [reflexivity|]. split; [exact Hmeans|]. split; [|reflexivity].
  rewrite Hrun. cbn [fst]. unfold run_log. rewrite Hn.
  apply printed_epoch_logs.
Qed.

Lemma toy_library : Library Toy.backend.
Proof.
  constructor; simpl.
  - intros. split; reflexivity.
  - intros. split; reflexivity.
  - reflexivity.
  - reflexivity.
  - reflexivity.
  - intros m x b Hne Hb Hx. unfold Toy.lstm_call.
    destruct x as [|first rest] eqn:Ex; [congruence|].
    rewrite <- Ex in *. clear Ex first rest Hne.
    assert (Hc : forallb (Toy.rows_of (Toy.input_size m)) x = true).
    { apply forallb_forall. intros t Ht. rewrite Forall_forall in Hx.
      apply rows_check. apply (Hx t Ht). }
    rewrite Hc. do 2 eexists. split; [reflexivity|].
    split; [apply length_map|].
    apply Forall_forall. intros t Ht.
    apply in_map_iff in Ht. destruct Ht as (t0 & <- & Ht0).
    rewrite Forall_forall in Hx. destruct (Hx t0 Ht0) as [Hb0 _].
    split; [rewrite length_map; exact Hb0|].
    apply Forall_forall. intros r Hr.
    apply in_map_iff in Hr. destruct Hr as (r0 & <- & _). apply repeat_length.
  - reflexivity.
  - intros m hx x r. unfold Toy.lstm_call.
    destruct x as [|first rest] eqn:Ex; [discriminate|].
    rewrite <- Ex. clear Ex first rest.
    destruct (forallb (Toy.rows_of (Toy.input_size m)) x) eqn:Hc;
      [|discriminate].
    intros _. apply Forall_forall. intros t Ht.
    apply rows_checked. exact (proj1 (forallb_forall _ _) Hc t Ht).
  - intros m x Hx. unfold Toy.linear_call, Toy.rows_of.
    rewrite (rows_check Hx). eexists. split; [reflexivity|].
    split; [apply length_map|].
    apply Forall_forall. intros r Hr.
    apply in_map_iff in Hr. destruct Hr as (r0 & <- & _).
    rewrite length_map. apply length_seq.
  - intros m x y. unfold Toy.linear_call.
    destruct (Toy.rows_of (Toy.in_features m) x) eqn:Hc; [|discriminate].
    intros _. apply rows_checked. exact Hc.
  - reflexivity.
  - intros y_pred target HF. unfold Toy.nll_loss.
    rewrite (Forall2_length HF), Nat.eqb_refl. simpl.
    assert (Hv : forallb Toy.valid_target (combine y_pred target) = true).
    { induction HF as [|row c y_pred target Hc _ IH]; [reflexivity|].
      simpl. rewrite IH, andb_true_r. unfold Toy.valid_target. simpl.
      apply andb_true_intro. split; [apply Z.leb_le | apply Z.ltb_lt]; lia. }
    rewrite Hv. eexists. reflexivity.
  - intros y_pred target loss. unfold Toy.nll_loss.
    destruct (Nat.eqb_spec (length y_pred) (length target)) as [Hl|];
      [|discriminate].
    simpl. destruct (forallb Toy.valid_target (combine y_pred target)) eqn:Hv;
      [|discriminate].
    intros _. revert target Hl Hv.
    induction y_pred as [|row y_pred IH]; intros [|c target] Hl Hv;
      try discriminate Hl; constructor.
    + simpl in Hv. apply andb_prop in Hv. destruct Hv as [Hv _].
      unfold Toy.valid_target in Hv. simpl in Hv.
      apply andb_prop in Hv. destruct Hv as [_ Hv]. apply Z.ltb_lt. exact Hv.
    + apply IH; [simpl in Hl; lia|].
      simpl in Hv. apply andb_prop in Hv. apply Hv.
Qed.

Lemma toy_data_shapes (n : nat) :
  Forall (fun example => has_shape2 example 2 33) (Toy.examples n) /\
  length (Toy.labels n) = length (Toy.examples n) /\
  Forall (fun label => length label = 8) (Toy.labels n).
Proof.
  unfold Toy.examples, Toy.labels. split; [|split].
  - apply Forall_forall. intros e He.
    apply in_map_iff in He. destruct He as (i & <- & _).
    split; [reflexivity | repeat constructor].
  - rewrite !length_map. reflexivity.
  - apply Forall_forall. intros l Hl.
    apply in_map_iff in Hl. destruct Hl as (i & <- & _). reflexivity.
Qed.

Lemma epoch_report_witness :
  let run := training (T := Toy.backend) (Toy.examples 36) (Toy.labels 36) 1
                      Toy.initial in
  is_ok (snd run) = true /\ length (printed (fst run)) = 400.
Proof.
  intros run.
  pose proof (@epoch_report Toy.backend toy_library
                (Toy.examples 36) (Toy.labels 36) 2 33 8 Toy.initial) as H.
  cbv zeta in H.
  match type of H with
  | context [?n / batch_size] =>
      assert (Hn : n / batch_size = 1) by (vm_compute; reflexivity)
  end.
  rewrite Hn in H. change (Z.of_nat 1) with 1%Z in H. fold run in H.
  destruct (toy_data_shapes 36) as (HX & HlY & HY).
  destruct H as (reports & s' & _ & Hrun & Hlen & H400 & _ & Hprinted & _).
  - vm_compute. lia.
  - vm_compute. reflexivity.
  - lia.
  - lia.
  - exact HX.
  - exact HlY.
  - exact HY.
  - repeat split.
  - split.
    + rewrite Hrun. reflexivity.
    + rewrite Hprinted, length_map, length_combine.
      unfold range. rewrite length_seq, Hlen, H400. reflexivity.
Defined.

(** The claim as stated fails twice.  The line printed has two spaces after
    [Epoch:]: on 35 examples the first line of the small instance is
    [Epoch:  0 | ...], and whatever the library, the data and the state, no
    line the loop prints is a line of the form the specification gives, with
    a single space.  And the loop does not always run 400 epochs: on an
    empty training set, whatever the library, [num_batches] is 0 and the
    first epoch raises [ZeroDivisionError] before any line is printed. *)
Lemma epoch_line_counterexample :
  let run := training (T := Toy.backend) (Toy.examples 35) (Toy.labels 35) 1
                      Toy.initial in
  nth 0 (printed (fst run)) ""%string
  = "Epoch:  0 | NLLoss: 1.0000 | Train Accuracy: 0.00"%string /\
  (forall (T : Backend) train_X train_Y num_batches s line epoch loss acc,
      In line (printed (fst (training (T := T) train_X train_Y num_batches s))) ->
      line <> spec_epoch_line epoch loss acc) /\
  (forall (T : Backend) (s : LSTM.t * adam),
      num_batches (T := T) [] = Ok 0%Z /\
      training (T := T) [] [] 0 s = ([], Raise ZeroDivisionError)).
Proof.
  intros run. split; [vm_compute; reflexivity|]. split.
  - intros T train_X train_Y nb s line epoch loss acc Hin.
    destruct (training_lines _ _ _ _ _ Hin) as (ep & l & a & ->).
    apply epoch_line_not_spec.
  - intros T s. split; reflexivity.
Qed.

(** * Further properties of the script *)

(** ** Too few examples *)

Lemma script_unfold `{E : Env.Environment}
      (genre_features : Env.GenreFeatureData) :
  (Z.of_nat (length (items (Env.train_X genre_features))) < 35 * 2 ^ 48)%Z ->
  train_script genre_features
  = (startup_log genre_features
       ++ fst (training (from_numpy (Env.train_X genre_features))
                 (from_numpy (Env.train_Y genre_features))
                 (Z.of_nat (length (from_numpy (Env.train_X genre_features))
                            / batch_size))
                 (LSTM.__init__ 33 128 batch_size 8 2,
                  Adam (LSTM.parameters (LSTM.__init__ 33 128 batch_size 8 2))
                       (1 # 1000)%Q)),
     snd (training (from_numpy (Env.train_X genre_features))
            (from_numpy (Env.train_Y genre_features))
            (Z.of_nat (length (from_numpy (Env.train_X genre_features))
                       / batch_size))
            (LSTM.__init__ 33 128 batch_size 8 2,
             Adam (LSTM.parameters (LSTM.__init__ 33 128 batch_size 8 2))
                  (1 # 1000)%Q))).
Proof.
  intros Hbound. unfold train_script, train_script_with, from_numpy.
  cbv zeta. rewrite (num_batches_floor _ Hbound). unfold W.emit, W.lift.
  rewrite !bind_ok. simpl fst. simpl snd. reflexivity.
Qed.

(** X1.  With fewer than 35 training examples [num_batches] is 0: the first epoch
    takes no minibatch and the division at line 152 raises.  The script logs
    its start-up lines and ends with [ZeroDivisionError], no epoch line
    printed. *)
Theorem short_training_set_raises `{E : Env.Environment}
    (genre_features : Env.GenreFeatureData) :
  length (items (Env.train_X genre_features)) < batch_size ->
  train_script genre_features
  = (startup_log genre_features, Raise ZeroDivisionError).
Proof.
  intros Hshort. rewrite script_unfold by (unfold batch_size in Hshort; lia).
  unfold from_numpy.
  rewrite (Nat.div_small _ _ Hshort).
  unfold training, training_with, range.
  change num_epochs with (S 399). rewrite <- cons_seq.
  rewrite for_each_raise_first with (log := []) (e := ZeroDivisionError).
  - cbn [fst snd]. rewrite app_nil_r. reflexivity.
  - reflexivity.
Qed.

Lemma short_training_set_raises_witness :
  train_script (E := Toy.environment (Toy.dataset 34 3)) (Toy.dataset 34 3)
  = (startup_log (E := Toy.environment (Toy.dataset 34 3)) (Toy.dataset 34 3),
     Raise ZeroDivisionError).
Proof.
  apply (short_training_set_raises (E := Toy.environment (Toy.dataset 34 3))).
  vm_compute. lia.
Defined.

(** ** A loader that fails *)

Lemma load_data_unfold `{E : Env.Environment} (w : Env.world) :
  load_data w
  = (loader_log (forallb (Env.isfile w) (cache_paths Env.GenreFeatureData_new)),
     if forallb (Env.isfile w) (cache_paths Env.GenreFeatureData_new)
     then Env.load_deserialize_data Env.GenreFeatureData_new w
     else Env.load_preprocess_data Env.GenreFeatureData_new w).
Proof.
  unfold load_data.
  match goal with
  | |- context [if ?c then _ else _] =>
      assert (Hc : c = forallb (Env.isfile w)
                         (cache_paths Env.GenreFeatureData_new))
        by (unfold cache_paths; simpl; rewrite andb_true_r, !andb_assoc;
            reflexivity);
      rewrite !Hc
  end.
  destruct (forallb _ _); reflexivity.
Qed.

(** X2.  The script has no handler around the loading of the data: when the
    loader it calls raises, the script ends with that exception right after
    the announcement and the call, before any shape is printed or the model
    is built. *)
Theorem loader_failure_aborts `{E : Env.Environment} (w : Env.world) (e : exn) :
  let genre_features := Env.GenreFeatureData_new in
  let cache_complete := forallb (Env.isfile w) (cache_paths genre_features) in
  (if cache_complete
   then Env.load_deserialize_data genre_features w
   else Env.load_preprocess_data genre_features w) = Raise e ->
  main w = (loader_log cache_complete, Raise e).
Proof.
  intros genre_features cache_complete Hfail.
  unfold main, main_with. rewrite load_data_unfold.
  fold genre_features. fold cache_complete. rewrite Hfail. reflexivity.
Qed.

Lemma loader_failure_aborts_witness :
  main (E := corrupt_cache_environment (Toy.dataset 36 3)) Toy.cache_files
  = ([Print "Preprocessed files exist, deserializing npy files";
      Call_load_deserialize_data], Raise ValueError).
Proof.
  apply (loader_failure_aborts
           (E := corrupt_cache_environment (Toy.dataset 36 3)) Toy.cache_files).
  reflexivity.
Defined.

(** ** What an epoch covers *)

Lemma firstn_plus {A} (l : list A) (a k : nat) :
  firstn (a + k) l = firstn a l ++ firstn k (skipn a l).
Proof.
  revert l. induction a as [|a IH]; intros l; [reflexivity|].
  destruct l as [|x l]; simpl.
  - rewrite firstn_nil. reflexivity.
  - rewrite IH. reflexivity.
Qed.

(** The minibatches of an epoch, one after the other, are the first
    [num_batches * 35] examples and labels. *)
Lemma minibatches_concat `{T : Backend}
      (train_X : list (tensor2 scalar)) (train_Y : list (list Z)) (nb : nat) :
  concat (map fst (minibatches train_X train_Y nb))
  = firstn (nb * batch_size) train_X /\
  concat (map snd (minibatches train_X train_Y nb))
  = firstn (nb * batch_size) train_Y.
Proof.
  unfold minibatches, range. induction nb as [|nb [IHX IHY]].
  - split; reflexivity.
  - rewrite seq_S, !map_app, !concat_app, IHX, IHY.
    cbn [map concat Nat.add fst snd]. rewrite !app_nil_r. unfold slice.
    replace ((nb + 1) * batch_size - nb * batch_size) with batch_size
      by (unfold batch_size; lia).
    replace (S nb * batch_size) with (nb * batch_size + batch_size)
      by (unfold batch_size; lia).
    rewrite !firstn_plus. split; reflexivity.
Qed.

(** X3.  An epoch that completes has handed to the model, as one minibatch
    after the other, exactly the first [num_batches * 35] examples with
    their labels, each once and in order: it is the epoch of the
    specification over minibatches that, put end to end, are that prefix
    of the training set. *)
Theorem epoch_covers_once `{T : Backend}
    (train_X : list (tensor2 scalar)) (train_Y : list (list Z))
    (num_batches epoch : nat) (s s' : LSTM.t * adam) :
  snd (train_epoch train_X train_Y (Z.of_nat num_batches) epoch s) = Ok s' ->
  exists r,
    epoch_reference (minibatches train_X train_Y num_batches) s = Ok (s', r) /\
    fst (train_epoch train_X train_Y (Z.of_nat num_batches) epoch s)
    = epoch_log epoch r /\
    length (minibatches train_X train_Y num_batches) = num_batches /\
    concat (map fst (minibatches train_X train_Y num_batches))
    = firstn (num_batches * batch_size) train_X /\
    concat (map snd (minibatches train_X train_Y num_batches))
    = firstn (num_batches * batch_size) train_Y.
Proof.
  intros Hok. pose proof (epoch_refine train_X train_Y num_batches epoch s) as H.
  destruct (epoch_reference _ s) as [r|e]; [|congruence].
  destruct H as [H _]. rewrite H in Hok |- *. cbn [fst snd] in *.
  exists (snd r). split.
  - assert (Hs : fst r = s') by congruence. rewrite <- Hs.
    rewrite <- surjective_pairing. reflexivity.
  - split; [reflexivity|]. split; [apply minibatches_length|].
    apply minibatches_concat.
Qed.

Lemma epoch_covers_once_witness :
  exists r s',
    epoch_reference (T := Toy.backend)
      (minibatches (T := Toy.backend) (Toy.examples 36) (Toy.labels 36) 1)
      Toy.initial
    = Ok (s', r) /\
    concat (map fst (minibatches (T := Toy.backend)
                       (Toy.examples 36) (Toy.labels 36) 1))
    = firstn 35 (Toy.examples 36).
Proof.
  destruct (is_ok_inv
              (snd (train_epoch (T := Toy.backend) (Toy.examples 36)
                                (Toy.labels 36) 1 0 Toy.initial)))
    as [s' Hs']; [vm_compute; reflexivity|].
  destruct (@epoch_covers_once Toy.backend (Toy.examples 36) (Toy.labels 36)
              1 0 Toy.initial s' Hs') as (r & Hr & _ & _ & HX & _).
  exists r, s'. split; [exact Hr | exact HX].
Defined.

(** X4.  For fewer than [35 * 2^48] examples, those the loop leaves out are
    the last [N mod 35], fewer than one minibatch; none is left out exactly
    when 35 divides [N]. *)
Theorem dropped_remainder `{T : Backend} (train_X : list (tensor2 scalar)) :
  (Z.of_nat (length train_X) < 35 * 2 ^ 48)%Z ->
  exists nb : nat,
    num_batches train_X = Ok (Z.of_nat nb) /\
    nb * batch_size <= length train_X < (nb + 1) * batch_size /\
    length train_X - nb * batch_size = length train_X mod batch_size /\
    (nb * batch_size = length train_X <-> length train_X mod batch_size = 0).
Proof.
  intros Hbound. exists (length train_X / batch_size).
  split; [apply num_batches_floor; exact Hbound|].
  pose proof (Nat.div_mod_eq (length train_X) batch_size) as Hdm.
  pose proof (Nat.mod_upper_bound (length train_X) batch_size) as Hub.
  unfold batch_size in *. lia.
Qed.

Lemma dropped_remainder_witness :
  exists nb : nat,
    num_batches (T := Toy.backend) (Toy.examples 71) = Ok (Z.of_nat nb) /\
    nb * batch_size <= 71 < (nb + 1) * batch_size.
Proof.
  destruct (@dropped_remainder Toy.backend (Toy.examples 71))
    as (nb & Hnb & Hb & _).
  - vm_compute. reflexivity.
  - exists nb. split; [exact Hnb|].
    replace (length (Toy.examples 71)) with 71 in Hb by (vm_compute; reflexivity).
    exact Hb.
Defined.

(** ** [get_accuracy] at the edges *)

Lemma mapM_max_row_empty {A} (ltb : A -> A -> bool) (t : tensor2 A) :
  In [] t -> mapM (max_row ltb) t = Raise IndexError.
Proof.
  induction t as [|r t IH]; intros Hin; [contradiction|].
  simpl. destruct r as [|x l]; [reflexivity|].
  destruct Hin as [Hin|Hin]; [discriminate Hin|].
  unfold max_row at 1. destruct (max_from ltb x 0 1 l). simpl.
  rewrite (IH Hin). reflexivity.
Qed.

Lemma mapM_max_row_inv {A} (ltb : A -> A -> bool) (t : tensor2 A) :
  forall rows,
    mapM (max_row ltb) t = Ok rows ->
    Forall2 (fun row p => max_row ltb row = Ok p) t rows /\
    Forall (fun r => r <> []) t.
Proof.
  induction t as [|r t IH]; intros rows H; simpl in H.
  - inversion H. split; constructor.
  - destruct (max_row ltb r) as [p|e] eqn:Hp; [|discriminate H]. simpl in H.
    destruct (mapM (max_row ltb) t) as [ps|e] eqn:Hps; [|discriminate H].
    simpl in H. inversion H; subst rows.
    destruct (IH ps eq_refl) as [HF Hne]. split; constructor; try assumption.
    intros ->. discriminate Hp.
Qed.

Section AccuracyEdges.
Context {T : Backend}.

Lemma count_correct_own (logits : tensor2 scalar) (rows : list (scalar * Z)) :
  Forall2 (fun row p => max_row ltb row = Ok p) logits rows ->
  count_correct logits (map snd rows) = length logits.
Proof.
  unfold count_correct.
  induction 1 as [|row p logits rows Hp _ IH]; simpl; [reflexivity|].
  rewrite Hp, Z.eqb_refl. simpl. rewrite IH. reflexivity.
Qed.

End AccuracyEdges.

(** X5.  [get_accuracy] called with a number of rows of scores other than the
    number of entries of [target] raises [RuntimeError], at the [view]. *)
Theorem get_accuracy_size_mismatch `{T : Backend}
    (self : LSTM.t) (logits : tensor2 scalar) (target : list Z) :
  Forall (fun r => r <> []) logits ->
  length logits <> length target ->
  LSTM.get_accuracy self logits target = Raise RuntimeError.
Proof.
  intros Hrows Hlen. unfold LSTM.get_accuracy.
  destruct (max_dim1_ok ltb Hrows) as (m & Hm & Hl).
  rewrite Hm. simpl. unfold view. rewrite Hl.
  destruct (Nat.eqb_spec (length logits) (length target)); [contradiction|].
  reflexivity.
Qed.

Lemma get_accuracy_size_mismatch_witness :
  LSTM.get_accuracy (LSTM.__init__ (T := Toy.backend) 33 128 2 2 2)
    [[1 # 2; 3 # 2]%Q; [2; 1]%Q] [1; 0; 1]%Z
  = Raise RuntimeError.
Proof.
  apply (@get_accuracy_size_mismatch Toy.backend).
  - repeat constructor; discriminate.
  - simpl. lia.
Defined.

(** X6.  [get_accuracy] on scores with no class at all in some row raises
    [IndexError], at [torch.max], whatever [target] is. *)
Theorem get_accuracy_no_class `{T : Backend}
    (self : LSTM.t) (logits : tensor2 scalar) (target : list Z) :
  In [] logits ->
  LSTM.get_accuracy self logits target = Raise IndexError.
Proof.
  intros Hin. unfold LSTM.get_accuracy, max_dim1.
  rewrite (mapM_max_row_empty ltb _ Hin). reflexivity.
Qed.

Lemma get_accuracy_no_class_witness :
  LSTM.get_accuracy (LSTM.__init__ (T := Toy.backend) 33 128 2 2 2)
    [[1 # 2; 3 # 2]%Q; []] [1; 0]%Z
  = Raise IndexError.
Proof.
  apply (@get_accuracy_no_class Toy.backend). simpl. tauto.
Defined.

(** X7.  A model built with [batch_size = 0] makes [get_accuracy] divide by
    zero, which for a tensor raises nothing: the result is [nan] when no
    prediction matches and [inf] otherwise. *)
Theorem get_accuracy_zero_batch_size `{T : Backend}
    (self : LSTM.t) (logits : tensor2 scalar) (target : list Z) :
  LSTM.batch_size self = 0 ->
  length logits = length target ->
  Forall (fun r => r <> []) logits ->
  LSTM.get_accuracy self logits target
  = Ok (if count_correct logits target =? 0 then NaN else Inf false).
Proof.
  intros Hbs Hlen Hrows. rewrite (@get_accuracy_raw T self _ _ Hlen Hrows), Hbs.
  destruct (count_correct logits target) as [|c]; [reflexivity|].
  change (S c =? 0) with false. cbv iota.
  change (of_int (Z.of_nat 0)) with (Fin 0%Q).
  assert (H1 : (0 <= 1 <= inject_Z (Z.of_nat (S c)))%Q).
  { split; [discriminate|]. change 1%Q with (inject_Z 1).
    rewrite <- Zle_Qle. lia. }
  pose proof (@round_nonneg binary32 (inject_Z (Z.of_nat (S c)))
                ltac:(destruct H1; Lqa.lra)) as Hnn.
  unfold of_int.
  destruct (round binary32 (inject_Z (Z.of_nat (S c)))) as [d| |] eqn:Hd;
    [|subst; reflexivity | contradiction].
  destruct (@round_mono binary32 binary32_prec 1 _ d
              (proj1 H1) (proj2 H1) Hd) as (r & Hr & Hrb).
  assert (Hr1 : r = 1%Q)
    by (assert (round binary32 1 = Fin 1%Q) by reflexivity; congruence).
  subst r. unfold mul, ieee_mul.
  assert (H100 : (0 <= 100 <= 100 * d)%Q) by (split; Lqa.lra).
  pose proof (@round_nonneg binary32 (100 * d)%Q
                ltac:(destruct H100; Lqa.lra)) as Hnn2.
  destruct (round binary32 (100 * d)) as [q| |] eqn:Hq;
    [|subst; reflexivity | contradiction].
  destruct (@round_mono binary32 binary32_prec 100 _ q
              (proj1 H100) (proj2 H100) Hq) as (r & Hr' & Hrb').
  rewrite round32_100 in Hr'. assert (r = 100%Q) by congruence. subst r.
  unfold div, ieee_div. change (is_zero 0) with true. cbv iota.
  assert (Hqpos : (0 < q)%Q) by Lqa.lra.
  rewrite (is_zero_pos Hqpos). unfold is_negative.
  destruct (Qcompare_spec q 0) as [H0|H0|H0]; try reflexivity.
  exfalso. exact (Qlt_irrefl _ (Qlt_trans _ _ _ Hqpos H0)).
Qed.

Lemma get_accuracy_zero_batch_size_witness :
  LSTM.get_accuracy (LSTM.__init__ (T := Toy.backend) 33 128 0 2 2)
    [[1 # 2; 3 # 2]%Q; [2; 1]%Q] [1; 1]%Z = Ok (Inf false) /\
  LSTM.get_accuracy (LSTM.__init__ (T := Toy.backend) 33 128 0 2 2)
    [[1 # 2; 3 # 2]%Q; [2; 1]%Q] [0; 1]%Z = Ok NaN.
Proof.
  split.
  - rewrite (@get_accuracy_zero_batch_size Toy.backend);
      [reflexivity | reflexivity | reflexivity
       | repeat constructor; discriminate].
  - rewrite (@get_accuracy_zero_batch_size Toy.backend);
      [reflexivity | reflexivity | reflexivity
       | repeat constructor; discriminate].
Defined.

(** X8.  Scored against its own predictions, the arg-max of every row, a
    batch of [batch_size <= 671088] rows has accuracy 100: up to there
    [100 * batch_size] is a binary32 number and the quotient is exact. *)
Theorem get_accuracy_of_own_predictions `{T : Backend}
    (self : LSTM.t) (logits : tensor2 scalar) (m : list scalar * list Z) :
  0 < LSTM.batch_size self ->
  (Z.of_nat (LSTM.batch_size self) <= 671088)%Z ->
  length logits = LSTM.batch_size self ->
  max_dim1 ltb logits = Ok m ->
  LSTM.get_accuracy self logits (snd m) = Ok (Fin 100%Q).
Proof.
  intros Hbs Hmax Hlen Hm. unfold max_dim1 in Hm.
  destruct (mapM (max_row ltb) logits) as [rows|e] eqn:Hrows;
    [|discriminate Hm].
  simpl in Hm. inversion Hm; subst m. simpl snd.
  destruct (mapM_max_row_inv ltb _ Hrows) as [HF Hne].
  rewrite get_accuracy_raw;
    [|rewrite length_map; exact (Forall2_length HF) | exact Hne].
  rewrite (count_correct_own HF), Hlen.
  rewrite accuracy_nearest by lia.
  rewrite <- round32_100. f_equal. apply (@round_morph binary32).
  field. intros H0.
  assert (Hp : (0 < inject_Z (Z.of_nat (LSTM.batch_size self)))%Q)
    by (apply inject_Z_pos; lia).
  rewrite H0 in Hp. exact (Qlt_irrefl _ Hp).
Qed.

Lemma get_accuracy_of_own_predictions_witness :
  LSTM.get_accuracy (LSTM.__init__ (T := Toy.backend) 33 128 2 2 2)
    [[1 # 2; 3 # 2]%Q; [2; 1]%Q] [1; 0]%Z = Ok (Fin 100%Q).
Proof.
  apply (@get_accuracy_of_own_predictions Toy.backend
           (LSTM.__init__ (T := Toy.backend) 33 128 2 2 2)
           [[1 # 2; 3 # 2]%Q; [2; 1]%Q] ([3 # 2; 2]%Q, [1; 0]%Z)).
  - simpl. lia.
  - simpl. lia.
  - reflexivity.
  - reflexivity.
Defined.

(** ** The arg-max over the class axis *)

(** X9.  The class indices [torch.max] returns over axis 1, for the labels at
    line 140 as for the scores at line 89, are valid classes: one per row,
    each from 0 to [num_classes - 1]. *)
Theorem class_indices_in_range {A} (ltb : A -> A -> bool)
    (t : tensor2 A) (rows num_classes : nat) :
  0 < num_classes ->
  has_shape2 t rows num_classes ->
  exists m,
    max_dim1 ltb t = Ok m /\
    length (snd m) = rows /\
    Forall (fun c => (0 <= c < Z.of_nat num_classes)%Z) (snd m).
Proof.
  apply max_dim1_in_range.
Qed.

Lemma class_indices_in_range_witness :
  exists m,
    max_dim1 Z.ltb [[0; 0; 1]%Z; [5; 5; 2]%Z] = Ok m /\
    length (snd m) = 2 /\
    Forall (fun c => (0 <= c < 3)%Z) (snd m).
Proof.
  apply (@class_indices_in_range Z Z.ltb [[0; 0; 1]%Z; [5; 5; 2]%Z] 2 3).
  - lia.
  - split; [reflexivity | repeat constructor].
Defined.

Lemma max_from_first_maximum (l : list Z) :
  forall (pre : list Z) (best : Z) (bi i : nat),
    length pre = i ->
    nth_error pre bi = Some best ->
    (forall j x, nth_error pre j = Some x -> (x <= best)%Z) ->
    (forall j x, j < bi -> nth_error pre j = Some x -> (x < best)%Z) ->
    exists v k,
      max_from Z.ltb best bi i l = (v, k) /\
      nth_error (pre ++ l) k = Some v /\
      (forall j x, nth_error (pre ++ l) j = Some x -> (x <= v)%Z) /\
      (forall j x, j < k -> nth_error (pre ++ l) j = Some x -> (x < v)%Z).
Proof.
  induction l as [|y l IH]; intros pre best bi i Hlen Hbest Hmax Hfirst.
  - exists best, bi. rewrite app_nil_r. repeat split; assumption.
  - assert (Hbi : bi < length pre) by (apply nth_error_Some; congruence).
    assert (Hsplit : forall j x,
               nth_error (pre ++ [y]) j = Some x ->
               (j < length pre /\ nth_error pre j = Some x) \/
               (j = length pre /\ x = y)).
    { intros j x Hj. destruct (Nat.lt_ge_cases j (length pre)) as [Hlt|Hge].
      - left. rewrite nth_error_app1 in Hj by exact Hlt. tauto.
      - right. rewrite nth_error_app2 in Hj by exact Hge.
        destruct (j - length pre) as [|d] eqn:Hd; simpl in Hj.
        + inversion Hj. split; [lia | reflexivity].
        + destruct d; discriminate Hj. }
    simpl. replace (pre ++ y :: l) with ((pre ++ [y]) ++ l)
      by (rewrite <- app_assoc; reflexivity).
    destruct (Z.ltb_spec best y) as [Hlt|Hge].
    + apply IH.
      * rewrite length_app. simpl. lia.
      * rewrite nth_error_app2 by lia.
        replace (i - length pre) with 0 by lia. reflexivity.
      * intros j x Hj. destruct (Hsplit j x Hj) as [[_ Hp]|[_ ->]]; [|lia].
        specialize (Hmax j x Hp). lia.
      * intros j x Hji Hj. destruct (Hsplit j x Hj) as [[_ Hp]|[Hje _]]; [|lia].
        specialize (Hmax j x Hp). lia.
    + apply IH.
      * rewrite length_app. simpl. lia.
      * rewrite nth_error_app1 by exact Hbi. exact Hbest.
      * intros j x Hj. destruct (Hsplit j x Hj) as [[_ Hp]|[_ ->]]; [|lia].
        exact (Hmax j x Hp).
      * intros j x Hjb Hj. destruct (Hsplit j x Hj) as [[_ Hp]|[Hje _]]; [|lia].
        exact (Hfirst j x Hjb Hp).
Qed.

(** X10.  The label conversion of line 140 takes any integer label row, one-hot
    or not, to the index of its first maximal entry: the entry there is the
    greatest of the row and every entry before it is strictly smaller.  An
    all-zero row thus becomes class 0. *)
Theorem label_first_maximum (row : list Z) :
  row <> [] ->
  exists v k,
    max_row Z.ltb row = Ok (v, Z.of_nat k) /\
    nth_error row k = Some v /\
    (forall j x, nth_error row j = Some x -> (x <= v)%Z) /\
    (forall j x, j < k -> nth_error row j = Some x -> (x < v)%Z).
Proof.
  destruct row as [|x l]; [congruence|]. intros _.
  destruct (@max_from_first_maximum l [x] x 0 1) as (v & k & Hmf & Hk & Hmax & Hfirst).
  - reflexivity.
  - reflexivity.
  - intros [|[|j]] y Hj; simpl in Hj; inversion Hj; lia.
  - intros j y Hj. lia.
  - exists v, k. unfold max_row. rewrite Hmf.
    repeat split; assumption.
Qed.

Lemma label_first_maximum_witness :
  exists v k,
    max_row Z.ltb [0; 3; 1; 3]%Z = Ok (v, Z.of_nat k) /\
    nth_error [0; 3; 1; 3]%Z k = Some v /\
    (forall j x, nth_error [0; 3; 1; 3]%Z j = Some x -> (x <= v)%Z) /\
    (forall j x, j < k -> nth_error [0; 3; 1; 3]%Z j = Some x -> (x < v)%Z).
Proof.
  apply label_first_maximum. discriminate.
Defined.

(** ** The layout handed to [forward] *)

Lemma flat_map_some_nth {A} (t : list (list A)) (k : nat) :
  Forall (fun e => k < length e) t ->
  forall j e,
    nth_error t j = Some e ->
    nth_error (flat_map (fun e => match nth_error e k with
                                  | Some r => [r]
                                  | None => []
                                  end) t) j
    = nth_error e k.
Proof.
  induction 1 as [|e0 t He0 _ IH]; intros j e Hj.
  - destruct j; discriminate Hj.
  - simpl. destruct (nth_error e0 k) as [r|] eqn:Hr.
    + destruct j as [|j]; simpl in Hj |- *.
      * inversion Hj; subst e. symmetry. exact Hr.
      * apply IH. exact Hj.
    + apply nth_error_None in Hr. lia.
Qed.

(** X11.  Line 137 puts the time axis first.  For a minibatch of examples with
    [n] time steps each, the permuted tensor has [n] time steps of one row
    per example, and row [j] of time step [k] is time step [k] of example
    [j]. *)
Theorem permute_layout {A} (X_local_minibatch : list (list A)) (n : nat) :
  X_local_minibatch <> [] ->
  Forall (fun example => length example = n) X_local_minibatch ->
  length (permute_1_0_2 X_local_minibatch) = n /\
  Forall (fun time_step => length time_step = length X_local_minibatch)
         (permute_1_0_2 X_local_minibatch) /\
  forall j k example x,
    nth_error X_local_minibatch j = Some example ->
    nth_error example k = Some x ->
    exists time_step,
      nth_error (permute_1_0_2 X_local_minibatch) k = Some time_step /\
      nth_error time_step j = Some x.
Proof.
  intros Hne Hrect.
  destruct (permute_shape Hne Hrect) as [Hlen Hrows].
  split; [exact Hlen|]. split; [exact Hrows|].
  intros j k example x Hj Hk.
  assert (Hkn : k < n).
  { rewrite Forall_forall in Hrect.
    rewrite <- (Hrect example (nth_error_In _ _ Hj)).
    apply nth_error_Some. congruence. }
  destruct X_local_minibatch as [|first rest]; [congruence|].
  assert (Hfirst : length first = n) by (inversion Hrect; assumption).
  unfold permute_1_0_2. rewrite Hfirst.
  eexists. split.
  - apply map_nth_error. rewrite nth_error_seq_lt by exact Hkn. reflexivity.
  - simpl Nat.add. rewrite (flat_map_some_nth (t := first :: rest)) with (e := example).
    + exact Hk.
    + eapply Forall_impl; [|exact Hrect]. simpl. intros e He. lia.
    + exact Hj.
Qed.

Lemma permute_layout_witness :
  permute_1_0_2 [[1; 2; 3]; [4; 5; 6]] = [[1; 4]; [2; 5]; [3; 6]] /\
  length (permute_1_0_2 [[1; 2; 3]; [4; 5; 6]]) = 3.
Proof.
  split; [reflexivity|].
  apply (@permute_layout nat [[1; 2; 3]; [4; 5; 6]] 3).
  - discriminate.
  - repeat constructor.
Defined.

(** ** What the loop keeps *)

Section LoopInvariants.
Context {T : Backend}.

Lemma get_accuracy_inv (self : LSTM.t) logits target acc :
  LSTM.get_accuracy self logits target = Ok acc ->
  length logits = length target /\ Forall (fun r => r <> []) logits.
Proof.
  unfold LSTM.get_accuracy, max_dim1. intros H.
  destruct (mapM (max_row ltb) logits) as [rows|e] eqn:Hrows;
    [|discriminate H].
  destruct (mapM_max_row_inv ltb _ Hrows) as [HF Hne].
  simpl in H. unfold view in H. rewrite length_map in H.
  destruct (Nat.eqb_spec (length rows) (length target)) as [Heq|Hneq];
    [|discriminate H].
  split; [|exact Hne]. rewrite (Forall2_length HF). exact Heq.
Qed.

Lemma slice_length_le {A} (l : list A) (i : nat) :
  length (slice l (i * batch_size) ((i + 1) * batch_size)) <= batch_size.
Proof.
  unfold slice. rewrite length_firstn. unfold batch_size. lia.
Qed.

Lemma max_dim1_length {A} (f : A -> A -> bool) (t : tensor2 A) m :
  max_dim1 f t = Ok m -> length (snd m) = length t.
Proof.
  unfold max_dim1. intros H.
  destruct (mapM (max_row f) t) as [rows|e] eqn:Hrows; [|discriminate H].
  destruct (mapM_max_row_inv f _ Hrows) as [HF _].
  simpl in H. inversion H; subst m. simpl.
  rewrite length_map. symmetry. exact (Forall2_length HF).
Qed.

(** What one minibatch does to the loop state and what it logs, whether
    it raises or not. *)
Lemma train_batch_effect train_X train_Y (i : nat) (st : train_state) :
  batch_size <= LSTM.batch_size (model st) ->
  Forall (fun e => match e with
                   | Step _ acc => is_percentage acc
                   | _ => True
                   end) (fst (train_batch train_X train_Y i st)) /\
  (forall st',
      snd (train_batch train_X train_Y i st) = Ok st' ->
      config (model st') = config (model st) /\
      LSTM.hidden (model st') = LSTM.hidden (model st) /\
      exists acc, is_percentage acc /\
                  train_acc st' = float_add (train_acc st) acc).
Proof.
  intros Hbs. unfold train_batch, W.emit, W.lift, W.ret.
  destruct (max_dim1 Z.ltb _) as [m|e] eqn:Hm; simpl;
    [|split; [repeat constructor | discriminate]].
  destruct (LSTM.forward _ _) as [y_pred|e]; simpl;
    [|split; [repeat constructor | discriminate]].
  destruct (nll_loss _ _) as [loss|e]; simpl;
    [|split; [repeat constructor | discriminate]].
  destruct (LSTM.get_accuracy _ y_pred (snd m)) as [acc|e] eqn:Hacc; simpl;
    [|split; [repeat constructor | discriminate]].
  assert (Hp : is_percentage acc).
  { destruct (get_accuracy_inv _ _ _ Hacc) as [Hlen Hne].
    rewrite (@get_accuracy_raw T _ _ _ Hlen Hne) in Hacc.
    assert (Hv : acc = div (mul (Fin 100%Q)
                                (of_int (Z.of_nat (count_correct y_pred (snd m)))))
                           (of_int (Z.of_nat (LSTM.batch_size (model st)))))
      by (cbn [LSTM.batch_size LSTM.with_parameters] in Hacc; congruence).
    rewrite Hv. apply accuracy_percentage; [|exact Hbs].
    etransitivity; [apply count_correct_le|].
    rewrite (max_dim1_length _ _ Hm). apply slice_length_le. }
  split; [repeat constructor; exact Hp|].
  intros st' H. inversion H; subst st'. simpl.
  split; [reflexivity|]. split; [reflexivity|].
  exists acc. split; [exact Hp | reflexivity].
Qed.

End LoopInvariants.

Section LoopKeeps.
Context {T : Backend}.
Variable train_X : list (tensor2 scalar).
Variable train_Y : list (list Z).

Lemma train_batch_keeps (i : nat) (st st' : train_state) :
  snd (train_batch train_X train_Y i st) = Ok st' ->
  config (model st') = config (model st) /\
  LSTM.hidden (model st') = LSTM.hidden (model st).
Proof.
  unfold train_batch, W.emit, W.lift, W.ret.
  destruct (max_dim1 Z.ltb _) as [m|e]; simpl; [|discriminate].
  destruct (LSTM.forward _ _) as [y_pred|e]; simpl; [|discriminate].
  destruct (nll_loss _ _) as [loss|e]; simpl; [|discriminate].
  destruct (LSTM.get_accuracy _ y_pred (snd m)) as [acc|e]; simpl;
    [|discriminate].
  intros H. inversion H; subst st'. split; reflexivity.
Qed.

Lemma batches_keep (l : list nat) :
  forall st st',
    snd (W.for_each (train_batch train_X train_Y) l st) = Ok st' ->
    config (model st') = config (model st) /\
    LSTM.hidden (model st') = LSTM.hidden (model st).
Proof.
  induction l as [|i l IH]; intros st st' H.
  - simpl in H. inversion H; subst. split; reflexivity.
  - destruct (for_each_cons_ok _ _ _ _ H) as (st1 & H1 & Hrest & _).
    destruct (train_batch_keeps _ _ H1) as [Hc Hh].
    destruct (IH st1 st' Hrest) as [Hc' Hh'].
    split; congruence.
Qed.

(** An epoch that does not raise leaves the attributes of the model as
    they were and [model.hidden] at the zero state. *)
Lemma train_epoch_keeps nb (epoch : nat) (s s' : LSTM.t * adam) :
  snd (train_epoch train_X train_Y nb epoch s) = Ok s' ->
  config (fst s') = config (fst s) /\
  LSTM.hidden (fst s') = Some (fst (LSTM.init_hidden (fst s'))).
Proof.
  unfold train_epoch, train_epoch_with. cbv zeta. rewrite bind_unfold.
  destruct (snd (W.for_each _ _ _)) as [st1|e] eqn:Hb; [|discriminate].
  destruct (batches_keep _ _ Hb) as [Hc Hh]. simpl in Hc, Hh.
  unfold W.lift, W.emit, W.ret.
  destruct (float_div_int (train_running_loss st1) nb); simpl;
    [|discriminate].
  destruct (float_div_int (train_acc st1) nb); simpl; [|discriminate].
  intros H. inversion H; subst s'. simpl. split; [exact Hc|].
  rewrite Hh. unfold config in Hc. inversion Hc as [[H1 H2 H3 H4]].
  unfold LSTM.init_hidden. simpl. rewrite H2, H3, H4. reflexivity.
Qed.

Lemma epochs_keep nb (n : nat) :
  forall (start : nat) (s s' : LSTM.t * adam),
    snd (W.for_each (train_epoch train_X train_Y nb) (seq start (S n)) s)
    = Ok s' ->
    config (fst s') = config (fst s) /\
    LSTM.hidden (fst s') = Some (fst (LSTM.init_hidden (fst s'))).
Proof.
  induction n as [|n IH]; intros start s s' H.
  - destruct (for_each_cons_ok _ _ _ _ H) as (s1 & H1 & Hrest & _).
    simpl in Hrest. inversion Hrest; subst.
    eapply train_epoch_keeps; eassumption.
  - change (seq start (S (S n))) with (start :: seq (S start) (S n)) in H.
    destruct (for_each_cons_ok _ _ _ _ H) as (s1 & H1 & Hrest & _).
    pose proof H1 as Hk. apply train_epoch_keeps in Hk.
    destruct Hk as [Hc _].
    destruct (IH (S start) s1 s' Hrest) as [Hc' Hh'].
    split; [congruence | exact Hh'].
Qed.

End LoopKeeps.

(** X12.  The training loop changes the parameters of the model and nothing else
    of it.  After a run that does not raise, [input_dim], [hidden_dim],
    [batch_size] and [num_layers] are what they were, and [model.hidden]
    holds the all-zero state that [init_hidden] returns: no hidden state
    is carried anywhere. *)
Theorem training_keeps_configuration `{T : Backend}
    (train_X : list (tensor2 scalar)) (train_Y : list (list Z))
    (num_batches : Z) (s s' : LSTM.t * adam) :
  snd (training train_X train_Y num_batches s) = Ok s' ->
  config (fst s') = config (fst s) /\
  LSTM.hidden (fst s') = Some (fst (LSTM.init_hidden (fst s'))).
Proof.
  unfold training, training_with, range.
  change num_epochs with (S 399).
  apply epochs_keep.
Qed.

Lemma training_keeps_configuration_witness :
  exists s',
    snd (training (T := Toy.backend) (Toy.examples 36) (Toy.labels 36) 1
                  Toy.initial) = Ok s' /\
    config (fst s') = (33, 128, 35, 2).
Proof.
  destruct (is_ok_inv
              (snd (training (T := Toy.backend) (Toy.examples 36)
                             (Toy.labels 36) 1 Toy.initial)))
    as [s' Hs']; [vm_compute; reflexivity|].
  exists s'. split; [exact Hs'|].
  destruct (@training_keeps_configuration Toy.backend _ _ _ _ _ Hs') as [Hc _].
  rewrite Hc. reflexivity.
Defined.

(** ** The accuracies the loop reports *)

Lemma steps_app (l1 l2 : list event) : steps (l1 ++ l2) = steps l1 ++ steps l2.
Proof. apply flat_map_app. Qed.

Lemma steps_percentages (log : list event) :
  Forall (fun e => match e with
                   | Step _ acc => is_percentage acc
                   | _ => True
                   end) log ->
  Forall (fun p => is_percentage (snd p)) (steps log).
Proof.
  induction 1 as [|e log He _ IH]; simpl; [constructor|].
  destruct e; simpl; try exact IH. constructor; assumption.
Qed.

Section Percentages.
Context {T : Backend}.
Variable train_X : list (tensor2 scalar).
Variable train_Y : list (list Z).

Lemma batches_percentages (l : list nat) (st : train_state) :
  batch_size <= LSTM.batch_size (model st) ->
  Forall (fun e => match e with
                   | Step _ acc => is_percentage acc
                   | _ => True
                   end)
         (fst (W.for_each (train_batch train_X train_Y) l st)) /\
  (forall st',
      snd (W.for_each (train_batch train_X train_Y) l st) = Ok st' ->
      batch_size <= LSTM.batch_size (model st')).
Proof.
  apply (for_each_invariant
           (fun st => batch_size <= LSTM.batch_size (model st))).
  intros i st0 Hbs.
  destruct (train_batch_effect train_X train_Y i st0 Hbs) as [HQ Hst].
  split; [exact HQ|]. intros st' H.
  destruct (Hst st' H) as [Hc _].
  unfold config in Hc. inversion Hc as [[H1 H2 H3 H4]]. rewrite H3.
  exact Hbs.
Qed.

Lemma train_epoch_percentages nb (epoch : nat) (s : LSTM.t * adam) :
  batch_size <= LSTM.batch_size (fst s) ->
  Forall (fun e => match e with
                   | Step _ acc => is_percentage acc
                   | _ => True
                   end)
         (fst (train_epoch train_X train_Y nb epoch s)) /\
  (forall s',
      snd (train_epoch train_X train_Y nb epoch s) = Ok s' ->
      batch_size <= LSTM.batch_size (fst s')).
Proof.
  intros Hbs. unfold train_epoch, train_epoch_with. cbv zeta.
  rewrite bind_unfold.
  match goal with
  | |- context [W.for_each _ ?l ?st0] =>
      destruct (batches_percentages l st0 Hbs) as [HQ HI]
  end.
  destruct (snd (W.for_each _ _ _)) as [st1|e]; simpl;
    [|split; [exact HQ | discriminate]].
  specialize (HI st1 eq_refl).
  unfold W.lift, W.emit, W.ret.
  destruct (float_div_int (train_running_loss st1) nb); simpl;
    [|rewrite app_nil_r; split; [exact HQ | discriminate]].
  destruct (float_div_int (train_acc st1) nb); simpl;
    [|rewrite app_nil_r; split; [exact HQ | discriminate]].
  split.
  - apply Forall_app. split; [exact HQ | repeat constructor].
  - intros s' H. inversion H; subst s'. exact HI.
Qed.

End Percentages.

(** X13.  With a model built for minibatches of 35 or more, as the script builds
    it, every accuracy the loop adds to its running sum is a finite value
    between 0 and 100, in runs that raise as in runs that complete. *)
Theorem step_accuracies_are_percentages `{T : Backend}
    (train_X : list (tensor2 scalar)) (train_Y : list (list Z))
    (num_batches : Z) (s : LSTM.t * adam) :
  batch_size <= LSTM.batch_size (fst s) ->
  Forall (fun p => is_percentage (snd p))
         (steps (fst (training train_X train_Y num_batches s))).
Proof.
  intros Hbs. apply steps_percentages.
  unfold training, training_with.
  apply (for_each_invariant
           (fun s0 : LSTM.t * adam => batch_size <= LSTM.batch_size (fst s0)));
    [|exact Hbs].
  intros epoch s0 H0. apply train_epoch_percentages. exact H0.
Qed.

Lemma step_accuracies_are_percentages_witness :
  Forall (fun p => is_percentage (snd p))
         (steps (fst (training (T := Toy.backend) (Toy.examples 71)
                               (Toy.labels 71) 2 Toy.initial))).
Proof.
  apply (@step_accuracies_are_percentages Toy.backend).
  simpl. lia.
Defined.

Section EpochMean.
Context {T : Backend}.
Variable train_X : list (tensor2 scalar).
Variable train_Y : list (list Z).

Lemma batches_print_nothing (l : list nat) (st : train_state) :
  printed (fst (W.for_each (train_batch train_X train_Y) l st)) = [].
Proof.
  apply no_print_printed.
  apply (for_each_invariant (fun _ : train_state => True)); [|exact I].
  intros i st0 _. split; [|intros; exact I].
  destruct (train_batch_cases train_X train_Y i st0)
    as [[e H]|(st' & loss & acc & H & _)]; rewrite H; repeat constructor.
Qed.

(** The running sum of accuracies grows by at most 100 per minibatch,
    as long as the bound is a binary64 integer. *)
Lemma batches_acc_bound (l : list nat) :
  forall (st st' : train_state) (q0 : Q) (M : Z),
    batch_size <= LSTM.batch_size (model st) ->
    snd (W.for_each (train_batch train_X train_Y) l st) = Ok st' ->
    train_acc st = Fin q0 ->
    (0 <= M)%Z ->
    (M + 100 * Z.of_nat (length l) < 2 ^ 53)%Z ->
    (0 <= q0 <= inject_Z M)%Q ->
    exists q,
      train_acc st' = Fin q /\
      (0 <= q <= inject_Z (M + 100 * Z.of_nat (length l)))%Q.
Proof.
  induction l as [|i l IH]; intros st st' q0 M Hbs H Hq0 HM Hbound Hb.
  - simpl in H. inversion H; subst st'. exists q0. split; [exact Hq0|].
    simpl length. rewrite Z.mul_0_r, Z.add_0_r. exact Hb.
  - destruct (for_each_cons_ok _ _ _ _ H) as (st1 & H1 & Hrest & _).
    destruct (train_batch_effect train_X train_Y i st Hbs) as [_ Hst].
    destruct (Hst st1 H1) as (Hc & _ & acc & Hp & Hacc).
    destruct acc as [qa| |]; try contradiction. simpl in Hp.
    rewrite Hq0 in Hacc. unfold float_add, ieee_add in Hacc.
    assert (Hbs1 : batch_size <= LSTM.batch_size (model st1)).
    { unfold config in Hc. inversion Hc as [[E1 E2 E3 E4]]. rewrite E3.
      exact Hbs. }
    simpl length in Hbound. rewrite Nat2Z.inj_succ in Hbound.
    assert (Hsum : (0 <= q0 + qa <= inject_Z (M + 100))%Q).
    { rewrite inject_Z_plus. change (inject_Z 100) with 100%Q.
      destruct Hb, Hp. split; Lqa.lra. }
    destruct (@round_mono binary64 binary64_prec (q0 + qa)
                (inject_Z (M + 100)) (inject_Z (M + 100))
                (proj1 Hsum) (proj2 Hsum)) as (q1 & Hq1 & Hb1).
    { apply (@round_int binary64 binary64_prec binary64_emax).
      change (prec binary64) with 53%Z. lia. }
    rewrite Hq1 in Hacc.
    destruct (IH st1 st' q1 (M + 100)%Z Hbs1 Hrest Hacc) as (q & Hq & Hqb);
      [lia | lia | exact Hb1 |].
    exists q. split; [exact Hq|].
    simpl length. rewrite Nat2Z.inj_succ.
    replace (M + 100 * Z.succ (Z.of_nat (length l)))%Z
      with (M + 100 + 100 * Z.of_nat (length l))%Z by lia.
    exact Hqb.
Qed.

End EpochMean.

Lemma round64_100 : round binary64 100%Q = Fin 100%Q.
Proof. vm_compute. reflexivity. Qed.

(** The mean of at most [num_batches] values between 0 and 100. *)
Lemma mean_percentage (q : Q) (nb : Z) (acc : pyfloat) :
  (0 <= q <= inject_Z (100 * Z.of_nat (Z.to_nat nb)))%Q ->
  (100 * nb < 2 ^ 53)%Z ->
  float_div_int (Fin q) nb = Ok acc ->
  is_percentage acc.
Proof.
  intros Hq Hbound.
  destruct (Z.lt_trichotomy nb 0) as [Hneg|[Hz|Hpos]].
  - replace (Z.to_nat nb) with 0 in Hq by lia.
    change (inject_Z (100 * Z.of_nat 0)) with 0%Q in Hq.
    assert (Hq0 : (q == 0)%Q) by (destruct Hq; apply Qle_antisym; assumption).
    unfold float_div_int, float_of_int.
    destruct (round binary64 (inject_Z nb)) as [d| |]; cbn [Py.bind];
      try discriminate.
    unfold float_truediv. destruct (is_zero d) eqn:Hd; [discriminate|].
    unfold ieee_div. rewrite Hd. intros H.
    assert (Hz : (q / d == 0)%Q) by (rewrite Hq0; unfold Qdiv; ring).
    rewrite (@round_0 binary64 _ Hz) in H.
    assert (Ha : acc = Fin 0%Q) by congruence. rewrite Ha. simpl.
    split; discriminate.
  - subst nb. rewrite float_div_int_0. discriminate.
  - assert (H53 : (2 ^ 53 = 9007199254740992)%Z) by reflexivity.
    rewrite float_div_int_pos by lia.
    rewrite Z2Nat.id in Hq by lia.
    assert (Hn : (0 < inject_Z nb)%Q) by (apply inject_Z_pos; exact Hpos).
    unfold ieee_div. rewrite (is_zero_pos Hn). intros H.
    rewrite inject_Z_mult in Hq. change (inject_Z 100) with 100%Q in Hq.
    assert (Hquot : (0 <= q / inject_Z nb <= 100)%Q).
    { destruct Hq. split.
      - apply Qle_shift_div_l; [exact Hn|]. Lqa.lra.
      - apply Qle_shift_div_r; [exact Hn|]. Lqa.lra. }
    destruct (@round_mono binary64 binary64_prec _ 100 100
                (proj1 Hquot) (proj2 Hquot) round64_100) as (m & Hm & Hmb).
    rewrite Hm in H. assert (Ha : acc = Fin m) by congruence.
    rewrite Ha. exact Hmb.
Qed.



(** ** The whole script *)

Lemma initial_fits `{T : Backend} {L : Library T} :
  fits 33 8 (LSTM.__init__ 33 128 batch_size 8 2).
Proof.
  unfold fits. simpl.
  destruct (nn_LSTM_sizes 33 128 2) as [H1 H2].
  destruct (nn_Linear_sizes 128 8) as [H3 H4].
  rewrite H1, H2, H3, H4. repeat split.
Qed.

(** X15.  End to end.  When the loader the start-up calls returns between 35
    and [35 * 2^48] labelled examples, each of at least one time step of 33
    features and with a label row of 8 classes, and the library behaves as
    documented, the script runs to its end: it logs the announcement and
    the loader call, the four shape lines and the two progress lines, and
    then the 400 epoch reports of the specification's loop over the
    [floor(N / 35)] minibatches, taking the scheduled slices and printing
    one line per epoch, 407 lines in all. *)
Theorem script_completes `{E : Env.Environment} {L : Library T}
    (w w' : Env.world) (genre_features : Env.GenreFeatureData)
    (sequence_length : nat) :
  let cache_complete :=
    forallb (Env.isfile w) (cache_paths Env.GenreFeatureData_new) in
  let N := length (items (Env.train_X genre_features)) in
  let model := LSTM.__init__ 33 128 batch_size 8 2 in
  (if cache_complete
   then Env.load_deserialize_data Env.GenreFeatureData_new w
   else Env.load_preprocess_data Env.GenreFeatureData_new w)
  = Ok (genre_features, w') ->
  batch_size <= N ->
  (Z.of_nat N < 35 * 2 ^ 48)%Z ->
  0 < sequence_length ->
  Forall (fun example => has_shape2 example sequence_length 33)
         (items (Env.train_X genre_features)) ->
  length (items (Env.train_Y genre_features)) = N ->
  Forall (fun label => length label = 8) (items (Env.train_Y genre_features)) ->
  snd (main w) = Ok tt /\
  length (printed (fst (main w))) = 407 /\
  exists (reports : list epoch_report_data) (s' : LSTM.t * adam),
    epochs_reference num_epochs
      (minibatches (items (Env.train_X genre_features))
                   (items (Env.train_Y genre_features)) (N / batch_size))
      (model, Adam (LSTM.parameters model) (1 # 1000)%Q)
    = Ok (s', reports) /\
    fst (main w)
    = loader_log cache_complete ++ startup_log genre_features
        ++ run_log reports /\
    length reports = num_epochs /\
    slices (run_log reports) = run_schedule (N / batch_size).
Proof.
  intros cache_complete N model Hload HN Hbound Hseq HX Hlen HY.
  destruct (@training_accepts T L (items (Env.train_X genre_features))
              (items (Env.train_Y genre_features)) sequence_length 33 8
              (model, Adam (LSTM.parameters model) (1 # 1000)%Q)
              HN Hbound Hseq ltac:(lia) HX Hlen HY initial_fits)
    as (reports & s' & Href & Hrun & Hn & _).
  fold N in Href, Hrun.
  pose proof (training_slices (items (Env.train_X genre_features))
                (items (Env.train_Y genre_features))
                (Z.of_nat (N / batch_size)) reinit_hidden
                (model, Adam (LSTM.parameters model) (1 # 1000)%Q)) as [_ Hsl].
  fold (training (items (Env.train_X genre_features))
          (items (Env.train_Y genre_features)) (Z.of_nat (N / batch_size))
          (model, Adam (LSTM.parameters model) (1 # 1000)%Q)) in Hsl.
  rewrite Hrun in Hsl. specialize (Hsl s' eq_refl).
  cbn [fst] in Hsl. rewrite Nat2Z.id in Hsl.
  assert (Hmain : main w
                  = (loader_log cache_complete ++ startup_log genre_features
                       ++ run_log reports, Ok tt)).
  { unfold main, main_with. rewrite load_data_unfold.
    fold cache_complete. rewrite Hload, bind_ok. cbn [fst].
    fold (train_script genre_features).
    rewrite script_unfold by exact Hbound. unfold from_numpy. fold N.
    fold model. rewrite Hrun.
    cbn [fst snd]. rewrite bind_ok. simpl snd. simpl fst.
    rewrite app_nil_r. reflexivity. }
  assert (Hprinted : length (printed (run_log reports)) = num_epochs).
  { unfold run_log. rewrite printed_epoch_logs, length_map, length_combine.
    unfold range. rewrite length_seq, Hn. apply Nat.min_id. }
  rewrite Hmain. cbn [fst snd].
  split; [reflexivity|]. split.
  - rewrite !printed_app, !length_app, Hprinted.
    unfold cache_complete. destruct (forallb _ _); reflexivity.
  - exists reports, s'. split; [exact Href|]. split; [reflexivity|].
    split; [exact Hn | exact Hsl].
Qed.

Lemma script_completes_witness :
  let E := Toy.environment (Toy.dataset 36 3) in
  snd (main (E := E) Toy.cache_files) = Ok tt /\
  length (printed (fst (main (E := E) Toy.cache_files))) = 407.
Proof.
  intros E.
  destruct (toy_data_shapes 36) as (HX & HlY & HY).
  destruct (@script_completes Toy.backend E toy_library
              Toy.cache_files Toy.cache_files (Toy.dataset 36 3) 2)
    as (Hok & Hlen & _).
  - reflexivity.
  - vm_compute. lia.
  - vm_compute. reflexivity.
  - lia.
  - exact HX.
  - exact HlY.
  - exact HY.
  - split; assumption.
Defined.

(** ** Labels without classes *)

(** X16.  When a label row of the first minibatch has no class at all, the
    conversion at line 140 raises: the run ends with [IndexError] in the
    first iteration, its slice taken and nothing else done. *)
Theorem empty_label_row_aborts `{T : Backend}
    (train_X : list (tensor2 scalar)) (train_Y : list (list Z))
    (num_batches : Z) (s : LSTM.t * adam) :
  (0 < num_batches)%Z ->
  In [] (slice train_Y 0 batch_size) ->
  training train_X train_Y num_batches s
  = ([Slice 0 batch_size], Raise IndexError).
Proof.
  intros Hnb Hin. unfold training, training_with, range.
  change num_epochs with (S 399). rewrite <- cons_seq.
  apply for_each_raise_first.
  unfold train_epoch_with. cbv zeta.
  destruct (Z.to_nat num_batches) as [|n] eqn:Hn; [lia|].
  unfold range. rewrite <- cons_seq.
  rewrite for_each_raise_first with (log := [Slice 0 batch_size])
                                    (e := IndexError); [reflexivity|].
  unfold train_batch, W.emit, W.lift.
  change (0 * batch_size) with 0. change ((0 + 1) * batch_size) with batch_size.
  unfold max_dim1. rewrite (mapM_max_row_empty Z.ltb _ Hin). reflexivity.
Qed.

Lemma empty_label_row_aborts_witness :
  training (T := Toy.backend) (Toy.examples 36) ([] :: Toy.labels 35) 1
           Toy.initial
  = ([Slice 0 35], Raise IndexError).
Proof.
  apply (@empty_label_row_aborts Toy.backend).
  - lia.
  - simpl. tauto.
Defined.
